(** * Corpus-curation pipeline: shard consolidation and admission filtering

    A shallow embedding of

      - [cc_pseudo_crawl/finalise.py]   (module [Finalise]), and
      - [ac_dc/visualization/visualization.py] (module [Visualization]),

    together with the properties of the specification that concern them.

    Python exceptions are modelled by the [result] monad; Python dictionaries
    used as maps by stdpp's [gmap]; integers by [Z] and [nat]; the numbers
    held in the data frame and returned by the sliders by rationals [Q]
    (every finite float is a rational; the code compares these numbers,
    counts, divides and rounds). *)

From Stdlib Require Import ZArith QArith Qround Qabs Ascii String List Lia.
From stdpp Require Import gmap strings list fin_maps.
From Equations Require Import Equations.

Local Open Scope string_scope.
Local Open Scope list_scope.
Local Open Scope Z_scope.

(** ** Exceptions *)

Inductive exn : Set :=
  | AssertionError
  | KeyError
  | TypeError
  | ValueError
  | IndexError
  | AttributeError
  | UnboundLocalError.

Inductive result (A : Type) : Type :=
  | Ok (a : A)
  | Raise (e : exn).
Arguments Ok {A} a.
Arguments Raise {A} e.

Definition result_bind {A B : Type} (f : A → result B) (m : result A) : result B :=
  match m with
  | Ok a => f a
  | Raise e => Raise e
  end.

#[global] Instance result_mret : MRet result := @Ok.
#[global] Instance result_mbind : MBind result := @result_bind.

(** [for x in l: s = body(s, x)], stopping at the first exception. *)
Fixpoint for_each {A S : Type} (body : S → A → result S) (l : list A) (s : S) : result S :=
  match l with
  | [] => Ok s
  | x :: l' => s' ← body s x; for_each body l' s'
  end.

(** [[f(x) for x in l]] where [f] may raise. *)
Fixpoint traverse {A B : Type} (f : A → result B) (l : list A) : result (list B) :=
  match l with
  | [] => Ok []
  | x :: l' => y ← f x; ys ← traverse f l'; Ok (y :: ys)
  end.

(** [s.split(sep)] for a one-character separator: every occurrence splits,
    empty pieces are kept, and the empty string gives one empty piece. *)
Fixpoint split_on (sep : ascii) (s : string) : list string :=
  match s with
  | EmptyString => [EmptyString]
  | String c s' =>
      if Ascii.eqb c sep then EmptyString :: split_on sep s'
      else match split_on sep s' with
           | w :: ws => String c w :: ws
           | [] => [String c EmptyString]
           end
  end.

(** * finalise.py *)

Module Finalise.

(** A record of a dataset.  A column the dataset does not have is [None]
    in every row: [id] and [external_ids] are such columns. *)
Record Row : Type := mkRow {
  url : string;
  fetch_time : Z;
  external_urls : list string;
  id_ : option nat;
  external_ids : option (list nat)
}.

#[global] Instance Row_eq_dec : EqDecision Row.
Proof. solve_decision. Defined.

Definition set_id (data : Row) (i : nat) : Row :=
  mkRow (url data) (fetch_time data) (external_urls data) (Some i) (external_ids data).

Definition set_external_ids (data : Row) (ids : list nat) : Row :=
  mkRow (url data) (fetch_time data) (external_urls data) (id_ data) (Some ids).

(** [data["id"]] *)
Definition getitem_id (data : Row) : result nat :=
  match id_ data with
  | Some i => Ok i
  | None => Raise KeyError
  end.

(** ** get_args *)

Record Args : Type := mkArgs {
  dataset : string;
  datasets_to_concatenate : list string
}.

(** The two arguments are the values given to the required options
    [--dataset] and [--datasets-to-concatenate]; the second goes through
    [type=lambda s: s.split(',')]. *)
Definition parse_args (dataset_value datasets_value : string) : Args :=
  mkArgs dataset_value (split_on "," datasets_value).

Definition get_args (dataset_value datasets_value : string) : result Args :=
  let args := parse_args dataset_value datasets_value in
  if bool_decide (dataset args ∈ datasets_to_concatenate args)
  then Raise AssertionError
  else Ok args.

(** ** compute_external_ids_ *)

(** Python's order on the tuples [(timestamp, id)]: lexicographic. *)
Definition tuple_lt (a b : Z * nat) : bool :=
  (a.1 <? b.1) || ((a.1 =? b.1) && (a.2 <? b.2)%nat).

(** [max(a, b)]: the first of the greatest, so [b] only when [a < b]. *)
Definition py_max (a b : Z * nat) : Z * nat :=
  if tuple_lt a b then b else a.

(** Body of the first loop. *)
Definition index_body (url_to_id_and_timestamp : gmap string (nat * Z)) (data : Row)
    : result (gmap string (nat * Z)) :=
  let url := url data in
  id_ ← getitem_id data;
  let timestamp := fetch_time data in
  match url_to_id_and_timestamp !! url with
  | Some (old_id, old_time_stamp) =>
      let '(new_timestamp, new_id) := py_max (timestamp, id_) (old_time_stamp, old_id) in
      Ok (<[url := (new_id, new_timestamp)]> url_to_id_and_timestamp)
  | None =>
      Ok (<[url := (id_, timestamp)]> url_to_id_and_timestamp)
  end.

(** The first loop: the canonical index of [ds]. *)
Definition build_index (ds : list Row) : result (gmap string (nat * Z)) :=
  for_each index_body ds ∅.

(** The list comprehension of the second loop. *)
Definition resolve (url_to_id_and_timestamp : gmap string (nat * Z))
    (external_urls : list string) : list nat :=
  map (λ external_url, (url_to_id_and_timestamp !!! external_url).1)
      (filter (λ external_url, is_Some (url_to_id_and_timestamp !! external_url))
         external_urls).

(** Body of the second loop.  [data] is the dictionary that the iteration
    over the dataset has built for a row; the assignment stores the list in
    that dictionary. *)
Definition external_ids_body (url_to_id_and_timestamp : gmap string (nat * Z)) (data : Row)
    : Row :=
  set_external_ids data (resolve url_to_id_and_timestamp (external_urls data)).

(** [compute_external_ids_] on a [datasets.Dataset], which is what [main]
    gives it.  Iterating over a [Dataset] builds a new dictionary for every
    row from the table that the dataset holds, so the dictionaries that the
    second loop writes to are not part of [ds]: they are dropped when
    their turn ends, and [return ds] returns the dataset as it was given. *)
Definition compute_external_ids_ (ds : list Row) : result (list Row) :=
  url_to_id_and_timestamp ← build_index ds;
  let written := map (external_ids_body url_to_id_and_timestamp) ds in
  Ok ds.

(** ** assign_id and main *)

(** [batch["id"] = indices]: the column [id] of the batch becomes
    [indices], an already present column being overwritten. *)
Definition assign_id (batch : list Row) (indices : list nat) : list Row :=
  zip_with set_id batch indices.

(** [ds.map(function, batched=True, with_indices=True)]: [function] gets
    the rows of one batch and their positions in [ds]; a batch size of [0]
    means one batch with everything.  [offset] is the position of the
    first row of [ds] in the whole dataset. *)
Equations ds_map_from (function : list Row → list nat → list Row)
    (batch_size offset : nat) (ds : list Row) : list Row by wf (length ds) lt :=
  ds_map_from function batch_size offset [] := [];
  ds_map_from function 0 offset ds := function ds (seq offset (length ds));
  ds_map_from function (S b) offset (data :: ds) :=
    function (take (S b) (data :: ds)) (seq offset (length (take (S b) (data :: ds))))
    ++ ds_map_from function (S b) (offset + S b) (drop (S b) (data :: ds)).
Next Obligation. intros. simpl. rewrite length_drop. lia. Qed.

Definition default_batch_size : nat := 1000.

Definition ds_map (function : list Row → list nat → list Row) (ds : list Row) : list Row :=
  ds_map_from function default_batch_size 0 ds.

(** [concatenate_datasets(datasets)], for datasets that the library takes:
    at least one, and all with the same columns.  It raises [ValueError]
    for an empty list and for columns that do not match; these checks are
    not part of this definition, which is the list of the rows. *)
Definition concatenate_datasets (datasets : list (list Row)) : list Row :=
  concat datasets.

(** Lines 60 to 67 of [main]: what is done with the loaded shards. *)
Definition consolidate (datasets : list (list Row)) : result (list Row) :=
  let ds := concatenate_datasets datasets in
  let ds := ds_map assign_id ds in
  compute_external_ids_ ds.

(** The index that [compute_external_ids_] builds inside [consolidate]. *)
Definition canonical_index (datasets : list (list Row)) : result (gmap string (nat * Z)) :=
  build_index (ds_map assign_id (concatenate_datasets datasets)).

(** Its two projections: url to id, and url to fetch time. *)
Definition url_to_id (datasets : list (list Row)) : result (gmap string nat) :=
  canonical_index datasets ≫= λ idx : gmap string (nat * Z), Ok (fst <$> idx).

Definition url_to_timestamp (datasets : list (list Row)) : result (gmap string Z) :=
  canonical_index datasets ≫= λ idx : gmap string (nat * Z), Ok (snd <$> idx).

(** [main].  [hub] is [load_dataset]: the dataset stored under a name, or
    the exception that loading it raises.  The pair returned is what
    [push_to_hub] is called with, the name and the dataset; the push
    itself, which may fail too, is not modelled. *)
Definition main (hub : string → result (list Row)) (dataset_value datasets_value : string)
    : result (string * list Row) :=
  args ← get_args dataset_value datasets_value;
  datasets ← traverse hub (datasets_to_concatenate args);
  ds ← consolidate datasets;
  Ok (dataset args, ds).

(** ** Definitions for the statements and the proofs *)

(** The entry stored for a pair, and the pair compared for an entry. *)
Definition entry_of (p : Z * nat) : nat * Z := (p.2, p.1).
Definition pair_of (e : nat * Z) : Z * nat := (e.2, e.1).

(** The pair that [index_body] stores for a record with id [i]. *)
Definition merged (idx : gmap string (nat * Z)) (data : Row) (i : nat) : Z * nat :=
  from_option (λ old, py_max (fetch_time data, i) (pair_of old))
    (fetch_time data, i) (idx !! url data).

Definition key_of (r : Row) : string * Z := (url r, fetch_time r).

Definition ts_body (m : gmap string Z) (p : string * Z) : gmap string Z :=
  <[p.1 := from_option (Z.max p.2) p.2 (m !! p.1)]> m.

End Finalise.

(** * visualization.py *)

Module Visualization.

(** ** Data *)

Record Word : Type := mkWord {
  word : string;
  len_word : Z;
  incorrect_substring : bool
}.

(** A value of the JSON data and of the data frame built from it: a number
    (int or float), a missing value, a string, a dictionary from
    repetition lengths to ratios (in the order of the file), or the list
    of the words of a document. *)
Inductive cell : Type :=
  | Num (q : Q)
  | NaN
  | Str (s : string)
  | Dict (d : list (string * Q))
  | Words (ws : list Word).

(** A [pandas.DataFrame]: its columns by name. *)
Abbreviation frame := (gmap string (list cell)).

(** A rule: the tuple [(name, cutoff, max_cutoff)], with the repetition
    length as a fourth component for the repetitions ratio. *)
Record Key : Type := mkKey {
  key_0 : string;
  key_1 : Q;
  key_2 : bool;
  key_3 : option string
}.

(** The functions of [filtering.py], which is not among these sources,
    applied to the parameters and models that the object holds. *)
Record Filtering : Type := mkFiltering {
  get_words_from_document : string → list string;
  compute_repetitions_ratio : string → Z → Q;
  compute_special_characters_ratio : string → Q;
  compute_stopwords_ratio : string → gset string → Q;
  compute_flagged_words_ratio : string → gset string → Q;
  compute_lang_id_pred_score : string → string * Q;
  compute_perplexity_score : string → Q
}.

(** The object.  [docs] and [docs_checkpoint] are references into [heap],
    the data frames that exist; two references may name one frame. *)
Record Self : Type := mkSelf {
  lang_dataset_id : string;
  max_len_text_display : nat;
  stopwords : gset string;
  flagged_words : gset string;
  num_docs : nat;
  num_docs_for_words : nat;
  heap : list frame;
  docs : nat;
  docs_checkpoint : nat;
  words : option (list Word);
  keys : list Key;
  parameters : list Key
}.

Definition set_heap (self : Self) (h : list frame) : Self :=
  mkSelf (lang_dataset_id self) (max_len_text_display self) (stopwords self)
    (flagged_words self) (num_docs self) (num_docs_for_words self) h
    (docs self) (docs_checkpoint self) (words self) (keys self) (parameters self).

Definition set_keys (self : Self) (ks ps : list Key) : Self :=
  mkSelf (lang_dataset_id self) (max_len_text_display self) (stopwords self)
    (flagged_words self) (num_docs self) (num_docs_for_words self) (heap self)
    (docs self) (docs_checkpoint self) (words self) ks ps.

(** The frame a reference names. *)
Definition frame_of (self : Self) (ref : nat) : frame :=
  default ∅ (heap self !! ref).

(** [df[key]] *)
Definition getitem (df : frame) (key : string) : result (list cell) :=
  match df !! key with
  | Some col => Ok col
  | None => Raise KeyError
  end.

(** [self.docs[key] = col]: the frame that [self.docs] names gets the
    column; every reference to that frame sees it. *)
Definition setitem_docs (self : Self) (key : string) (col : list cell) : Self :=
  set_heap self (<[docs self := <[key := col]> (frame_of self (docs self))]> (heap self)).

(** [self.docs[key].iloc[i] = v]: the cell of the frame is written, which
    is what the code counts on when it compares the column with a cutoff
    right after such a loop. *)
Definition iloc_set_docs (self : Self) (key : string) (i : nat) (v : cell) : result Self :=
  col ← getitem (frame_of self (docs self)) key;
  if bool_decide (i < length col)%nat
  then Ok (setitem_docs self key (<[i := v]> col))
  else Raise IndexError.

(** [col.iloc[i]] *)
Definition iloc (col : list cell) (i : nat) : result cell :=
  match col !! i with
  | Some c => Ok c
  | None => Raise IndexError
  end.

(** ** open_data *)

Definition truncation_notice : string :=
  " [...] [THIS LONG TEXT HAS BEEN TRUNCATED FOR DISPLAY REASONS]".

(** [pd.DataFrame(docs)] for a list of dictionaries: one column for each
    key, a missing value where a document has no such key. *)
Definition DataFrame (docs : list (gmap string cell)) : frame :=
  set_to_map (λ c, (c, (λ doc : gmap string cell, default NaN (doc !! c)) <$> docs))
    (⋃ (dom <$> docs) : gset string).

(** [doc["words"]] for the word table. *)
Definition words_of (doc : gmap string cell) : result (list Word) :=
  match doc !! "words" with
  | Some (Words ws) => Ok ws
  | Some _ => Raise TypeError
  | None => Raise KeyError
  end.

(** Body of [for doc in docs].  A text is the string of its characters,
    one [ascii] for each: for such a text, [String.length] and [substring]
    are [len] and the slice.  A text with characters outside ASCII, when
    held as the bytes of an encoding, is longer here than for Python. *)
Definition prepare_doc (has_words : bool) (max_len : nat) (doc : gmap string cell)
    : result (gmap string cell) :=
  doc ← (if has_words
         then match doc !! "words" with
              | Some _ => Ok (delete "words" doc)
              | None => Raise KeyError
              end
         else Ok doc);
  match doc !! "text" with
  | Some (Str text) =>
      if bool_decide (max_len < String.length text)%nat
      then Ok (<["text" := Str (substring 0 max_len text ++ truncation_notice)]> doc)
      else Ok doc
  | Some (Dict d) =>
      if bool_decide (max_len < length d)%nat then Raise TypeError else Ok doc
  | Some (Words ws) =>
      if bool_decide (max_len < length ws)%nat then Raise TypeError else Ok doc
  | Some _ => Raise TypeError
  | None => Raise KeyError
  end.

(** [open_data]; [data] is the content of the JSON file at [path_data]. *)
Definition open_data (data : list (gmap string cell)) (self : Self) : result Self :=
  let num_docs := Nat.min (num_docs self) (length data) in
  let num_docs_for_words := Nat.min (num_docs_for_words self) (length data) in
  data_0 ← match data with d :: _ => Ok d | [] => Raise IndexError end;
  words ← (if bool_decide (is_Some (data_0 !! "words"))
           then ws ← traverse words_of (take num_docs_for_words data);
                Ok (Some (concat ws))
           else Ok None);
  let docs := take num_docs data in
  docs ← traverse (prepare_doc (bool_decide (is_Some words))
                     (max_len_text_display self)) docs;
  let docs_checkpoint := length (heap self) in
  Ok (mkSelf (lang_dataset_id self) (max_len_text_display self) (stopwords self)
        (flagged_words self) num_docs num_docs_for_words
        (heap self ++ [DataFrame docs])
        docs_checkpoint docs_checkpoint words (keys self) (parameters self)).

(** ** filtering_of_docs *)

(** The state of the widgets of the page: what the user chose, [None]
    where a widget was left alone (or no file was uploaded). *)
Record Widgets : Type := mkWidgets {
  w_min_number_words : option Q;
  w_max_number_words : option Q;
  w_repetitions_length : option string;
  w_repetitions_ratio : option Q;
  w_special_characters_ratio : option Q;
  w_stopwords_file : option string;
  w_stopwords_ratio : option Q;
  w_flagged_words_file : option string;
  w_flagged_words_ratio : option Q;
  w_lang_id_score : option Q;
  w_perplexity_score : option Q;
  w_display_discarded_documents_by_filter : bool;
  w_personal_doc : string
}.

(** The page after a file has been given to one of the two uploaders. *)
Definition upload_stopwords (w : Widgets) (content : string) : Widgets :=
  mkWidgets (w_min_number_words w) (w_max_number_words w) (w_repetitions_length w)
    (w_repetitions_ratio w) (w_special_characters_ratio w) (Some content)
    (w_stopwords_ratio w) (w_flagged_words_file w) (w_flagged_words_ratio w)
    (w_lang_id_score w) (w_perplexity_score w)
    (w_display_discarded_documents_by_filter w) (w_personal_doc w).

Definition upload_flagged_words (w : Widgets) (content : string) : Widgets :=
  mkWidgets (w_min_number_words w) (w_max_number_words w) (w_repetitions_length w)
    (w_repetitions_ratio w) (w_special_characters_ratio w) (w_stopwords_file w)
    (w_stopwords_ratio w) (Some content) (w_flagged_words_ratio w)
    (w_lang_id_score w) (w_perplexity_score w)
    (w_display_discarded_documents_by_filter w) (w_personal_doc w).

(** [st.slider(label, min_value, max_value, value)]: what the user chose,
    which lies in the range, or else [value].  Streamlit raises an
    exception for a range that is empty or does not hold [value]; the code
    gives such a range only for a column of the number of words or of the
    perplexity score whose greatest value is negative, and that exception
    is not part of this definition. *)
Definition slider (chosen : option Q) (min_value max_value value : Q) : Q :=
  default value chosen.

(** [st.selectbox(label, options, index)] *)
Definition selectbox (chosen : option string) (options : list string) (index : nat)
    : option string :=
  match chosen with
  | Some c => Some c
  | None => options !! index
  end.

(** [series <= cutoff] and [series >= cutoff], element by element: a
    comparison with a missing value is false. *)
Definition cell_le (cutoff : Q) (c : cell) : result bool :=
  match c with
  | Num v => Ok (Qle_bool v cutoff)
  | NaN => Ok false
  | _ => Raise TypeError
  end.

Definition cell_ge (cutoff : Q) (c : cell) : result bool :=
  match c with
  | Num v => Ok (Qle_bool cutoff v)
  | NaN => Ok false
  | _ => Raise TypeError
  end.

Definition get_cond (self : Self) (key : string) (cutoff : Q) (max_cutoff : bool)
    : result (list bool) :=
  col ← getitem (frame_of self (docs self)) key;
  if max_cutoff then traverse (cell_le cutoff) col
  else traverse (cell_ge cutoff) col.

(** [np.sum(1*cond)] *)
Definition np_sum (cond : list bool) : nat :=
  length (filter (λ b, b = true) cond).

(** [print_discared_by_cond]: the number shown by the caption, before it
    is formatted with two decimals. *)
Definition print_discared_by_cond (cond : list bool) : cell :=
  match length cond with
  | O => NaN
  | S _ =>
      Num (inject_Z (Z.of_nat (length cond - np_sum cond))
           / inject_Z (Z.of_nat (length cond)) * 100)
  end.

(** [np.max(series)], which is the [max] of the series: the greatest of its
    numbers, missing values being skipped, and a missing value when there is
    no number. *)
Definition np_max_from (acc : cell) (col : list cell) : result cell :=
  for_each (λ acc c,
              match c, acc with
              | Num b, Num a => Ok (Num (if Qle_bool a b then b else a))
              | Num b, _ => Ok (Num b)
              | NaN, _ => Ok acc
              | _, _ => Raise TypeError
              end) col acc.

Definition np_max (col : list cell) : result cell := np_max_from NaN col.

(** [int(x)]: towards zero. *)
Definition py_int (c : cell) : result Z :=
  match c with
  | Num q => Ok (Z.quot (Qnum q) (Z.pos (Qden q)))
  | NaN => Raise ValueError
  | _ => Raise TypeError
  end.

(** The local variables of [set_sliders], with the captions it prints. *)
Record Sliders : Type := mkSliders {
  sl_self : Self;
  sl_keys : list Key;
  sl_conds : list (string * list (list bool));
  sl_captions : list cell
}.

(** [d[name]] *)
Fixpoint dict_get {V : Type} (d : list (string * V)) (name : string) : result V :=
  match d with
  | [] => Raise KeyError
  | (k, v) :: d' => if String.eqb k name then Ok v else dict_get d' name
  end.

(** [conds[name] = value] on a dictionary that keeps insertion order. *)
Fixpoint dict_set {V : Type} (d : list (string * V)) (name : string) (value : V)
    : list (string * V) :=
  match d with
  | [] => [(name, value)]
  | (k, v) :: d' =>
      if String.eqb k name then (k, value) :: d' else (k, v) :: dict_set d' name value
  end.

(** The four lines that follow each slider:
    [keys.append(new_key)], the histogram (a figure only),
    [cond = get_cond(new_key[0], new_key[1], new_key[2])] and
    [print_discared_by_cond(cond)]. *)
Definition add_key (new_key : Key) (s : Sliders) : result (list bool * Sliders) :=
  let keys := sl_keys s ++ [new_key] in
  cond ← get_cond (sl_self s) (key_0 new_key) (key_1 new_key) (key_2 new_key);
  Ok (cond, mkSliders (sl_self s) keys (sl_conds s)
              (sl_captions s ++ [print_discared_by_cond cond])).

Definition set_conds (s : Sliders) (name : string) (value : list (list bool)) : Sliders :=
  mkSliders (sl_self s) (sl_keys s) (dict_set (sl_conds s) name value) (sl_captions s).

Definition set_self (s : Sliders) (self : Self) : Sliders :=
  mkSliders self (sl_keys s) (sl_conds s) (sl_captions s).

(** [cell[repetitions_length]] *)
Definition subscript (c : cell) (name : option string) : result cell :=
  match c with
  | Dict d =>
      match name with
      | Some n => v ← dict_get d n; Ok (Num v)
      | None => Raise KeyError
      end
  | _ => Raise TypeError
  end.

(** [list(cell.keys())] *)
Definition dict_keys (c : cell) : result (list string) :=
  match c with
  | Dict d => Ok (d.*1)
  | _ => Raise AttributeError
  end.

(** [for i in range(len(self.docs[name])): self.docs[name].iloc[i] = f(i)],
    where [f] reads the object as it is at that turn. *)
Definition for_rows (name : string) (f : Self → nat → result cell) (self : Self)
    : result Self :=
  col ← getitem (frame_of self (docs self)) name;
  for_each (λ self i, v ← f self i; iloc_set_docs self name i v)
    (seq 0 (length col)) self.

(** The seven blocks of [set_sliders], one for each signal, in the order of
    the source; [columns] is [list(self.docs)] as it was on entry. *)
Section blocks.
Context (F : Filtering) (w : Widgets) (columns : list string).

Definition number_words_block (s : Sliders) : result Sliders :=
  if bool_decide ("number_words" ∈ columns) then
    col ← getitem (frame_of (sl_self s) (docs (sl_self s))) "number_words";
    m ← np_max col;
    i ← py_int m;
    let max_nb_words := i + 1 in
    let cutoff_min_number_words :=
      slider (w_min_number_words w) 0 (inject_Z (Z.min max_nb_words 500)) 0 in
    let new_key := mkKey "number_words" cutoff_min_number_words false None in
    '(cond_1, s) ← add_key new_key s;
    let cutoff_max_number_words :=
      slider (w_max_number_words w) 0 (inject_Z max_nb_words) (inject_Z max_nb_words) in
    let new_key := mkKey "number_words" cutoff_max_number_words true None in
    '(cond_2, s) ← add_key new_key s;
    Ok (set_conds s "number_words" [cond_1; cond_2])
  else Ok s.

Definition repetitions_ratio_block (s : Sliders) : result Sliders :=
  if bool_decide ("repetitions_ratio" ∈ columns) then
    let self := sl_self s in
    col ← getitem (frame_of self (docs self)) "repetitions_ratio";
    first ← iloc col 0;
    val_repetitions_lengths ← dict_keys first;
    let default_index :=
      match list_find (λ n, n = "10") val_repetitions_lengths with
      | Some (i, _) => i
      | None => 0%nat
      end in
    let repetitions_length :=
      selectbox (w_repetitions_length w) val_repetitions_lengths default_index in
    checkpoint ← getitem (frame_of self (docs_checkpoint self)) "repetitions_ratio";
    let self := setitem_docs self "repetitions_ratio" checkpoint in
    self ← for_rows "repetitions_ratio"
             (λ self i,
                col ← getitem (frame_of self (docs self)) "repetitions_ratio";
                c ← iloc col i;
                subscript c repetitions_length) self;
    let s := set_self s self in
    let cutoff_repetitions_ratio := slider (w_repetitions_ratio w) 0 1 1 in
    let new_key :=
      mkKey "repetitions_ratio" cutoff_repetitions_ratio true repetitions_length in
    '(cond, s) ← add_key new_key s;
    Ok (set_conds s "repetitions_ratio" [cond])
  else Ok s.

Definition special_characters_ratio_block (s : Sliders) : result Sliders :=
  if bool_decide ("special_characters_ratio" ∈ columns) then
    let cutoff_special_characters_ratio :=
      slider (w_special_characters_ratio w) 0 1 1 in
    let new_key :=
      mkKey "special_characters_ratio" cutoff_special_characters_ratio true None in
    '(cond, s) ← add_key new_key s;
    Ok (set_conds s "special_characters_ratio" [cond])
  else Ok s.

(** The text of row [i], for the functions of [filtering.py]. *)
Definition text_of (self : Self) (i : nat) : result string :=
  col ← getitem (frame_of self (docs self)) "text";
  c ← iloc col i;
  match c with
  | Str text => Ok text
  | _ => Raise TypeError
  end.

(** [set(content.split("\n"))] *)
Definition lexicon_of (content : string) : gset string :=
  list_to_set (split_on "010" content).

Definition stopwords_ratio_block (s : Sliders) : result Sliders :=
  if bool_decide ("stopwords_ratio" ∈ columns) then
    let self := sl_self s in
    self ← match w_stopwords_file w with
           | Some content =>
               let new_stopwords := lexicon_of content in
               checkpoint ← getitem (frame_of self (docs_checkpoint self)) "stopwords_ratio";
               let self := setitem_docs self "stopwords_ratio" checkpoint in
               for_rows "stopwords_ratio"
                 (λ self i,
                    text ← text_of self i;
                    Ok (Num (compute_stopwords_ratio F text new_stopwords))) self
           | None => Ok self
           end;
    let s := set_self s self in
    let cutoff_stopwords_ratio := slider (w_stopwords_ratio w) 0 1 0 in
    let new_key := mkKey "stopwords_ratio" cutoff_stopwords_ratio false None in
    '(cond, s) ← add_key new_key s;
    Ok (set_conds s "stopwords_ratio" [cond])
  else Ok s.

Definition flagged_words_ratio_block (s : Sliders) : result Sliders :=
  if bool_decide ("flagged_words_ratio" ∈ columns) then
    let self := sl_self s in
    self ← match w_flagged_words_file w with
           | Some content =>
               let new_flagged_words := lexicon_of content in
               checkpoint ← getitem (frame_of self (docs_checkpoint self)) "flagged_words_ratio";
               let self := setitem_docs self "flagged_words_ratio" checkpoint in
               for_rows "flagged_words_ratio"
                 (λ self i,
                    text ← text_of self i;
                    Ok (Num (compute_flagged_words_ratio F text new_flagged_words))) self
           | None => Ok self
           end;
    let s := set_self s self in
    let cutoff_flagged_words_ratio := slider (w_flagged_words_ratio w) 0 1 1 in
    let new_key := mkKey "flagged_words_ratio" cutoff_flagged_words_ratio true None in
    '(cond, s) ← add_key new_key s;
    Ok (set_conds s "flagged_words_ratio" [cond])
  else Ok s.

Definition lang_id_score_block (s : Sliders) : result Sliders :=
  if bool_decide ("lang_id_score" ∈ columns) then
    let cutoff_lang_id_score := slider (w_lang_id_score w) 0 1 0 in
    let new_key := mkKey "lang_id_score" cutoff_lang_id_score false None in
    '(cond, s) ← add_key new_key s;
    Ok (set_conds s "lang_id_score" [cond])
  else Ok s.

Definition perplexity_score_block (s : Sliders) : result Sliders :=
  if bool_decide ("perplexity_score" ∈ columns) then
    col ← getitem (frame_of (sl_self s) (docs (sl_self s))) "perplexity_score";
    m ← np_max col;
    i ← py_int m;
    let max_pp := i + 1 in
    let cutoff_perplexity_score :=
      slider (w_perplexity_score w) 0 (inject_Z max_pp) (inject_Z max_pp) in
    let new_key := mkKey "perplexity_score" cutoff_perplexity_score true None in
    '(cond, s) ← add_key new_key s;
    Ok (set_conds s "perplexity_score" [cond])
  else Ok s.
End blocks.

(** [list(self.docs)]: the names of the columns. *)
Definition list_columns (df : frame) : list string := elements (dom df).

Definition set_sliders (F : Filtering) (w : Widgets) (self : Self) : result Sliders :=
  let columns := list_columns (frame_of self (docs self)) in
  let s := mkSliders self [] [] [] in
  s ← number_words_block w columns s;
  s ← repetitions_ratio_block w columns s;
  s ← special_characters_ratio_block w columns s;
  s ← stopwords_ratio_block F w columns s;
  s ← flagged_words_ratio_block F w columns s;
  s ← lang_id_score_block w columns s;
  s ← perplexity_score_block w columns s;
  Ok s.

(** The result of [np.all(..., axis=0)]: an array with one truth value for
    each row, or a single truth value when there is nothing to combine. *)
Inductive ndarray : Type :=
  | Scalar (b : bool)
  | Vector (v : list bool).

Definition np_all_axis0 (rows : list (list bool)) : ndarray :=
  match rows with
  | [] => Scalar true
  | r :: rows' => Vector (foldl (zip_with andb) r rows')
  end.

Definition np_invert (a : ndarray) : ndarray :=
  match a with
  | Scalar b => Scalar (negb b)
  | Vector v => Vector (negb <$> v)
  end.

(** The positions at which a mask is true. *)
Definition positions (v : list bool) : list nat :=
  (filter (λ p, p.2 = true) (zip (seq 0 (length v)) v)).*1.

(** [display_dataset(cond, description)]: the rows [self.docs.loc[cond]],
    given by their positions.  A single truth value is not a mask of rows:
    the lookup raises. *)
Definition display_dataset (cond : ndarray) (description : string)
    : result (string * list nat) :=
  match cond with
  | Vector v => Ok (description, positions v)
  | Scalar _ => Raise KeyError
  end.

(** The filters of "Display discarded documents by filter", in order. *)
Definition filters : list (string * string) :=
  [("number_words", "Discarded documents for the filter on the number of words");
   ("repetitions_ratio", "Discarded documents for the filter on the repetitions ratio");
   ("special_characters_ratio",
    "Discarded documents for the filter on the special characters ratio");
   ("stopwords_ratio", "Discarded documents for the filter on the stop words ratio");
   ("flagged_words_ratio", "Discarded documents for the filter on the flagged words ratio");
   ("lang_id_score",
    "Discarded documents for the filter on the language identification confidence score");
   ("perplexity_score", "Discarded documents for the filter on the perplexity score")].

(** What [filtering_of_docs] shows. *)
Record Page : Type := mkPage {
  captions : list cell;
  all_conds : ndarray;
  discarded : string * list nat;
  discarded_by_filter : list (string * list nat);
  retained : string * list nat
}.

(** Lines 330 and 331: [all_conds], from the conditions of [set_sliders]. *)
Definition admission (s : Sliders) : ndarray :=
  let all_conds := concat ((sl_conds s).*2) in
  np_all_axis0 all_conds.

Definition filtering_of_docs (F : Filtering) (w : Widgets) (self : Self)
    : result (Self * Page) :=
  s ← set_sliders F w self;
  let self := set_keys (sl_self s) (sl_keys s) (sl_keys s) in
  let conds := sl_conds s in
  let all_conds := admission s in
  discarded ← display_dataset (np_invert all_conds) "Discarded documents";
  by_filter ←
    (if w_display_discarded_documents_by_filter w then
       let columns := list_columns (frame_of self (docs self)) in
       traverse (λ f : string * string,
                   cond ← dict_get conds f.1;
                   display_dataset (np_invert (np_all_axis0 cond)) f.2)
         (filter (λ f, f.1 ∈ columns) filters)
     else Ok []);
  retained ← display_dataset all_conds "Retained documents";
  Ok (self, mkPage (sl_captions s) all_conds discarded by_filter retained).

(** ** analyse_personal_doc *)

Definition is_doc_discarded (key : Key) (score : Q) : bool :=
  if key_2 key
  then negb (Qle_bool score (key_1 key))
  else negb (Qle_bool (key_1 key) score).

(** [round(x, 3)]: to the nearest multiple of 1/1000, ties to even. *)
Definition round_half_even (q : Q) : Z :=
  let f := Qfloor q in
  match (q - inject_Z f ?= 1 # 2)%Q with
  | Lt => f
  | Gt => f + 1
  | Eq => if Z.even f then f else f + 1
  end.

Definition round3 (q : Q) : Q :=
  (inject_Z (round_half_even (q * 1000)) / 1000)%Q.

(** [int(s)] for a string of decimal digits. *)
Definition digit_of (c : ascii) : option Z :=
  let n := Z.of_nat (nat_of_ascii c) in
  if (48 <=? n) && (n <=? 57) then Some (n - 48) else None.

Fixpoint int_digits (acc : Z) (s : string) : result Z :=
  match s with
  | EmptyString => Ok acc
  | String c s' =>
      match digit_of c with
      | Some d => int_digits (10 * acc + d) s'
      | None => Raise ValueError
      end
  end.

Definition int_of_string (s : option string) : result Z :=
  match s with
  | Some (String c s') => int_digits 0 (String c s')
  | Some EmptyString => Raise ValueError
  | None => Raise IndexError
  end.

(** The local variables of [analyse_personal_doc] that outlive one turn of
    the loop: [flagged_words_ratio] is unbound until its branch has run. *)
Record Locals : Type := mkLocals {
  is_discarded : bool;
  flagged_words_ratio : option Q
}.

Definition discard_if (b : bool) (l : Locals) : Locals :=
  if b then mkLocals true (flagged_words_ratio l) else l.

(** Reading the local variable [flagged_words_ratio]. *)
Definition read_flagged_words_ratio (l : Locals) : result Q :=
  match flagged_words_ratio l with
  | Some v => Ok v
  | None => Raise UnboundLocalError
  end.

(** Body of [for key in self.keys]. *)
Definition analyse_key (F : Filtering) (self : Self) (personal_doc : string)
    (l : Locals) (key : Key) : result Locals :=
  if String.eqb (key_0 key) "number_words" then
    let words := get_words_from_document F personal_doc in
    Ok (discard_if (is_doc_discarded key (inject_Z (Z.of_nat (length words)))) l)
  else if String.eqb (key_0 key) "repetitions_ratio" then
    n ← int_of_string (key_3 key);
    let repetitions_ratio := compute_repetitions_ratio F personal_doc n in
    let repetitions_ratio := round3 repetitions_ratio in
    Ok (discard_if (is_doc_discarded key repetitions_ratio) l)
  else if String.eqb (key_0 key) "special_characters_ratio" then
    let special_characters_ratio := compute_special_characters_ratio F personal_doc in
    let special_characters_ratio := round3 special_characters_ratio in
    Ok (discard_if (is_doc_discarded key special_characters_ratio) l)
  else if String.eqb (key_0 key) "stopwords_ratio" then
    let stopwords_ratio := compute_stopwords_ratio F personal_doc (stopwords self) in
    let stopwords_ratio := round3 stopwords_ratio in
    Ok (discard_if (is_doc_discarded key stopwords_ratio) l)
  else if String.eqb (key_0 key) "flagged_words_ratio" then
    let flagged_words_ratio :=
      compute_flagged_words_ratio F personal_doc (flagged_words self) in
    let flagged_words_ratio := round3 flagged_words_ratio in
    let l := mkLocals (is_discarded l) (Some flagged_words_ratio) in
    Ok (discard_if (is_doc_discarded key flagged_words_ratio) l)
  else if String.eqb (key_0 key) "lang_id_score" then
    let '(lang_pred_dataset_id, lang_id_score) :=
      compute_lang_id_pred_score F personal_doc in
    let lang_id_score := round3 lang_id_score in
    flagged_words_ratio ← read_flagged_words_ratio l;
    Ok (discard_if (is_doc_discarded key flagged_words_ratio
                    || negb (String.eqb (lang_dataset_id self) lang_pred_dataset_id)) l)
  else if String.eqb (key_0 key) "perplexity_score" then
    let perplexity_score := compute_perplexity_score F personal_doc in
    let perplexity_score := round3 perplexity_score in
    Ok (discard_if (is_doc_discarded key perplexity_score) l)
  else Ok l.

(** [analyse_personal_doc]: [Some b] when the page says that the document
    is ([b = true]) or is not discarded, [None] when no document was
    pasted. *)
Definition analyse_personal_doc (F : Filtering) (w : Widgets) (self : Self)
    : result (option bool) :=
  let personal_doc := w_personal_doc w in
  let l := mkLocals false None in
  if bool_decide (personal_doc ≠ "") then
    l ← for_each (analyse_key F self personal_doc) (keys self) l;
    Ok (Some (is_discarded l))
  else Ok None.

(** [visualization]: the steps that touch the documents.  The word filter
    and the download buttons are left out. *)
Definition visualization (F : Filtering) (w : Widgets) (data : list (gmap string cell))
    (self : Self) : result (Self * Page * option bool) :=
  self ← open_data data self;
  '(self, page) ← filtering_of_docs F w self;
  verdict ← analyse_personal_doc F w self;
  Ok (self, page, verdict).

(** ** Definitions for the statements and the proofs *)

Definition docs_frame (self : Self) : frame := frame_of self (docs self).

(** The test of a rule on a column. *)
Definition rule_cond (col : list cell) (cutoff : Q) (max_cutoff : bool) : result (list bool) :=
  if max_cutoff then traverse (cell_le cutoff) col else traverse (cell_ge cutoff) col.

Definition key_cond (col : list cell) (k : Key) : result (list bool) :=
  rule_cond col (key_1 k) (key_2 k).

(** What a block leaves: the column [name] of [self.docs] (possibly
    rewritten), its keys, their conditions and captions. *)
Definition commit (name : string) (newcol : list cell) (ks : list Key) (s : Sliders)
    : result Sliders :=
  cs ← traverse (key_cond newcol) ks;
  Ok (mkSliders (setitem_docs (sl_self s) name newcol) (sl_keys s ++ ks)
        (dict_set (sl_conds s) name cs)
        (sl_captions s ++ (print_discared_by_cond <$> cs))).

Definition block_nf (columns : list string) (name : string)
    (core : Self → list cell → result (list cell * list Key)) (s : Sliders) : result Sliders :=
  if bool_decide (name ∈ columns) then
    col ← getitem (docs_frame (sl_self s)) name;
    r ← core (sl_self s) col;
    commit name r.1 r.2 s
  else Ok s.

Definition core_number_words (w : Widgets) (self : Self) (col : list cell)
    : result (list cell * list Key) :=
  m ← np_max col;
  i ← py_int m;
  let max_nb_words := i + 1 in
  Ok (col,
      [mkKey "number_words"
         (slider (w_min_number_words w) 0 (inject_Z (Z.min max_nb_words 500)) 0) false None;
       mkKey "number_words"
         (slider (w_max_number_words w) 0 (inject_Z max_nb_words) (inject_Z max_nb_words))
         true None]).

Definition selected_length (w : Widgets) (lengths : list string) : option string :=
  selectbox (w_repetitions_length w) lengths
    match list_find (λ n, n = "10") lengths with
    | Some (i, _) => i
    | None => 0%nat
    end.

Definition core_repetitions_ratio (w : Widgets) (self : Self) (col : list cell)
    : result (list cell * list Key) :=
  first ← iloc col 0;
  lengths ← dict_keys first;
  let repetitions_length := selected_length w lengths in
  checkpoint ← getitem (frame_of self (docs_checkpoint self)) "repetitions_ratio";
  newcol ← traverse (λ i, c ← iloc checkpoint i; subscript c repetitions_length)
             (seq 0 (length checkpoint));
  Ok (newcol,
      [mkKey "repetitions_ratio" (slider (w_repetitions_ratio w) 0 1 1) true
         repetitions_length]).

Definition core_special_characters_ratio (w : Widgets) (self : Self) (col : list cell)
    : result (list cell * list Key) :=
  Ok (col,
      [mkKey "special_characters_ratio" (slider (w_special_characters_ratio w) 0 1 1)
         true None]).

(** The column recomputed from the texts with a new lexicon. *)
Definition recomputed (compute : string → gset string → Q) (content : string)
    (self : Self) (name : string) : result (list cell) :=
  checkpoint ← getitem (frame_of self (docs_checkpoint self)) name;
  traverse (λ i, text ← text_of self i; Ok (Num (compute text (lexicon_of content))))
    (seq 0 (length checkpoint)).

Definition core_stopwords_ratio (F : Filtering) (w : Widgets) (self : Self) (col : list cell)
    : result (list cell * list Key) :=
  newcol ← match w_stopwords_file w with
           | Some content => recomputed (compute_stopwords_ratio F) content self "stopwords_ratio"
           | None => Ok col
           end;
  Ok (newcol, [mkKey "stopwords_ratio" (slider (w_stopwords_ratio w) 0 1 0) false None]).

Definition core_flagged_words_ratio (F : Filtering) (w : Widgets) (self : Self)
    (col : list cell) : result (list cell * list Key) :=
  newcol ← match w_flagged_words_file w with
           | Some content =>
               recomputed (compute_flagged_words_ratio F) content self "flagged_words_ratio"
           | None => Ok col
           end;
  Ok (newcol,
      [mkKey "flagged_words_ratio" (slider (w_flagged_words_ratio w) 0 1 1) true None]).

Definition core_lang_id_score (w : Widgets) (self : Self) (col : list cell)
    : result (list cell * list Key) :=
  Ok (col, [mkKey "lang_id_score" (slider (w_lang_id_score w) 0 1 0) false None]).

Definition core_perplexity_score (w : Widgets) (self : Self) (col : list cell)
    : result (list cell * list Key) :=
  m ← np_max col;
  i ← py_int m;
  let max_pp := i + 1 in
  Ok (col,
      [mkKey "perplexity_score"
         (slider (w_perplexity_score w) 0 (inject_Z max_pp) (inject_Z max_pp)) true None]).

Definition blocks (F : Filtering) (w : Widgets)
    : list (string * (Self → list cell → result (list cell * list Key))) :=
  [("number_words", core_number_words w);
   ("repetitions_ratio", core_repetitions_ratio w);
   ("special_characters_ratio", core_special_characters_ratio w);
   ("stopwords_ratio", core_stopwords_ratio F w);
   ("flagged_words_ratio", core_flagged_words_ratio F w);
   ("lang_id_score", core_lang_id_score w);
   ("perplexity_score", core_perplexity_score w)].

Definition run_blocks (columns : list string)
    (bs : list (string * (Self → list cell → result (list cell * list Key))))
    (s : Sliders) : result Sliders :=
  for_each (λ s b, block_nf columns b.1 b.2 s) bs s.

(** The condition of a key on the frame. *)
Definition frame_cond (df : frame) (k : Key) : result (list bool) :=
  col ← getitem df (key_0 k); key_cond col k.

(** After the blocks [done]: the keys and conditions belong to them, the
    conditions are those of the keys on the frame as it is now, and there
    is one caption for each condition. *)
Definition block_inv (done : list string) (s : Sliders) : Prop :=
  Forall (λ k, key_0 k ∈ done) (sl_keys s) ∧
  Forall (λ p, p.1 ∈ done) (sl_conds s) ∧
  traverse (frame_cond (docs_frame (sl_self s))) (sl_keys s)
    = Ok (concat (sl_conds s).*2) ∧
  sl_captions s = print_discared_by_cond <$> concat (sl_conds s).*2.

(** The keys of a block carry its name. *)
Definition names_keys (name : string)
    (core : Self → list cell → result (list cell * list Key)) : Prop :=
  ∀ self col newcol ks, core self col = Ok (newcol, ks) → Forall (λ k, key_0 k = name) ks.

(** The keys of the filter [name]. *)
Definition keys_named (name : string) (ks : list Key) : list Key :=
  filter (λ k, key_0 k = name) ks.

(** The entry of [conds] for a filter holds the conditions of its keys. *)
Definition conds_inv (s : Sliders) : Prop :=
  ∀ name cs, dict_get (sl_conds s) name = Ok cs →
    Forall2 (λ k row, frame_cond (docs_frame (sl_self s)) k = Ok row)
      (keys_named name (sl_keys s)) cs.

(** The value of the signal [name] for document [i]. *)
Definition value_at (df : frame) (name : string) (i : nat) : option cell :=
  col ← df !! name; col !! i.

(** Document [i] passes the rule [k]: its value is a number that is at most
    the cutoff of a max-cutoff rule, at least that of a min-cutoff rule. *)
Definition passes (df : frame) (i : nat) (k : Key) : bool :=
  match value_at df (key_0 k) i with
  | Some (Num v) => if key_2 k then Qle_bool v (key_1 k) else Qle_bool (key_1 k) v
  | _ => false
  end.

Definition and_at (i : nat) (acc : option bool) (row : list bool) : option bool :=
  b ← acc; b' ← row !! i; Some (b && b').

(** The caption for [failing] documents out of [n]. *)
Definition caption_of (failing n : nat) : cell :=
  match n with
  | O => NaN
  | S _ => Num (inject_Z (Z.of_nat failing) / inject_Z (Z.of_nat n) * 100)
  end.

(** The documents, among the first [n], that fail the rule [k] taken alone. *)
Definition failing (df : frame) (k : Key) (n : nat) : list nat :=
  filter (λ i, passes df i k = false) (seq 0 n).

(** Two states that differ at most in the column [X], its condition and
    the captions. *)
Definition agree_off (X : string) (s s' : Sliders) : Prop :=
  docs (sl_self s) = docs_checkpoint (sl_self s) ∧
  docs (sl_self s') = docs_checkpoint (sl_self s') ∧
  (∀ c, c ≠ X → docs_frame (sl_self s) !! c = docs_frame (sl_self s') !! c) ∧
  sl_keys s = sl_keys s' ∧
  ∀ n, n ≠ X → dict_get (sl_conds s) n = dict_get (sl_conds s') n.

(** A core that does not look at the column [X]. *)
Definition core_local (X : string)
    (core : Self → list cell → result (list cell * list Key)) : Prop :=
  ∀ self self' col,
    docs self = docs_checkpoint self → docs self' = docs_checkpoint self' →
    (∀ c, c ≠ X → docs_frame self !! c = docs_frame self' !! c) →
    core self col = core self' col.

(** Every row has a text. *)
Definition has_texts (df : frame) (name : string) (texts : list string) : Prop :=
  df !! "text" = Some (Str <$> texts) ∧
  ∀ col, df !! name = Some col → (length col ≤ length texts)%nat.

(** What a swap of the lexicon of the column [X] leaves as it was: the
    keys, every other column, the tests, conditions and captions of every
    other filter; and what it recomputes: the column [X], from the texts. *)
Definition swapped (X : string) (compute : string → gset string → Q) (content : string)
    (texts : list string) (self : Self) (s s' : Sliders) : Prop :=
  sl_keys s' = sl_keys s ∧
  (∀ c, c ≠ X → docs_frame (sl_self s') !! c = docs_frame (sl_self s) !! c) ∧
  (∀ i k, key_0 k ≠ X →
     passes (docs_frame (sl_self s')) i k = passes (docs_frame (sl_self s)) i k) ∧
  (∀ n, n ≠ X → dict_get (sl_conds s') n = dict_get (sl_conds s) n) ∧
  (∀ j k, sl_keys s !! j = Some k → key_0 k ≠ X →
     sl_captions s' !! j = sl_captions s !! j) ∧
  (∀ col, docs_frame self !! X = Some col →
     docs_frame (sl_self s') !! X
     = Some ((λ t, Num (compute t (lexicon_of content))) <$> take (length col) texts)).

(** A number or a missing value. *)
Definition numeric (c : cell) : Prop :=
  match c with
  | Num _ | NaN => True
  | _ => False
  end.

Definition is_Num (c : cell) : Prop :=
  match c with
  | Num _ => True
  | _ => False
  end.

(** Data that the sliders can work on: one frame under both names; numbers
    (or missing values) in the columns of the six plain signals, with at
    least one number where a maximum is taken; in the repetitions column,
    dictionaries that all have the selected length; and a text for every
    row when a lexicon has been uploaded. *)
Definition well_formed (w : Widgets) (self : Self) : Prop :=
  let df := docs_frame self in
  docs self = docs_checkpoint self ∧
  (∀ name col,
     name ∈ ["number_words"; "special_characters_ratio"; "stopwords_ratio";
             "flagged_words_ratio"; "lang_id_score"; "perplexity_score"] →
     df !! name = Some col → Forall numeric col) ∧
  (∀ name col, name ∈ ["number_words"; "perplexity_score"] →
     df !! name = Some col → Exists is_Num col) ∧
  (∀ col, df !! "repetitions_ratio" = Some col →
     ∃ d0 rest, col = Dict d0 :: rest ∧
       Forall (λ c, ∃ d v, c = Dict d ∧
                 subscript (Dict d) (selected_length w d0.*1) = Ok (Num v)) col) ∧
  (is_Some (w_stopwords_file w) → ∃ texts, has_texts df "stopwords_ratio" texts) ∧
  (is_Some (w_flagged_words_file w) → ∃ texts, has_texts df "flagged_words_ratio" texts).

(** The core of a block succeeds on a state whose column [name] and texts
    are those of the frame [df0]. *)
Definition core_succeeds (df0 : frame) (name : string)
    (core : Self → list cell → result (list cell * list Key)) : Prop :=
  ∀ t col,
    docs t = docs_checkpoint t →
    docs_frame t !! "text" = df0 !! "text" →
    df0 !! name = Some col → docs_frame t !! name = Some col →
    ∃ newcol ks cs, core t col = Ok (newcol, ks) ∧ traverse (key_cond newcol) ks = Ok cs.

(** ** plot_hist *)

(** The values of a column as numpy has them; [None] is [nan]. *)
Definition float_of (c : cell) : result (option Q) :=
  match c with
  | Num q => Ok (Some q)
  | NaN => Ok None
  | _ => Raise TypeError
  end.

Fixpoint insert_sorted (x : Q) (l : list Q) : list Q :=
  match l with
  | [] => [x]
  | y :: l' => if Qle_bool x y then x :: y :: l' else y :: insert_sorted x l'
  end.

Definition np_sort (l : list Q) : list Q := foldr insert_sorted [] l.

(** [np.median(val)]: [nan] for an array that is empty or holds a [nan],
    else the middle of the sorted values, the mean of the two middle ones
    when their number is even. *)
Definition np_median (val : list (option Q)) : option Q :=
  qs ← mapM id val;
  let s := np_sort qs in
  let n := length s in
  if Nat.even n
  then a ← s !! (n / 2 - 1)%nat; b ← s !! (n / 2)%nat; Some ((a + b) / 2)%Q
  else s !! (n / 2)%nat.

(** [a < b] and [m != 0] on floats: a comparison with [nan] is false, and
    [nan] differs from everything. *)
Definition float_lt (a b : option Q) : bool :=
  match a, b with
  | Some x, Some y => negb (Qle_bool y x)
  | _, _ => false
  end.

Definition float_ne_0 (m : option Q) : bool :=
  match m with
  | Some x => negb (Qeq_bool x 0)
  | None => true
  end.

(** What is drawn: the values given to [ax.hist], the title, and the
    position of the dashed line. *)
Record Figure : Type := mkFigure {
  hist : list (option Q);
  title : string;
  axvline : Q
}.

(** [plot_hist(dataframe, key)]; [checkbox] is the state of the box
    "Diplay distribution" of that key. *)
Definition plot_hist (checkbox : bool) (dataframe : frame) (key : Key)
    : result (option Figure) :=
  if checkbox then
    col ← getitem dataframe (key_0 key);
    val ← traverse float_of col;
    let val :=
      if float_ne_0 (np_median val) then
        let deviation := (λ v, x ← v; m ← np_median val; Some (Qabs (x - m))) <$> val in
        let bound := m ← np_median deviation; Some (9 * m)%Q in
        (filter (λ p, float_lt p.2 bound = true) (zip val deviation)).*1
      else val in
    Ok (Some (mkFigure val (String.concat " " (split_on "_" (key_0 key))) (key_1 key)))
  else Ok None.

(** ** filtering_of_words *)

(** The widgets of the word filter: the slider of the word length and the
    box "Remove words with incorrect substrings". *)
Record WordWidgets : Type := mkWordWidgets {
  w_cutoff_word : option Q;
  w_incorrect_substrings : bool
}.

(** An entry of [self.parameters]: a rule, or the pair
    [("incorrect_substrings", value)]. *)
Inductive parameter : Type :=
  | Rule (k : Key)
  | Flag (name : string) (value : bool).

(** What [filtering_of_words] shows: the words [self.words.loc[...]] of the
    two tables, given by their positions. *)
Record WordsPage : Type := mkWordsPage {
  discarded_words : list nat;
  retained_words : list nat
}.

(** [self.words[name]]: the data frame of an empty list of words has no
    column. *)
Definition words_getitem {A : Type} (ws : list Word) (field : Word → A) : result (list A) :=
  match ws with
  | [] => Raise KeyError
  | _ :: _ => Ok (field <$> ws)
  end.

(** [int(np.max(col))] for a column of integers. *)
Definition np_max_int (col : list Z) : result Z :=
  match col with
  | [] => Raise ValueError
  | x :: col' => Ok (foldl Z.max x col')
  end.

(** [filtering_of_words]: the list that [self.parameters] holds after the
    call, and what is shown; the histogram is left out. *)
Definition filtering_of_words (ww : WordWidgets) (self : Self)
    : result (list parameter * option WordsPage) :=
  let parameters := Rule <$> parameters self in
  match words self with
  | Some ws =>
      col ← words_getitem ws len_word;
      m ← np_max_int col;
      let max_len_word := Z.min (m + 1) 200 in
      let cutoff_word :=
        slider (w_cutoff_word ww) 0 (inject_Z max_len_word) (inject_Z max_len_word) in
      let new_key := mkKey "len_word" cutoff_word true None in
      let parameters := parameters ++ [Rule new_key] in
      let incorrect_substrings := w_incorrect_substrings ww in
      let parameters := parameters ++ [Flag "incorrect_substrings" incorrect_substrings] in
      col ← words_getitem ws len_word;
      let cond_words := (λ l, Qle_bool (inject_Z l) cutoff_word) <$> col in
      cond_words ← (if incorrect_substrings
                    then inc ← words_getitem ws incorrect_substring;
                         Ok (zip_with andb cond_words (negb <$> inc))
                    else Ok cond_words);
      let discarded_words := positions (negb <$> cond_words) in
      let retained_words := positions cond_words in
      Ok (parameters, Some (mkWordsPage discarded_words retained_words))
  | None => Ok (parameters, None)
  end.

(** ** Definitions for the statements of the further properties *)

(** The names and directions of the rules of [set_sliders], in its order:
    [true] for a maximum. *)
Definition rules : list (string * bool) :=
  [("number_words", false); ("number_words", true); ("repetitions_ratio", true);
   ("special_characters_ratio", true); ("stopwords_ratio", false);
   ("flagged_words_ratio", true); ("lang_id_score", false); ("perplexity_score", true)].

(** The name and the direction of a rule. *)
Definition shape_of (k : Key) : string * bool := (key_0 k, key_2 k).

(** A block that leaves its column as it is. *)
Definition keeps_column (core : Self → list cell → result (list cell * list Key)) : Prop :=
  ∀ self col newcol ks, core self col = Ok (newcol, ks) → newcol = col.

(** A string with every underscore replaced by a space. *)
Fixpoint spaced (s : string) : string :=
  match s with
  | EmptyString => EmptyString
  | String c s' => String (if Ascii.eqb c "_" then " "%char else c) (spaced s')
  end.

(** The word at position [i] is kept by the word filter with the cutoff
    [cutoff], and with the words with incorrect substrings removed when
    [strict] is set. *)
Definition keeps_word (ws : list Word) (cutoff : Q) (strict : bool) (i : nat) : Prop :=
  ∃ wd, ws !! i = Some wd ∧ (inject_Z (len_word wd) <= cutoff)%Q ∧
        (strict = true → incorrect_substring wd = false).

(** A text of ASCII characters: every character is one [ascii] of the
    string, below 128. *)
Fixpoint ascii_text (s : string) : bool :=
  match s with
  | EmptyString => true
  | String c s' => (nat_of_ascii c <? 128)%nat && ascii_text s'
  end.

(** The columns from whose greatest value a slider gets its range hold a
    value that is not negative: the range, from 0 to the integer above the
    greatest value, is one that [st.slider] takes. *)
Definition slider_ranges (self : Self) : Prop :=
  ∀ name col, name ∈ ["number_words"; "perplexity_score"] →
    docs_frame self !! name = Some col →
    Exists (λ c, ∃ q, c = Num q ∧ (0 <= q)%Q) col.

(** A core that keeps the number of rows of its column. *)
Definition keeps_length (name : string)
    (core : Self → list cell → result (list cell * list Key)) : Prop :=
  ∀ self col newcol ks,
    docs self = docs_checkpoint self → docs_frame self !! name = Some col →
    core self col = Ok (newcol, ks) → length newcol = length col.

End Visualization.

(** * Sample data for the examples *)

Module Example.
Import Visualization.

(** A stand-in for [filtering.py]: words are separated by spaces, a ratio
    is the share of the words that are in the lexicon, and the models
    answer with constants.  The language identifier says "en" with
    confidence 0.2; six words out of ten are flagged. *)
Definition ratio_in (text : string) (lexicon : gset string) : Q :=
  let ws := split_on " " text in
  (inject_Z (Z.of_nat (length (filter (λ w, w ∈ lexicon) ws)))
   / inject_Z (Z.of_nat (length ws)))%Q.

Definition F : Filtering :=
  mkFiltering (split_on " ") (λ _ _, 0%Q) (λ _, 0%Q) ratio_in (λ _ _, (6 # 10)%Q)
    (λ _, ("en", (2 # 10)%Q)) (λ _, 300%Q).

Definition doc_a : gmap string cell :=
  list_to_map
    [("text", Str "the the cat"); ("number_words", Num 3);
     ("repetitions_ratio", Dict [("5", (1 # 10)%Q); ("10", (2 # 10)%Q)]);
     ("stopwords_ratio", Num (1 # 2)); ("flagged_words_ratio", Num 0);
     ("lang_id_score", Num (9 # 10))].

Definition doc_b : gmap string cell :=
  list_to_map
    [("text", Str "a much longer text about the cat and the dog"); ("number_words", Num 50);
     ("repetitions_ratio", Dict [("5", (3 # 10)%Q); ("10", (4 # 10)%Q)]);
     ("stopwords_ratio", Num (1 # 4)); ("flagged_words_ratio", Num (1 # 5));
     ("lang_id_score", Num (5 # 10))].

Definition data : list (gmap string cell) := [doc_a; doc_b].

(** The object before [open_data]. *)
Definition self0 : Self := mkSelf "en" 100 ∅ ∅ 100 100 [] 0 0 None [] [].

(** Nothing chosen, no file, no document pasted. *)
Definition w0 : Widgets :=
  mkWidgets None None None None None None None None None None None false "".

(** At least 10 words. *)
Definition w_min10 : Widgets :=
  mkWidgets (Some 10%Q) None None None None None None None None None None false "".

(** The same, with the discarded documents shown filter by filter. *)
Definition w_min10_shown : Widgets :=
  mkWidgets (Some 10%Q) None None None None None None None None None None true "".

(** Repetition length 10, repetition length 5. *)
Definition w_len10 : Widgets :=
  mkWidgets None None (Some "10") None None None None None None None None false "".

Definition w_len5 : Widgets :=
  mkWidgets None None (Some "5") None None None None None None None None false "".

(** A language-identification cutoff of 0.5 and a pasted document. *)
Definition w_probe : Widgets :=
  mkWidgets None None None None None None None None None (Some (1 # 2)%Q) None false
    "some text".

(** Data with the flagged-words ratio and the language-identification
    score as its signals. *)
Definition data_probe : list (gmap string cell) :=
  [list_to_map [("text", Str "the the cat"); ("flagged_words_ratio", Num 0);
                ("lang_id_score", Num (9 # 10))]].

(** Data with the language-identification score as its only signal. *)
Definition data_lang_only : list (gmap string cell) :=
  [list_to_map [("text", Str "the the cat"); ("lang_id_score", Num (9 # 10))]].

(** The object after [open_data] on [data]. *)
Definition self1 : Self :=
  match open_data data self0 with
  | Ok self => self
  | Raise _ => self0
  end.

(** The sliders on [self1], with at least 10 words asked for. *)
Definition sliders1 : Sliders :=
  match set_sliders F w_min10 self1 with
  | Ok s => s
  | Raise _ => mkSliders self1 [] [] []
  end.

(** The sliders on [self1] with nothing chosen. *)
Definition sliders0 : Sliders :=
  match set_sliders F w0 self1 with
  | Ok s => s
  | Raise _ => mkSliders self1 [] [] []
  end.

(** The object after [filtering_of_docs] with the repetition length 10. *)
Definition self2 : Self :=
  match filtering_of_docs F w_len10 self1 with
  | Ok (self, _) => self
  | Raise _ => self1
  end.
(** The sample with the words of each document, and the object after
    [open_data] on it. *)
Definition data_words : list (gmap string cell) :=
  [<["words" := Words [mkWord "the" 3 false; mkWord "the" 3 false; mkWord "cat" 3 false]]> doc_a;
   <["words" := Words [mkWord "a" 1 false; mkWord "muuuuuch" 8 true]]> doc_b].

Definition self_words : Self :=
  match open_data data_words self0 with
  | Ok self => self
  | Raise _ => self0
  end.

(** A file whose documents have a text and no signal, and the object after
    [open_data] on it. *)
Definition data_text_only : list (gmap string cell) :=
  [list_to_map [("text", Str "the the cat")]].

Definition self_text_only : Self :=
  match open_data data_text_only self0 with
  | Ok self => self
  | Raise _ => self0
  end.

(** The figure drawn for the minimal number of words on [self1]. *)
Definition figure_number_words : Figure :=
  match plot_hist true (docs_frame self1) (mkKey "number_words" 10 false None) with
  | Ok (Some fig) => fig
  | _ => mkFigure [] "" 0
  end.

End Example.

Section finalise_properties.
Import Finalise.

Lemma tuple_lt_spec a b :
  tuple_lt a b = true ↔ a.1 < b.1 ∨ (a.1 = b.1 ∧ (a.2 < b.2)%nat).
Proof.
  unfold tuple_lt.
  rewrite orb_true_iff, andb_true_iff, Z.ltb_lt, Z.eqb_eq, Nat.ltb_lt. reflexivity.
Qed.

Lemma tuple_lt_false a b :
  tuple_lt a b = false ↔ b.1 < a.1 ∨ (a.1 = b.1 ∧ (b.2 ≤ a.2)%nat).
Proof. rewrite <- not_true_iff_false, tuple_lt_spec. lia. Qed.

Ltac tuple_cases :=
  repeat match goal with
  | H : tuple_lt _ _ = true |- _ => apply tuple_lt_spec in H; simpl in H
  | H : tuple_lt _ _ = false |- _ => apply tuple_lt_false in H; simpl in H
  end;
  try (apply tuple_lt_false; simpl);
  first [reflexivity | lia | exfalso; lia | f_equal; lia].

Lemma py_max_comm a b : py_max a b = py_max b a.
Proof.
  destruct a as [ta ia], b as [tb ib]. unfold py_max.
  destruct (tuple_lt (ta, ia) (tb, ib)) eqn:?, (tuple_lt (tb, ib) (ta, ia)) eqn:?; tuple_cases.
Qed.

Lemma py_max_left_comm a b c : py_max a (py_max b c) = py_max b (py_max a c).
Proof.
  destruct a as [ta ia], b as [tb ib], c as [tc ic]. unfold py_max.
  destruct (tuple_lt (tb, ib) (tc, ic)) eqn:?, (tuple_lt (ta, ia) (tc, ic)) eqn:?;
  repeat match goal with
  | |- context [tuple_lt ?x ?y] => destruct (tuple_lt x y) eqn:?
  end; tuple_cases.
Qed.

Lemma py_max_fst a b : (py_max a b).1 = Z.max a.1 b.1.
Proof.
  destruct a as [ta ia], b as [tb ib]. unfold py_max.
  destruct (tuple_lt (ta, ia) (tb, ib)) eqn:E; simpl;
    [apply tuple_lt_spec in E | apply tuple_lt_false in E]; simpl in E; lia.
Qed.

Lemma py_max_cases a b : py_max a b = a ∨ py_max a b = b.
Proof. unfold py_max. destruct (tuple_lt a b); auto. Qed.

Lemma pair_of_entry_of p : pair_of (entry_of p) = p.
Proof. by destruct p. Qed.

Lemma index_body_eq idx data :
  index_body idx data =
  (i ← getitem_id data; Ok (<[url data := entry_of (merged idx data i)]> idx)).
Proof.
  unfold index_body, merged. destruct (getitem_id data) as [i|e]; [|reflexivity].
  change (Ok i ≫= ?f) with (f i). cbv beta.
  destruct (idx !! url data) as [[oi ot]|]; simpl; [|reflexivity].
  unfold pair_of; simpl. destruct (py_max _ _); reflexivity.
Qed.

Lemma index_body_comm idx x y :
  (i ← index_body idx x; index_body i y) = (i ← index_body idx y; index_body i x).
Proof.
  rewrite (index_body_eq idx x), (index_body_eq idx y).
  destruct (getitem_id x) as [ix|ex] eqn:Ex, (getitem_id y) as [iy|ey] eqn:Ey.
  all: cbn [mbind result_mbind result_bind].
  all: rewrite ?index_body_eq, ?Ex, ?Ey.
  all: cbn [mbind result_mbind result_bind].
  - f_equal. unfold merged.
    destruct (decide (url x = url y)) as [E|N].
    + rewrite E, !lookup_insert_eq, !insert_insert_eq. f_equal. f_equal. simpl.
      rewrite !pair_of_entry_of.
      destruct (idx !! url y) as [old|]; simpl.
      * apply py_max_left_comm.
      * apply py_max_comm.
    + rewrite !lookup_insert_ne by congruence.
      apply insert_insert_ne. congruence.
  - reflexivity.
  - unfold getitem_id in *. destruct (id_ x), (id_ y); congruence.
  - unfold getitem_id in *. destruct (id_ x), (id_ y); congruence.
Qed.

Lemma for_each_index_permutation ds1 ds2 :
  ds1 ≡ₚ ds2 → ∀ idx, for_each index_body ds1 idx = for_each index_body ds2 idx.
Proof.
  induction 1 as [|x l1 l2 _ IH|x y l|l1 l2 l3 _ IH1 _ IH2]; intros idx.
  - reflexivity.
  - simpl. destruct (index_body idx x); cbn [mbind result_mbind result_bind]; auto.
  - pose proof (index_body_comm idx y x) as Hc. simpl.
    destruct (index_body idx y) as [iy|ey], (index_body idx x) as [ix|ex];
      cbn [mbind result_mbind result_bind] in *.
    + destruct (index_body iy x), (index_body ix y);
        cbn [mbind result_mbind result_bind]; congruence.
    + destruct (index_body iy x); cbn [mbind result_mbind result_bind]; congruence.
    + destruct (index_body ix y); cbn [mbind result_mbind result_bind]; congruence.
    + congruence.
  - rewrite IH1. apply IH2.
Qed.

Lemma ds_map_from_assign_id batch_size offset ds :
  ds_map_from assign_id batch_size offset ds = zip_with set_id ds (seq offset (length ds)).
Proof.
  funelim (ds_map_from assign_id batch_size offset ds).
  - reflexivity.
  - reflexivity.
  - rewrite H. unfold assign_id.
    rewrite <- (take_drop (S b) (data :: ds)) at 5 6.
    rewrite length_app, seq_app, zip_with_app by (by rewrite length_seq).
    rewrite length_take, length_drop. simpl length.
    destruct (decide (S b ≤ S (length ds))%nat) as [Hle|Hgt].
    + by rewrite (Nat.min_l _ _ Hle).
    + by replace (S (length ds) - S b)%nat with 0%nat by lia.
Qed.

Lemma ds_map_assign_id ds :
  ds_map assign_id ds = zip_with set_id ds (seq 0 (length ds)).
Proof. apply ds_map_from_assign_id. Qed.

(** *** What the index holds *)

Lemma index_body_Ok idx data i :
  id_ data = Some i →
  index_body idx data = Ok (<[url data := entry_of (merged idx data i)]> idx).
Proof. intros Hi. rewrite index_body_eq. unfold getitem_id. by rewrite Hi. Qed.

Lemma index_body_inv idx data idx' :
  index_body idx data = Ok idx' →
  ∃ i, id_ data = Some i ∧ idx' = <[url data := entry_of (merged idx data i)]> idx.
Proof.
  rewrite index_body_eq. unfold getitem_id.
  destruct (id_ data) as [i|]; [|discriminate].
  cbn [mbind result_mbind result_bind]. intros [= <-]. eauto.
Qed.

Lemma for_each_index_Ok ds :
  (∀ r, r ∈ ds → is_Some (id_ r)) →
  ∀ idx, ∃ idx', for_each index_body ds idx = Ok idx'.
Proof.
  induction ds as [|x ds IH]; intros Hid idx; simpl; [eauto|].
  destruct (Hid x) as [i Hi]; [left|].
  rewrite (index_body_Ok _ _ _ Hi). cbn [mbind result_mbind result_bind].
  apply IH. intros r Hr. apply Hid. by right.
Qed.

Lemma merged_cases idx data i :
  merged idx data i = (fetch_time data, i) ∨
  ∃ old, idx !! url data = Some old ∧ merged idx data i = pair_of old.
Proof.
  unfold merged. destruct (idx !! url data) as [old|]; simpl; [|by left].
  destruct (py_max_cases (fetch_time data, i) (pair_of old)) as [->| ->]; eauto.
Qed.

(** Every entry of the index comes from a record of [ds] (or was there). *)
Lemma for_each_index_entry ds :
  ∀ idx idx', for_each index_body ds idx = Ok idx' →
  ∀ u i t, idx' !! u = Some (i, t) →
    idx !! u = Some (i, t) ∨
    ∃ r, r ∈ ds ∧ url r = u ∧ id_ r = Some i ∧ fetch_time r = t.
Proof.
  induction ds as [|x ds IH]; intros idx idx' Hrun u i t Hu; simpl in Hrun.
  - injection Hrun as <-. by left.
  - destruct (index_body idx x) as [idx1|e] eqn:Hx; [|discriminate].
    cbn [mbind result_mbind result_bind] in Hrun.
    destruct (IH _ _ Hrun _ _ _ Hu) as [H1|(r & Hr & ?)].
    + apply index_body_inv in Hx as (ix & Hix & ->).
      destruct (decide (url x = u)) as [<-|Hne].
      * rewrite lookup_insert_eq in H1.
        assert (entry_of (merged idx x ix) = (i, t)) as H2 by congruence.
        destruct (merged_cases idx x ix) as [Hm|(old & Hold & Hm)]; rewrite Hm in H2.
        -- right. exists x. unfold entry_of in H2; simpl in H2.
           split_and!; [left|done|congruence|congruence].
        -- left. rewrite Hold. f_equal. destruct old. unfold entry_of, pair_of in H2.
           simpl in H2. done.
      * rewrite lookup_insert_ne in H1 by done. by left.
    + right. exists r. split; [by right|done].
Qed.

(** The urls of the index are the urls of the records (and those there). *)
Lemma for_each_index_dom ds :
  ∀ idx idx', for_each index_body ds idx = Ok idx' →
  ∀ u, is_Some (idx' !! u) ↔ is_Some (idx !! u) ∨ ∃ r, r ∈ ds ∧ url r = u.
Proof.
  induction ds as [|x ds IH]; intros idx idx' Hrun u; simpl in Hrun.
  - injection Hrun as <-. split; [auto|]. intros [?|(r & Hr & _)]; [done|].
    by apply elem_of_nil in Hr.
  - destruct (index_body idx x) as [idx1|e] eqn:Hx; [|discriminate].
    cbn [mbind result_mbind result_bind] in Hrun.
    rewrite (IH _ _ Hrun u).
    apply index_body_inv in Hx as (ix & Hix & ->).
    rewrite lookup_insert_is_Some. split.
    + intros [[Heq|[_ ?]]|(r & Hr & ?)]; auto.
      * right. exists x. split; [left|done].
      * right. exists r. split; [by right|done].
    + intros [?|(r & Hr & Hur)].
      * left. destruct (decide (url x = u)); auto.
      * apply elem_of_cons in Hr as [->|Hr]; [by left; left|].
        right. eauto.
Qed.

(** The entry of a url is the greatest pair of the records with that url. *)
Lemma for_each_index_greatest ds :
  ∀ idx idx', for_each index_body ds idx = Ok idx' →
  ∀ u i t, idx' !! u = Some (i, t) →
    (∀ old, idx !! u = Some old → tuple_lt (t, i) (pair_of old) = false) ∧
    (∀ r ir, r ∈ ds → url r = u → id_ r = Some ir →
       tuple_lt (t, i) (fetch_time r, ir) = false).
Proof.
  induction ds as [|x ds IH]; intros idx idx' Hrun u i t Hu; simpl in Hrun.
  - injection Hrun as <-. split.
    + intros old Hold. rewrite Hu in Hold. injection Hold as <-.
      apply tuple_lt_false. simpl. lia.
    + intros r ir Hr. by apply elem_of_nil in Hr.
  - destruct (index_body idx x) as [idx1|e] eqn:Hx; [|discriminate].
    cbn [mbind result_mbind result_bind] in Hrun.
    destruct (IH _ _ Hrun _ _ _ Hu) as [Hold Hrec].
    apply index_body_inv in Hx as (ix & Hix & ->).
    destruct (decide (url x = u)) as [<-|Hne].
    + specialize (Hold _ (lookup_insert_eq _ _ _)).
      rewrite pair_of_entry_of in Hold. unfold merged in Hold.
      split.
      * intros old Ho. rewrite Ho in Hold. simpl in Hold.
        destruct old as [oi ot]. unfold pair_of, py_max in *. simpl in *.
        destruct (tuple_lt (fetch_time x, ix) (ot, oi)) eqn:E; tuple_cases.
      * intros r ir Hr Hur Hir.
        apply elem_of_cons in Hr as [->|Hr]; [|eauto].
        assert (ir = ix) as -> by congruence.
        destruct (idx !! url x) as [[oi ot]|]; simpl in Hold; [|done].
        unfold pair_of, py_max in *. simpl in *.
        destruct (tuple_lt (fetch_time x, ix) (ot, oi)) eqn:E; tuple_cases.
    + split.
      * intros old Ho. apply Hold. by rewrite lookup_insert_ne.
      * intros r ir Hr Hur Hir.
        apply elem_of_cons in Hr as [->|Hr]; [done|eauto].
Qed.

(** *** The fetch times of the index do not depend on the ids *)

Lemma index_body_ts idx data idx' :
  index_body idx data = Ok idx' →
  snd <$> idx' = ts_body (snd <$> idx) (key_of data).
Proof.
  intros (i & Hi & ->)%index_body_inv.
  rewrite fmap_insert. unfold ts_body, key_of, merged. simpl.
  rewrite lookup_fmap. f_equal.
  destruct (idx !! url data) as [[oi ot]|]; simpl; [|reflexivity].
  apply py_max_fst.
Qed.

Lemma ts_body_comm m p q : ts_body (ts_body m p) q = ts_body (ts_body m q) p.
Proof.
  unfold ts_body. destruct (decide (p.1 = q.1)) as [E|N].
  - rewrite E, !lookup_insert_eq, !insert_insert_eq. f_equal.
    destruct (m !! q.1); simpl; lia.
  - rewrite !lookup_insert_ne by congruence. apply insert_insert_ne. congruence.
Qed.

Lemma foldl_ts_permutation l1 l2 :
  l1 ≡ₚ l2 → ∀ m, foldl ts_body m l1 = foldl ts_body m l2.
Proof.
  induction 1 as [|x l1 l2 _ IH|x y l|l1 l2 l3 _ IH1 _ IH2]; intros m; simpl.
  - reflexivity.
  - apply IH.
  - by rewrite ts_body_comm.
  - rewrite IH1. apply IH2.
Qed.

Lemma for_each_index_ts ds :
  ∀ idx idx', for_each index_body ds idx = Ok idx' →
  snd <$> idx' = foldl ts_body (snd <$> idx) (key_of <$> ds).
Proof.
  induction ds as [|x ds IH]; intros idx idx' Hrun; simpl in Hrun.
  - by injection Hrun as <-.
  - destruct (index_body idx x) as [idx1|e] eqn:Hx; [|discriminate].
    cbn [mbind result_mbind result_bind] in Hrun.
    rewrite (IH _ _ Hrun). simpl. by rewrite (index_body_ts _ _ _ Hx).
Qed.

(** *** The positional ids *)

Lemma assigned_lookup ds offset k :
  zip_with set_id ds (seq offset (length ds)) !! k
  = (λ data, set_id data (offset + k)) <$> ds !! k.
Proof.
  rewrite lookup_zip_with.
  destruct (ds !! k) as [data|] eqn:Hk; simpl; [|reflexivity].
  apply lookup_lt_Some in Hk. by rewrite lookup_seq_lt.
Qed.

Lemma assigned_ids ds offset :
  id_ <$> zip_with set_id ds (seq offset (length ds)) = Some <$> seq offset (length ds).
Proof.
  apply list_eq. intros k. rewrite !list_lookup_fmap, assigned_lookup.
  destruct (ds !! k) as [data|] eqn:Hk; simpl.
  - apply lookup_lt_Some in Hk. by rewrite lookup_seq_lt.
  - apply lookup_ge_None in Hk. by rewrite (proj2 (lookup_ge_None _ _)) by (by rewrite length_seq).
Qed.

Lemma assigned_keys ds offset :
  key_of <$> zip_with set_id ds (seq offset (length ds)) = key_of <$> ds.
Proof.
  apply list_eq. intros k. rewrite !list_lookup_fmap, assigned_lookup.
  by destruct (ds !! k).
Qed.

Lemma assigned_has_id ds offset r :
  r ∈ zip_with set_id ds (seq offset (length ds)) → is_Some (id_ r).
Proof.
  intros (k & Hk)%list_elem_of_lookup. rewrite assigned_lookup in Hk.
  destruct (ds !! k); simplify_eq/=. eauto.
Qed.

Lemma concat_permutation (l1 l2 : list (list Row)) :
  l1 ≡ₚ l2 → concat l1 ≡ₚ concat l2.
Proof.
  induction 1 as [|x l1 l2 _ IH|x y l|l1 l2 l3 _ IH1 _ IH2]; simpl.
  - reflexivity.
  - by rewrite IH.
  - rewrite !(assoc_L (++)). by rewrite (comm (++) y x).
  - by rewrite IH1.
Qed.

Lemma canonical_index_Ok datasets : ∃ idx, canonical_index datasets = Ok idx.
Proof.
  unfold canonical_index, build_index. apply for_each_index_Ok.
  intros r. rewrite ds_map_assign_id. apply assigned_has_id.
Qed.

Lemma canonical_index_ts datasets idx :
  canonical_index datasets = Ok idx →
  snd <$> idx = foldl ts_body ∅ (key_of <$> concat datasets).
Proof.
  unfold canonical_index, build_index. intros H%for_each_index_ts.
  by rewrite H, fmap_empty, ds_map_assign_id, assigned_keys.
Qed.

Lemma consolidate_eq datasets :
  consolidate datasets =
  Ok (zip_with set_id (concat datasets) (seq 0 (length (concat datasets)))).
Proof.
  destruct (canonical_index_Ok datasets) as [idx Hidx].
  unfold consolidate, compute_external_ids_. unfold canonical_index in Hidx.
  rewrite Hidx. cbn [mbind result_mbind result_bind].
  by rewrite ds_map_assign_id.
Qed.

Lemma consolidate_lookup datasets out k :
  consolidate datasets = Ok out →
  out !! k = (λ data, set_id data k) <$> concat datasets !! k.
Proof.
  rewrite consolidate_eq. intros [= <-]. by rewrite assigned_lookup.
Qed.

(** ** Consolidation: the claims *)

(** C3, counterexample.  Two one-record shards in the two possible orders:
    the shard sequences are permutations of each other, yet the url-to-id
    index of the full consolidation differs, because ids are positions in
    the concatenation. *)
Lemma C3_shard_order_changes_ids :
  let a := mkRow "u1" 10 [] None None in
  let b := mkRow "u2" 5 [] None None in
  [[a]; [b]] ≡ₚ [[b]; [a]] ∧ url_to_id [[a]; [b]] ≠ url_to_id [[b]; [a]].
Proof.
  split; [apply perm_swap|].
  intros H.
  assert (∀ r1 r2 : result (gmap string nat), r1 = r2 →
            (r1 ≫= λ m, Ok (m !! "u1")) = (r2 ≫= λ m, Ok (m !! "u1"))) as Hf
    by (by intros ?? ->).
  apply Hf in H. vm_compute in H. discriminate H.
Qed.

(** C3, amended.  (1) For records that carry their ids, the canonical index
    (url to id and fetch time) is the same for every permutation of the
    records.  (2) For shard sequences that are permutations of each other,
    the full consolidation indexes the same urls with the same fetch time;
    the ids, being positions in the concatenation, depend on the order. *)
Theorem C3_index_permutation :
  (∀ ds1 ds2, ds1 ≡ₚ ds2 → build_index ds1 = build_index ds2) ∧
  (∀ s1 s2, s1 ≡ₚ s2 →
     ∃ m, url_to_timestamp s1 = Ok m ∧ url_to_timestamp s2 = Ok m).
Proof.
  split.
  - intros ds1 ds2 Hp. by apply for_each_index_permutation.
  - intros s1 s2 Hp. unfold url_to_timestamp.
    destruct (canonical_index_Ok s1) as [i1 H1], (canonical_index_Ok s2) as [i2 H2].
    rewrite H1, H2. cbn [mbind result_mbind result_bind].
    exists (snd <$> i1). split; [done|]. f_equal.
    rewrite (canonical_index_ts _ _ H1), (canonical_index_ts _ _ H2).
    symmetry. apply foldl_ts_permutation. apply fmap_Permutation.
    by apply concat_permutation.
Qed.

Lemma C3_index_permutation_witness :
  let a := mkRow "u1" 10 [] (Some 0%nat) None in
  let b := mkRow "u1" 20 [] (Some 1%nat) None in
  build_index [a; b] = build_index [b; a] ∧
  ∃ m, url_to_timestamp [[a]; [b]] = Ok m ∧ url_to_timestamp [[b]; [a]] = Ok m.
Proof.
  split.
  - apply (proj1 C3_index_permutation). apply perm_swap.
  - apply (proj2 C3_index_permutation). apply perm_swap.
Defined.

(** C4, counterexample.  A record that arrives with the id 7 is not
    rejected: consolidation returns normally and the record has the id 0. *)
Lemma C4_carried_id_is_renumbered :
  let r := mkRow "u" 1 [] (Some 7%nat) None in
  id_ r = Some 7%nat ∧
  consolidate [[r]] = Ok [mkRow "u" 1 [] (Some 0%nat) None].
Proof. split; [reflexivity|]. vm_compute. reflexivity. Qed.

(** C4, amended.  Consolidation does not look at the ids that come in:
    whenever it returns, every record, whatever id it carried on arrival,
    is the record of the same position in the concatenation with that
    position as its id. *)
Theorem C4_consolidate_overwrites_ids :
  ∀ datasets out, consolidate datasets = Ok out →
    ∀ k data, concatenate_datasets datasets !! k = Some data →
      out !! k = Some (set_id data k).
Proof.
  intros datasets out Hout k data Hk.
  rewrite (consolidate_lookup _ _ k Hout).
  unfold concatenate_datasets in Hk. by rewrite Hk.
Qed.

Lemma C4_consolidate_overwrites_ids_witness :
  let r := mkRow "u" 1 [] (Some 7%nat) None in
  let r' := mkRow "v" 2 [] (Some 7%nat) None in
  consolidate [[r]; [r']] = Ok [set_id r 0; set_id r' 1] ∧
  [set_id r 0; set_id r' 1] !! 1%nat = Some (set_id r' 1).
Proof.
  split; [vm_compute; reflexivity|].
  apply (C4_consolidate_overwrites_ids
           [[mkRow "u" 1 [] (Some 7%nat) None]; [mkRow "v" 2 [] (Some 7%nat) None]]).
  - vm_compute. reflexivity.
  - reflexivity.
Defined.

Lemma resolve_lookup idx urls j i :
  resolve idx urls !! j = Some i →
  ∃ u t, filter (λ u, is_Some (idx !! u)) urls !! j = Some u ∧ idx !! u = Some (i, t).
Proof.
  unfold resolve. rewrite list_lookup_fmap.
  destruct (filter _ urls !! j) as [u|] eqn:Hj; [|discriminate]. simpl. intros [= <-].
  assert (u ∈ filter (λ u, is_Some (idx !! u)) urls) as Hin
    by (apply list_elem_of_lookup; eauto).
  apply list_elem_of_filter in Hin as [[[i t] Hu] _].
  exists u, t. split; [done|]. by rewrite (lookup_total_correct _ _ _ Hu).
Qed.

(** C5, the code at a failing input.  For a shard with the records A, B, C
    of the scenario, the index that [compute_external_ids_] builds is
    u1:(1,20), u2:(2,5), and the list that its second loop computes for C
    is [1].  The list is assigned to the dictionary that the iteration
    built for the row, which is no part of the dataset: the consolidated
    dataset holds A, B and C without [external_ids].  On every input, what
    [compute_external_ids_] returns is the dataset it was given. *)
Theorem C5_external_ids_are_not_stored :
  let A := mkRow "u1" 10 [] (Some 0%nat) None in
  let B := mkRow "u1" 20 [] (Some 1%nat) None in
  let C := mkRow "u2" 5 ["u1"] (Some 2%nat) None in
  let idx : gmap string (nat * Z) := <["u1" := (1%nat, 20)]> (<["u2" := (2%nat, 5)]> ∅) in
  canonical_index [[A; B; C]] = Ok idx ∧
  external_ids (external_ids_body idx C) = Some [1%nat] ∧
  consolidate [[A; B; C]] = Ok [A; B; C] ∧
  external_ids C = None ∧
  ∀ ds, match compute_external_ids_ ds with
        | Ok out => out = ds
        | Raise e => e = KeyError
        end.
Proof.
  split_and!; try (vm_compute; reflexivity).
  intros ds. unfold compute_external_ids_, build_index.
  destruct (for_each index_body ds ∅) as [idx|e] eqn:Hrun;
    cbn [mbind result_mbind result_bind]; [done|].
  revert Hrun. generalize (∅ : gmap string (nat * Z)).
  induction ds as [|x ds IH]; intros idx; simpl; [discriminate|].
  rewrite index_body_eq. unfold getitem_id.
  destruct (id_ x); cbn [mbind result_mbind result_bind]; [apply IH|by intros [= <-]].
Qed.

(** C8.  Every record leaves consolidation with the id of its 0-based
    position in the concatenation of the shards, its other input fields
    unchanged; the ids are those given by [assign_id] before the index is
    built, the index refers to records by these ids, and the ids are the
    distinct numbers 0..N-1. *)
Theorem C8_positional_ids :
  ∀ datasets, ∃ out, consolidate datasets = Ok out ∧
    let ds := concatenate_datasets datasets in
    length out = length ds ∧
    (∀ k data, ds !! k = Some data →
       ∃ data', out !! k = Some data' ∧ id_ data' = Some k ∧ url data' = url data ∧
         fetch_time data' = fetch_time data ∧ external_urls data' = external_urls data) ∧
    id_ <$> out = Some <$> seq 0 (length ds) ∧
    NoDup (id_ <$> out) ∧
    id_ <$> out = id_ <$> ds_map assign_id ds ∧
    ∃ idx, canonical_index datasets = Ok idx ∧
      ∀ u i t, idx !! u = Some (i, t) →
        ∃ data, out !! i = Some data ∧ url data = u ∧ fetch_time data = t.
Proof.
  intros datasets. pose proof (consolidate_eq datasets) as Hout.
  destruct (canonical_index_Ok datasets) as [idx Hidx].
  eexists. split; [exact Hout|]. unfold concatenate_datasets. cbv zeta.
  set (ds := concat datasets) in *.
  split_and!.
  - by rewrite length_zip_with, length_seq, Nat.min_id.
  - intros k data Hk. rewrite assigned_lookup, Hk. simpl. eauto 10.
  - apply assigned_ids.
  - rewrite assigned_ids. apply (NoDup_fmap_2 _). apply NoDup_seq.
  - by rewrite ds_map_assign_id.
  - exists idx. split; [done|]. intros u i t Hu.
    unfold canonical_index, build_index in Hidx.
    destruct (for_each_index_entry _ _ _ Hidx _ _ _ Hu) as [Hempty|(r & Hr & ? & Hi & ?)].
    { by rewrite lookup_empty in Hempty. }
    unfold concatenate_datasets in Hr. fold ds in Hr.
    rewrite ds_map_assign_id in Hr.
    apply list_elem_of_lookup in Hr as (k & Hk). rewrite assigned_lookup in Hk.
    destruct (ds !! k) as [data|] eqn:Hdk; [|discriminate].
    simpl in Hk. injection Hk as <-. simpl in *.
    assert (k = i) as -> by congruence.
    rewrite assigned_lookup, Hdk. simpl. eauto.
Qed.

Lemma C8_positional_ids_witness :
  let a := mkRow "u1" 10 [] None None in
  let b := mkRow "u2" 5 ["u1"] None None in
  ∃ out, consolidate [[a]; [b]] = Ok out ∧
    let ds := concatenate_datasets [[a]; [b]] in
    length out = length ds ∧
    (∀ k data, ds !! k = Some data →
       ∃ data', out !! k = Some data' ∧ id_ data' = Some k ∧ url data' = url data ∧
         fetch_time data' = fetch_time data ∧ external_urls data' = external_urls data) ∧
    id_ <$> out = Some <$> seq 0 (length ds) ∧
    NoDup (id_ <$> out) ∧
    id_ <$> out = id_ <$> ds_map assign_id ds ∧
    ∃ idx, canonical_index [[a]; [b]] = Ok idx ∧
      ∀ u i t, idx !! u = Some (i, t) →
        ∃ data, out !! i = Some data ∧ url data = u ∧ fetch_time data = t.
Proof.
  apply (C8_positional_ids [[mkRow "u1" 10 [] None None]; [mkRow "u2" 5 ["u1"] None None]]).
Defined.

(** C10.  [get_args] raises [AssertionError] exactly when the value of
    [--dataset] is one of the comma-separated names given to
    [--datasets-to-concatenate], and otherwise returns the parsed arguments
    as they are; [main] then stops at that error, whatever the store of
    datasets holds, so nothing is loaded. *)
Theorem C10_get_args_output_not_input :
  ∀ dataset_value datasets_value,
    (dataset_value ∈ split_on "," datasets_value →
       get_args dataset_value datasets_value = Raise AssertionError ∧
       ∀ hub, main hub dataset_value datasets_value = Raise AssertionError) ∧
    (dataset_value ∉ split_on "," datasets_value →
       get_args dataset_value datasets_value
       = Ok (mkArgs dataset_value (split_on "," datasets_value))).
Proof.
  intros d s. unfold main, get_args, parse_args. simpl. split; intros H.
  - rewrite bool_decide_eq_true_2 by done. done.
  - rewrite bool_decide_eq_false_2 by done. done.
Qed.

Lemma C10_get_args_output_not_input_witness :
  (get_args "b" "a,b,c" = Raise AssertionError ∧
   ∀ hub, main hub "b" "a,b,c" = Raise AssertionError) ∧
  get_args "out" "a,b,c" = Ok (mkArgs "out" ["a"; "b"; "c"]).
Proof.
  split.
  - apply (proj1 (C10_get_args_output_not_input "b" "a,b,c")). vm_compute.
    right. left.
  - apply (proj2 (C10_get_args_output_not_input "out" "a,b,c")). vm_compute.
    intros H. repeat (apply elem_of_cons in H as [H|H]; [discriminate H|]).
    by apply elem_of_nil in H.
Defined.

(** ** Consolidation: errors, the lists of ids and a second run *)

Lemma for_each_index_Raise ds :
  ∀ idx e, for_each index_body ds idx = Raise e →
    e = KeyError ∧ ∃ r, r ∈ ds ∧ id_ r = None.
Proof.
  induction ds as [|x ds IH]; intros idx e; simpl; [discriminate|].
  rewrite index_body_eq. unfold getitem_id.
  destruct (id_ x) as [i|] eqn:Hi; cbn [mbind result_mbind result_bind].
  - intros (-> & r & Hr & ?)%IH. split; [done|]. exists r. split; [by right|done].
  - intros [= <-]. split; [done|]. exists x. split; [left|done].
Qed.

Lemma for_each_index_ids ds :
  ∀ idx idx', for_each index_body ds idx = Ok idx' → ∀ r, r ∈ ds → is_Some (id_ r).
Proof.
  induction ds as [|x ds IH]; intros idx idx' Hrun r Hr; simpl in Hrun.
  - by apply elem_of_nil in Hr.
  - destruct (index_body idx x) as [idx1|e] eqn:Hx; [|discriminate].
    cbn [mbind result_mbind result_bind] in Hrun.
    apply elem_of_cons in Hr as [->|Hr]; [|by eapply IH].
    apply index_body_inv in Hx as (i & Hi & _). eauto.
Qed.

(** X1.  [compute_external_ids_] fails exactly when a record has no [id],
    and then with [KeyError]; when it returns, it returns as many records
    as it was given. *)
Theorem X1_compute_external_ids_needs_ids ds :
  match compute_external_ids_ ds with
  | Ok out => (∀ r, r ∈ ds → is_Some (id_ r)) ∧ length out = length ds
  | Raise e => e = KeyError ∧ ∃ r, r ∈ ds ∧ id_ r = None
  end.
Proof.
  unfold compute_external_ids_, build_index.
  destruct (for_each index_body ds ∅) as [idx|e] eqn:Hrun;
    cbn [mbind result_mbind result_bind].
  - split; [by eapply for_each_index_ids|done].
  - by eapply for_each_index_Raise.
Qed.

(** The first element on which a traversal fails gives its error. *)
Lemma traverse_first_error {A B} (f : A → result B) l e :
  traverse f l = Raise e →
  ∃ pre x post, l = pre ++ x :: post ∧ f x = Raise e ∧
    Forall (λ y, ∃ b, f y = Ok b) pre.
Proof.
  induction l as [|a l IH]; simpl; [discriminate|].
  destruct (f a) as [y|e'] eqn:Ha; cbn [mbind result_mbind result_bind].
  - destruct (traverse f l) as [ys|e'']; cbn [mbind result_mbind result_bind];
      [discriminate|].
    intros [= ->]. destruct IH as (pre & x & post & -> & Hx & Hpre); [done|].
    exists (a :: pre), x, post. split_and!; [done|done|]. constructor; eauto.
  - intros [= ->]. exists [], a, l. split_and!; [done|done|constructor].
Qed.

(** X2.  When the output name is not one of the input names, [main] loads
    the named datasets in the order given.  If a dataset fails to load,
    [main] fails with the error of the first one that does, the datasets
    named before it having been loaded.  If all are loaded and [main]
    returns, it pushes under the output name their consolidation, which
    has as many records as the loaded datasets together. *)
Theorem X2_main_loads_in_order hub dataset_value datasets_value :
  let names := split_on "," datasets_value in
  dataset_value ∉ names →
  match traverse hub names with
  | Raise e =>
      main hub dataset_value datasets_value = Raise e ∧
      ∃ pre n post, names = pre ++ n :: post ∧ hub n = Raise e ∧
        Forall (λ m, ∃ ds, hub m = Ok ds) pre
  | Ok datasets =>
      ∀ name out, main hub dataset_value datasets_value = Ok (name, out) →
        name = dataset_value ∧ consolidate datasets = Ok out ∧
        length out = list_sum (map length datasets)
  end.
Proof.
  intros names Hnot. unfold main, get_args, parse_args. simpl. fold names.
  rewrite bool_decide_eq_false_2 by done. cbn [mbind result_mbind result_bind].
  cbn [dataset datasets_to_concatenate].
  destruct (traverse hub names) as [datasets|e] eqn:Hload;
    cbn [mbind result_mbind result_bind].
  - intros name out. rewrite consolidate_eq. cbn [mbind result_mbind result_bind].
    intros [= <- <-]. split_and!; [done|done|].
    by rewrite length_zip_with, length_seq, Nat.min_id, length_concat.
  - split; [done|]. by apply traverse_first_error.
Qed.

Lemma X2_main_loads_in_order_witness :
  let a := mkRow "u1" 10 [] None None in
  let b := mkRow "u2" 5 ["u1"] None None in
  let hub := λ n : string,
    if String.eqb n "a" then Ok [a] else if String.eqb n "b" then Ok [b]
    else Raise ValueError in
  (∀ name out, main hub "out" "a,b" = Ok (name, out) →
     name = "out" ∧ consolidate [[a]; [b]] = Ok out ∧
     length out = list_sum (map length [[a]; [b]])) ∧
  (main hub "out" "a,c,b" = Raise ValueError ∧
   ∃ pre n post, split_on "," "a,c,b" = pre ++ n :: post ∧ hub n = Raise ValueError ∧
     Forall (λ m, ∃ ds, hub m = Ok ds) pre).
Proof.
  intros a b hub. split.
  - apply (X2_main_loads_in_order hub "out" "a,b"). vm_compute.
    intros H. repeat (apply elem_of_cons in H as [H|H]; [discriminate H|]).
    by apply elem_of_nil in H.
  - apply (X2_main_loads_in_order hub "out" "a,c,b"). vm_compute.
    intros H. repeat (apply elem_of_cons in H as [H|H]; [discriminate H|]).
    by apply elem_of_nil in H.
Defined.

(** X3.  A consolidated dataset is a fixed point: given back to the
    consolidation as its only shard, it comes out as it is, its ids being
    its positions already. *)
Theorem X3_consolidate_twice datasets out :
  consolidate datasets = Ok out → consolidate [out] = Ok out.
Proof.
  rewrite !consolidate_eq. intros [= <-]. f_equal.
  set (ds := concat datasets).
  assert (concat [zip_with set_id ds (seq 0 (length ds))]
          = zip_with set_id ds (seq 0 (length ds))) as -> by (simpl; apply app_nil_r).
  apply list_eq. intros k. rewrite !assigned_lookup.
  by destruct (ds !! k).
Qed.

Lemma X3_consolidate_twice_witness :
  let a := mkRow "u1" 10 [] None None in
  let b := mkRow "u2" 5 ["u1"] (Some 7%nat) None in
  consolidate [[a]; [b]] = Ok [set_id a 0; set_id b 1] ∧
  consolidate [[set_id a 0; set_id b 1]] = Ok [set_id a 0; set_id b 1].
Proof.
  split; [vm_compute; reflexivity|].
  apply (X3_consolidate_twice
           [[mkRow "u1" 10 [] None None]; [mkRow "u2" 5 ["u1"] (Some 7%nat) None]]).
  vm_compute. reflexivity.
Defined.

(** X4.  The list of ids that the second loop of [compute_external_ids_]
    computes for a record, from the index of the dataset: an external url
    is dropped only when no record of the dataset has that url, so that
    there are as many ids as external urls that are the url of some
    record; every such url gets the id of a record with that url; and
    every id of the list is the id of a record whose url is one of the
    external urls, the one with the greatest pair of fetch time and id. *)
Theorem X4_resolution_is_complete ds idx data :
  build_index ds = Ok idx →
  let ids := resolve idx (external_urls data) in
  external_ids (external_ids_body idx data) = Some ids ∧
  length ids = length (filter (λ u, u ∈ url <$> ds) (external_urls data)) ∧
  (∀ u, u ∈ external_urls data → u ∈ url <$> ds →
     ∃ i r, i ∈ ids ∧ r ∈ ds ∧ url r = u ∧ id_ r = Some i) ∧
  (∀ i, i ∈ ids →
     ∃ u r, u ∈ external_urls data ∧ r ∈ ds ∧ url r = u ∧ id_ r = Some i ∧
       ∀ r' i', r' ∈ ds → url r' = u → id_ r' = Some i' →
         tuple_lt (fetch_time r, i) (fetch_time r', i') = false).
Proof.
  intros Hidx ids. unfold build_index in Hidx.
  assert (∀ u, is_Some (idx !! u) ↔ u ∈ url <$> ds) as Hdom.
  { intros u. rewrite (for_each_index_dom _ _ _ Hidx u), lookup_empty, list_elem_of_fmap.
    split.
    - intros [H|(r & Hr & <-)]; [by destruct H|]. by exists r.
    - intros (r & -> & Hr). right. by exists r. }
  split_and!.
  - done.
  - unfold ids, resolve. rewrite length_map. f_equal. by apply list_filter_iff.
  - intros u Hu Hin. destruct (proj2 (Hdom u) Hin) as [[i t] Hit].
    destruct (for_each_index_entry _ _ _ Hidx _ _ _ Hit) as [Hempty|(r & Hr & ? & ? & ?)].
    { by rewrite lookup_empty in Hempty. }
    exists i, r. split_and!; try done.
    unfold ids, resolve. change (map ?f ?l) with (f <$> l). apply list_elem_of_fmap.
    exists u. split; [by rewrite (lookup_total_correct _ _ _ Hit)|].
    apply list_elem_of_filter. split; [by rewrite Hit|done].
  - intros i (j & Hj)%list_elem_of_lookup.
    apply resolve_lookup in Hj as (u & t & Hu & Hit).
    destruct (for_each_index_entry _ _ _ Hidx _ _ _ Hit) as [Hempty|(r & Hr & ? & ? & <-)].
    { by rewrite lookup_empty in Hempty. }
    exists u, r. split_and!; try done.
    + apply list_elem_of_lookup_2 in Hu. by apply list_elem_of_filter in Hu as [_ ?].
    + intros r' i'. by apply (for_each_index_greatest _ _ _ Hidx _ _ _ Hit).
Qed.

Lemma X4_resolution_is_complete_witness :
  let C := mkRow "u2" 5 ["u1"; "u3"] (Some 0%nat) None in
  let ds := [C; mkRow "u1" 10 [] (Some 1%nat) None; mkRow "u1" 20 [] (Some 2%nat) None] in
  let idx : gmap string (nat * Z) := <["u1" := (2%nat, 20)]> (<["u2" := (0%nat, 5)]> ∅) in
  let ids := resolve idx (external_urls C) in
  external_ids (external_ids_body idx C) = Some ids ∧
  length ids = length (filter (λ u, u ∈ url <$> ds) (external_urls C)) ∧
  (∀ u, u ∈ external_urls C → u ∈ url <$> ds →
     ∃ i r, i ∈ ids ∧ r ∈ ds ∧ url r = u ∧ id_ r = Some i) ∧
  (∀ i, i ∈ ids →
     ∃ u r, u ∈ external_urls C ∧ r ∈ ds ∧ url r = u ∧ id_ r = Some i ∧
       ∀ r' i', r' ∈ ds → url r' = u → id_ r' = Some i' →
         tuple_lt (fetch_time r, i) (fetch_time r', i') = false).
Proof.
  intros C ds idx. apply (X4_resolution_is_complete ds idx C).
  vm_compute. reflexivity.
Defined.

Lemma split_on_cons sep s : ∃ w ws, split_on sep s = w :: ws.
Proof.
  destruct s as [|c s]; simpl; [eauto|].
  destruct (Ascii.eqb c sep); [eauto|]. destruct (split_on sep s); eauto.
Qed.

(** X5.  The names that [get_args] gets from [--datasets-to-concatenate]:
    there is at least one, none contains a comma, and joined by commas they
    give the argument back, so that empty names are kept. *)
Theorem X5_names_of_the_argument dataset_value datasets_value :
  let names := datasets_to_concatenate (parse_args dataset_value datasets_value) in
  names ≠ [] ∧
  String.concat "," names = datasets_value ∧
  Forall (λ n, ∀ i, String.get i n ≠ Some ","%char) names.
Proof.
  unfold parse_args. simpl. generalize datasets_value as s. clear.
  assert (∀ s, String.concat "," (split_on "," s) = s ∧
               Forall (λ n, ∀ i, String.get i n ≠ Some ","%char) (split_on "," s)) as H.
  { induction s as [|c s [IH1 IH2]]; simpl.
    - split; [done|]. repeat constructor. by intros [|i].
    - destruct (Ascii.eqb_spec c ",") as [->|Hne].
      + destruct (split_on_cons "," s) as (w & ws & Hs). rewrite Hs in *. split.
        * simpl. simpl in IH1. by rewrite IH1.
        * constructor; [by intros [|i]|done].
      + destruct (split_on_cons "," s) as (w & ws & Hs). rewrite Hs in *.
        apply Forall_cons in IH2 as [Hw Hws]. split.
        * destruct ws as [|x xs]; [simpl in *; by rewrite IH1|].
          change (String.concat "," (String c w :: x :: xs))
            with (String c (w +:+ "," +:+ String.concat "," (x :: xs))).
          change (String.concat "," (w :: x :: xs))
            with (w +:+ "," +:+ String.concat "," (x :: xs)) in IH1.
          by rewrite IH1.
        * constructor; [|done]. intros [|i]; simpl; [congruence|apply Hw]. }
  intros s. destruct (H s) as [H1 H2]. split_and!; [|done|done].
  destruct (split_on_cons "," s) as (w & ws & ->). done.
Qed.

End finalise_properties.

Section visualization_properties.
Import Visualization.

(** ** The [result] monad and the loops *)

Ltac rsimpl := cbn [mbind mret result_mbind result_mret result_bind].
Ltac rsimpl_in H := cbn [mbind mret result_mbind result_mret result_bind] in H.

Lemma bind_Ok_inv {A B} (m : result A) (f : A → result B) b :
  m ≫= f = Ok b → ∃ a, m = Ok a ∧ f a = Ok b.
Proof. destruct m as [a|e]; rsimpl; [eauto|discriminate]. Qed.

Lemma traverse_app {A B} (f : A → result B) l1 l2 :
  traverse f (l1 ++ l2) = (r1 ← traverse f l1; r2 ← traverse f l2; Ok (r1 ++ r2)).
Proof.
  induction l1 as [|x l1 IH]; simpl.
  - rsimpl. by destruct (traverse f l2).
  - destruct (f x) as [y|e]; rsimpl; [|done]. rewrite IH.
    destruct (traverse f l1) as [r1|e]; rsimpl; [|done].
    by destruct (traverse f l2).
Qed.

Lemma traverse_length {A B} (f : A → result B) l r :
  traverse f l = Ok r → length r = length l.
Proof.
  revert r. induction l as [|x l IH]; intros r; simpl.
  - by intros [= <-].
  - intros (y & _ & (ys & Hys & [= <-])%bind_Ok_inv)%bind_Ok_inv.
    simpl. f_equal. by apply IH.
Qed.

Lemma traverse_lookup {A B} (f : A → result B) l r i x :
  traverse f l = Ok r → l !! i = Some x → ∃ y, f x = Ok y ∧ r !! i = Some y.
Proof.
  revert r i. induction l as [|a l IH]; intros r i; simpl; [done|].
  intros (y & Hy & (ys & Hys & [= <-])%bind_Ok_inv)%bind_Ok_inv.
  destruct i as [|i]; simpl.
  - intros [= ->]. eauto.
  - by apply IH.
Qed.

Lemma traverse_ext {A B} (f g : A → result B) l :
  (∀ i x, l !! i = Some x → f x = g x) → traverse f l = traverse g l.
Proof.
  induction l as [|a l IH]; intros H; simpl; [done|].
  rewrite (H 0%nat a eq_refl), IH; [done|]. intros i x Hi. apply (H (S i) x Hi).
Qed.

Lemma traverse_Forall2 {A B} (f : A → result B) l r :
  traverse f l = Ok r → Forall2 (λ x y, f x = Ok y) l r.
Proof.
  revert r. induction l as [|x l IH]; intros r; simpl.
  - intros [= <-]. constructor.
  - intros H. apply bind_Ok_inv in H as (y & Hy & H).
    apply bind_Ok_inv in H as (ys & Hys & [= <-]). constructor; auto.
Qed.

Lemma traverse_Ok_total {A B} (f : A → B) l :
  traverse (λ x, Ok (f x)) l = Ok (f <$> l).
Proof. induction l as [|a l IH]; simpl; [done|]. rsimpl. by rewrite IH. Qed.

(** ** The frame that [self.docs] names *)

Lemma docs_frame_valid self name col :
  docs_frame self !! name = Some col → is_Some (heap self !! docs self).
Proof.
  unfold docs_frame, frame_of. destruct (heap self !! docs self); [eauto|].
  simpl. by rewrite lookup_empty.
Qed.

Lemma docs_frame_setitem self name col :
  is_Some (heap self !! docs self) →
  docs_frame (setitem_docs self name col) = <[name := col]> (docs_frame self).
Proof.
  intros [df Hdf]. unfold docs_frame, frame_of, setitem_docs. simpl.
  rewrite list_lookup_insert_eq by (by eapply lookup_lt_Some). done.
Qed.

Lemma setitem_docs_valid self name col :
  is_Some (heap self !! docs self) →
  is_Some (heap (setitem_docs self name col) !! docs (setitem_docs self name col)).
Proof.
  intros [df Hdf]. simpl. rewrite list_lookup_insert_eq by (by eapply lookup_lt_Some). eauto.
Qed.

Lemma setitem_docs_twice self name a b :
  is_Some (heap self !! docs self) →
  setitem_docs (setitem_docs self name a) name b = setitem_docs self name b.
Proof.
  intros Hv. pose proof (docs_frame_setitem self name a Hv) as H1.
  unfold docs_frame, setitem_docs in *. simpl in *. rewrite H1.
  by rewrite list_insert_insert_eq, insert_insert_eq.
Qed.

Lemma setitem_docs_id self name col :
  docs_frame self !! name = Some col → setitem_docs self name col = self.
Proof.
  intros Hcol. destruct (docs_frame_valid _ _ _ Hcol) as [df Hdf].
  unfold setitem_docs. fold (docs_frame self).
  rewrite (insert_id _ _ _ Hcol).
  unfold docs_frame, frame_of. rewrite Hdf. simpl.
  rewrite (list_insert_id _ _ _ Hdf). by destruct self.
Qed.

Lemma checkpoint_frame_setitem self name col :
  docs self = docs_checkpoint self →
  frame_of (setitem_docs self name col) (docs_checkpoint (setitem_docs self name col))
  = docs_frame (setitem_docs self name col).
Proof. intros H. unfold docs_frame. simpl. by rewrite H. Qed.

Lemma iloc_set_docs_setitem self name col i v :
  is_Some (heap self !! docs self) → (i < length col)%nat →
  iloc_set_docs (setitem_docs self name col) name i v
  = Ok (setitem_docs self name (<[i := v]> col)).
Proof.
  intros Hv Hi. unfold iloc_set_docs. fold (docs_frame (setitem_docs self name col)).
  rewrite docs_frame_setitem by done. unfold getitem. rewrite lookup_insert_eq. rsimpl.
  rewrite bool_decide_eq_true_2 by done. by rewrite setitem_docs_twice.
Qed.

(** The row loop writes, cell by cell, the values [g 0], [g 1], ... when
    the value for row [j] only depends on the rows from [j] on of the
    column being rewritten. *)
Lemma for_rows_loop name f (g : nat → result cell) self col :
  is_Some (heap self !! docs self) →
  (∀ col' j, length col' = length col → (∀ i, (j ≤ i)%nat → col' !! i = col !! i) →
     (j < length col)%nat → f (setitem_docs self name col') j = g j) →
  ∀ k j vs, (j + k)%nat = length col → length vs = j →
    for_each (λ self i, v ← f self i; iloc_set_docs self name i v) (seq j k)
      (setitem_docs self name (vs ++ drop j col))
    = (ws ← traverse g (seq j k); Ok (setitem_docs self name (vs ++ ws))).
Proof.
  intros Hv Hf. rsimpl. induction k as [|k IH]; intros j vs Hjk Hvs; simpl.
  - by rewrite drop_ge by lia.
  - assert (j < length col)%nat as Hj by lia.
    destruct (lookup_lt_is_Some_2 col j Hj) as [x Hx].
    rewrite (Hf (vs ++ drop j col) j).
    + destruct (g j) as [v|e]; rsimpl; [|done].
      rewrite iloc_set_docs_setitem by (rewrite ?length_app, ?length_drop; done || lia).
      rewrite (drop_S _ _ _ Hx).
      replace (<[j:=v]> (vs ++ x :: drop (S j) col)) with ((vs ++ [v]) ++ drop (S j) col).
      2:{ rewrite insert_app_r_alt by lia. rewrite Hvs, Nat.sub_diag. simpl.
          by rewrite <- (assoc_L (++)). }
      rsimpl. rewrite IH by (rewrite ?length_app; simpl; lia).
      destruct (traverse g (seq (S j) k)) as [ws|e]; rsimpl; [|done].
      by rewrite <- (assoc_L (++)).
    + rewrite length_app, length_drop. lia.
    + intros i Hi. rewrite lookup_app_r by lia. rewrite lookup_drop. f_equal. lia.
    + done.
Qed.

Lemma for_rows_eq name f (g : nat → result cell) self col :
  is_Some (heap self !! docs self) →
  (∀ col' j, length col' = length col → (∀ i, (j ≤ i)%nat → col' !! i = col !! i) →
     (j < length col)%nat → f (setitem_docs self name col') j = g j) →
  for_rows name f (setitem_docs self name col)
  = (vs ← traverse g (seq 0 (length col)); Ok (setitem_docs self name vs)).
Proof.
  intros Hv Hf. unfold for_rows. fold (docs_frame (setitem_docs self name col)).
  rewrite docs_frame_setitem by done. unfold getitem. rewrite lookup_insert_eq. rsimpl.
  pose proof (for_rows_loop name f g self col Hv Hf (length col) 0%nat []) as H.
  rsimpl_in H. apply H; [lia|done].
Qed.

(** ** The blocks of [set_sliders] in a common form *)

Lemma set_self_id s : set_self s (sl_self s) = s.
Proof. by destruct s. Qed.

Lemma getitem_Some (df : frame) name col : df !! name = Some col → getitem df name = Ok col.
Proof. unfold getitem. by intros ->. Qed.

Lemma get_cond_eq self name cutoff max_cutoff :
  get_cond self name cutoff max_cutoff
  = (col ← getitem (docs_frame self) name; rule_cond col cutoff max_cutoff).
Proof. reflexivity. Qed.

Lemma add_key_eq k s col :
  docs_frame (sl_self s) !! key_0 k = Some col →
  add_key k s =
  (cond ← key_cond col k;
   Ok (cond, mkSliders (sl_self s) (sl_keys s ++ [k]) (sl_conds s)
               (sl_captions s ++ [print_discared_by_cond cond]))).
Proof.
  intros Hcol. unfold add_key. rewrite get_cond_eq. unfold getitem. rewrite Hcol. done.
Qed.

(** A block that adds one key and leaves the column as it is. *)
Lemma one_key_block name k s col :
  key_0 k = name →
  docs_frame (sl_self s) !! name = Some col →
  ('(cond, s') ← add_key k s; Ok (set_conds s' name [cond])) = commit name col [k] s.
Proof.
  intros <- Hcol. rewrite (add_key_eq _ _ _ Hcol). unfold commit. simpl.
  destruct (key_cond col k) as [cond|e]; rsimpl; [|done].
  unfold set_conds. simpl. by rewrite (setitem_docs_id _ _ _ Hcol).
Qed.

(** The same after the column has been rewritten. *)
Lemma one_key_block_rewritten name k s newcol :
  key_0 k = name →
  is_Some (heap (sl_self s) !! docs (sl_self s)) →
  ('(cond, s') ← add_key k (set_self s (setitem_docs (sl_self s) name newcol));
   Ok (set_conds s' name [cond]))
  = commit name newcol [k] s.
Proof.
  intros <- Hv. rewrite (add_key_eq _ _ newcol).
  2:{ simpl. rewrite docs_frame_setitem by done. apply lookup_insert_eq. }
  unfold commit. simpl. by destruct (key_cond newcol k) as [cond|e].
Qed.

Section block_forms.
Context (F : Filtering) (w : Widgets) (columns : list string) (s : Sliders).

Lemma special_characters_ratio_block_nf :
  ("special_characters_ratio" ∈ columns → is_Some (docs_frame (sl_self s) !! "special_characters_ratio")) →
  special_characters_ratio_block w columns s
  = block_nf columns "special_characters_ratio" (core_special_characters_ratio w) s.
Proof.
  intros H. unfold special_characters_ratio_block, block_nf.
  case_bool_decide; [|done]. destruct H as [col Hcol]; [done|].
  unfold getitem. rewrite Hcol. rsimpl. by apply one_key_block.
Qed.

Lemma lang_id_score_block_nf :
  ("lang_id_score" ∈ columns → is_Some (docs_frame (sl_self s) !! "lang_id_score")) →
  lang_id_score_block w columns s
  = block_nf columns "lang_id_score" (core_lang_id_score w) s.
Proof.
  intros H. unfold lang_id_score_block, block_nf.
  case_bool_decide; [|done]. destruct H as [col Hcol]; [done|].
  unfold getitem. rewrite Hcol. rsimpl. by apply one_key_block.
Qed.

Lemma perplexity_score_block_nf :
  ("perplexity_score" ∈ columns → is_Some (docs_frame (sl_self s) !! "perplexity_score")) →
  perplexity_score_block w columns s
  = block_nf columns "perplexity_score" (core_perplexity_score w) s.
Proof.
  intros H. unfold perplexity_score_block, block_nf, core_perplexity_score.
  case_bool_decide; [|done]. destruct H as [col Hcol]; [done|].
  fold (docs_frame (sl_self s)). unfold getitem. rewrite Hcol. rsimpl.
  destruct (np_max col) as [m|e]; rsimpl; [|done].
  destruct (py_int m) as [i|e]; rsimpl; [|done].
  by apply one_key_block.
Qed.

Lemma number_words_block_nf :
  ("number_words" ∈ columns → is_Some (docs_frame (sl_self s) !! "number_words")) →
  number_words_block w columns s
  = block_nf columns "number_words" (core_number_words w) s.
Proof.
  intros H. unfold number_words_block, block_nf, core_number_words.
  case_bool_decide; [|done]. destruct H as [col Hcol]; [done|].
  fold (docs_frame (sl_self s)). unfold getitem. rewrite Hcol. rsimpl.
  destruct (np_max col) as [m|e]; rsimpl; [|done].
  destruct (py_int m) as [i|e]; rsimpl; [|done].
  rewrite (add_key_eq _ _ col) by done. unfold commit. simpl.
  destruct (key_cond col _) as [cond_1|e]; rsimpl; [|done].
  rewrite (add_key_eq _ _ col) by done.
  destruct (key_cond col _) as [cond_2|e]; rsimpl; [|done].
  unfold set_conds. simpl.
  by rewrite (setitem_docs_id _ _ _ Hcol), <- !(assoc_L (++)).
Qed.

Lemma repetitions_ratio_block_nf :
  ("repetitions_ratio" ∈ columns → is_Some (docs_frame (sl_self s) !! "repetitions_ratio")) →
  repetitions_ratio_block w columns s
  = block_nf columns "repetitions_ratio" (core_repetitions_ratio w) s.
Proof.
  intros H. unfold repetitions_ratio_block, block_nf, core_repetitions_ratio.
  case_bool_decide; [|done]. destruct H as [col Hcol]; [done|].
  fold (docs_frame (sl_self s)). rewrite !(getitem_Some _ _ _ Hcol). rsimpl.
  destruct (iloc col 0) as [first|e]; rsimpl; [|done].
  destruct (dict_keys first) as [lengths|e]; rsimpl; [|done].
  fold (selected_length w lengths).
  destruct (getitem (frame_of (sl_self s) (docs_checkpoint (sl_self s))) _)
    as [checkpoint|e]; rsimpl; [|done].
  pose proof (docs_frame_valid _ _ _ Hcol) as Hv.
  rewrite (for_rows_eq _ _
    (λ i, c ← iloc checkpoint i; subscript c (selected_length w lengths)) _ _ Hv).
  - destruct (traverse _ (seq 0 (length checkpoint))) as [newcol|e]; rsimpl; [|done].
    by apply one_key_block_rewritten.
  - intros col' j Hlen Hagree Hj.
    fold (docs_frame (setitem_docs (sl_self s) "repetitions_ratio" col')).
    rewrite docs_frame_setitem by done. unfold getitem. rewrite lookup_insert_eq. rsimpl.
    unfold iloc. by rewrite Hagree.
Qed.

Lemma text_of_setitem self name col i :
  name ≠ "text" → is_Some (heap self !! docs self) →
  text_of (setitem_docs self name col) i = text_of self i.
Proof.
  intros Hne Hv. unfold text_of.
  fold (docs_frame (setitem_docs self name col)). fold (docs_frame self).
  rewrite docs_frame_setitem by done. unfold getitem.
  by rewrite lookup_insert_ne.
Qed.

Lemma stopwords_ratio_block_nf :
  ("stopwords_ratio" ∈ columns → is_Some (docs_frame (sl_self s) !! "stopwords_ratio")) →
  stopwords_ratio_block F w columns s
  = block_nf columns "stopwords_ratio" (core_stopwords_ratio F w) s.
Proof.
  intros H. unfold stopwords_ratio_block, block_nf, core_stopwords_ratio.
  case_bool_decide; [|done]. destruct H as [col Hcol]; [done|].
  rewrite !(getitem_Some _ _ _ Hcol). rsimpl.
  pose proof (docs_frame_valid _ _ _ Hcol) as Hv.
  destruct (w_stopwords_file w) as [content|]; rsimpl.
  - unfold recomputed.
    destruct (getitem (frame_of (sl_self s) (docs_checkpoint (sl_self s))) _)
      as [checkpoint|e]; rsimpl; [|done].
    rewrite (for_rows_eq _ _
      (λ i, text ← text_of (sl_self s) i;
            Ok (Num (compute_stopwords_ratio F text (lexicon_of content)))) _ _ Hv).
    + destruct (traverse _ (seq 0 (length checkpoint))) as [newcol|e]; rsimpl; [|done].
      by apply one_key_block_rewritten.
    + intros col' j _ _ _. by rewrite text_of_setitem.
  - rewrite set_self_id. by apply one_key_block.
Qed.

Lemma flagged_words_ratio_block_nf :
  ("flagged_words_ratio" ∈ columns → is_Some (docs_frame (sl_self s) !! "flagged_words_ratio")) →
  flagged_words_ratio_block F w columns s
  = block_nf columns "flagged_words_ratio" (core_flagged_words_ratio F w) s.
Proof.
  intros H. unfold flagged_words_ratio_block, block_nf, core_flagged_words_ratio.
  case_bool_decide; [|done]. destruct H as [col Hcol]; [done|].
  rewrite !(getitem_Some _ _ _ Hcol). rsimpl.
  pose proof (docs_frame_valid _ _ _ Hcol) as Hv.
  destruct (w_flagged_words_file w) as [content|]; rsimpl.
  - unfold recomputed.
    destruct (getitem (frame_of (sl_self s) (docs_checkpoint (sl_self s))) _)
      as [checkpoint|e]; rsimpl; [|done].
    rewrite (for_rows_eq _ _
      (λ i, text ← text_of (sl_self s) i;
            Ok (Num (compute_flagged_words_ratio F text (lexicon_of content)))) _ _ Hv).
    + destruct (traverse _ (seq 0 (length checkpoint))) as [newcol|e]; rsimpl; [|done].
      by apply one_key_block_rewritten.
    + intros col' j _ _ _. by rewrite text_of_setitem.
  - rewrite set_self_id. by apply one_key_block.
Qed.
End block_forms.

(** ** [set_sliders] as a run of its blocks *)

Lemma block_nf_inv columns name core s s' :
  block_nf columns name core s = Ok s' →
  ((name ∉ columns) ∧ s' = s) ∨
  (name ∈ columns ∧ ∃ col newcol ks cs,
     docs_frame (sl_self s) !! name = Some col ∧
     core (sl_self s) col = Ok (newcol, ks) ∧
     traverse (key_cond newcol) ks = Ok cs ∧
     s' = mkSliders (setitem_docs (sl_self s) name newcol) (sl_keys s ++ ks)
            (dict_set (sl_conds s) name cs)
            (sl_captions s ++ (print_discared_by_cond <$> cs))).
Proof.
  unfold block_nf. case_bool_decide as Hin; [|intros [= <-]; by left].
  intros H. apply bind_Ok_inv in H as (col & Hcol & H).
  apply bind_Ok_inv in H as ([newcol ks] & Hcore & Hc).
  right. split; [done|]. unfold commit in Hc. simpl in Hc.
  apply bind_Ok_inv in Hc as (cs & Hcs & [= <-]).
  exists col, newcol, ks, cs. split_and!; try done.
  unfold getitem in Hcol.
  destruct (docs_frame (sl_self s) !! name); [congruence|discriminate].
Qed.

Lemma block_nf_dom columns name core s s' c :
  block_nf columns name core s = Ok s' →
  is_Some (docs_frame (sl_self s) !! c) → is_Some (docs_frame (sl_self s') !! c).
Proof.
  intros [[_ ->]|(_ & col & newcol & ks & cs & Hcol & _ & _ & ->)]%block_nf_inv; [done|].
  simpl. rewrite docs_frame_setitem by (by eapply docs_frame_valid).
  rewrite lookup_insert_is_Some. destruct (decide (name = c)); auto.
Qed.

Lemma list_columns_spec (df : frame) c : c ∈ list_columns df ↔ is_Some (df !! c).
Proof. unfold list_columns. by rewrite elem_of_elements, elem_of_dom. Qed.

Lemma set_sliders_nf F w self :
  set_sliders F w self
  = run_blocks (list_columns (docs_frame self)) (blocks F w) (mkSliders self [] [] []).
Proof.
  unfold set_sliders, run_blocks, blocks. fold (docs_frame self).
  set (columns := list_columns (docs_frame self)).
  set (s0 := mkSliders self [] [] []).
  assert (∀ c, c ∈ columns → is_Some (docs_frame (sl_self s0) !! c)) as H0
    by (intros c; apply list_columns_spec).
  cbn [for_each fst snd].
  rewrite number_words_block_nf by apply H0.
  destruct (block_nf columns "number_words" _ s0) as [s1|e] eqn:E1; rsimpl; [|done].
  assert (∀ c, c ∈ columns → is_Some (docs_frame (sl_self s1) !! c)) as H1
    by (intros c Hc; eapply block_nf_dom; eauto).
  rewrite repetitions_ratio_block_nf by apply H1.
  destruct (block_nf columns "repetitions_ratio" _ s1) as [s2|e] eqn:E2; rsimpl; [|done].
  assert (∀ c, c ∈ columns → is_Some (docs_frame (sl_self s2) !! c)) as H2
    by (intros c Hc; eapply block_nf_dom; eauto).
  rewrite special_characters_ratio_block_nf by apply H2.
  destruct (block_nf columns "special_characters_ratio" _ s2) as [s3|e] eqn:E3; rsimpl; [|done].
  assert (∀ c, c ∈ columns → is_Some (docs_frame (sl_self s3) !! c)) as H3
    by (intros c Hc; eapply block_nf_dom; eauto).
  rewrite stopwords_ratio_block_nf by apply H3.
  destruct (block_nf columns "stopwords_ratio" _ s3) as [s4|e] eqn:E4; rsimpl; [|done].
  assert (∀ c, c ∈ columns → is_Some (docs_frame (sl_self s4) !! c)) as H4
    by (intros c Hc; eapply block_nf_dom; eauto).
  rewrite flagged_words_ratio_block_nf by apply H4.
  destruct (block_nf columns "flagged_words_ratio" _ s4) as [s5|e] eqn:E5; rsimpl; [|done].
  assert (∀ c, c ∈ columns → is_Some (docs_frame (sl_self s5) !! c)) as H5
    by (intros c Hc; eapply block_nf_dom; eauto).
  rewrite lang_id_score_block_nf by apply H5.
  destruct (block_nf columns "lang_id_score" _ s5) as [s6|e] eqn:E6; rsimpl; [|done].
  assert (∀ c, c ∈ columns → is_Some (docs_frame (sl_self s6) !! c)) as H6
    by (intros c Hc; eapply block_nf_dom; eauto).
  rewrite perplexity_score_block_nf by apply H6.
  by destruct (block_nf columns "perplexity_score" _ s6).
Qed.

(** *** What holds after each block *)

Lemma dict_set_fresh {V} (d : list (string * V)) name v :
  Forall (λ p, p.1 ≠ name) d → dict_set d name v = d ++ [(name, v)].
Proof.
  induction 1 as [|[k x] d Hk _ IH]; simpl; [done|].
  simpl in Hk. rewrite (proj2 (String.eqb_neq k name) Hk). by rewrite IH.
Qed.

Lemma block_inv_step columns name core done s s' :
  block_inv done s → name ∉ done → names_keys name core →
  block_nf columns name core s = Ok s' →
  block_inv (name :: done) s'.
Proof.
  intros (Hk & Hc & Ht & Hcap) Hfresh Hnames
    [[_ ->]|(_ & col & newcol & ks & cs & Hcol & Hcore & Hcs & ->)]%block_nf_inv.
  { split_and!; try done.
    - eapply Forall_impl; [exact Hk|]. intros k ?. by right.
    - eapply Forall_impl; [exact Hc|]. intros p ?. by right. }
  pose proof (docs_frame_valid _ _ _ Hcol) as Hv.
  apply Hnames in Hcore.
  unfold block_inv. simpl. rewrite docs_frame_setitem by done.
  rewrite dict_set_fresh.
  2:{ eapply Forall_impl; [exact Hc|]. intros p Hp Heq. simpl in Hp.
      rewrite Heq in Hp. done. }
  rewrite fmap_app, concat_app. simpl. rewrite app_nil_r.
  split_and!.
  - apply Forall_app. split.
    + eapply Forall_impl; [exact Hk|]. intros k ?. by right.
    + eapply Forall_impl; [exact Hcore|]. intros k ->. left.
  - apply Forall_app. split.
    + eapply Forall_impl; [exact Hc|]. intros p ?. by right.
    + apply Forall_singleton. left.
  - rewrite traverse_app.
    rewrite (traverse_ext _ (frame_cond (docs_frame (sl_self s))) (sl_keys s)).
    2:{ intros i k Hi. unfold frame_cond, getitem. rewrite lookup_insert_ne; [done|].
        intros ->. apply Hfresh.
        eapply (proj1 (Forall_lookup _ _) Hk); eauto. }
    rewrite Ht. rsimpl.
    rewrite (traverse_ext _ (key_cond newcol) ks).
    2:{ intros i k Hi. unfold frame_cond, getitem.
        rewrite (proj1 (Forall_lookup _ _) Hcore _ _ Hi), lookup_insert_eq. done. }
    by rewrite Hcs.
  - by rewrite Hcap, fmap_app.
Qed.

Lemma names_keys_blocks F w :
  Forall (λ b, names_keys b.1 b.2) (blocks F w).
Proof.
  unfold blocks. repeat apply Forall_cons_2; [..|apply Forall_nil_2];
    intros self col newcol ks H; simpl in H.
  - unfold core_number_words in H.
    apply bind_Ok_inv in H as (m & _ & H). apply bind_Ok_inv in H as (i & _ & [= _ <-]).
    by repeat constructor.
  - unfold core_repetitions_ratio in H.
    apply bind_Ok_inv in H as (? & _ & H). apply bind_Ok_inv in H as (? & _ & H).
    apply bind_Ok_inv in H as (? & _ & H). apply bind_Ok_inv in H as (? & _ & [= _ <-]).
    by repeat constructor.
  - injection H as _ <-. by repeat constructor.
  - unfold core_stopwords_ratio in H.
    apply bind_Ok_inv in H as (? & _ & [= _ <-]). by repeat constructor.
  - unfold core_flagged_words_ratio in H.
    apply bind_Ok_inv in H as (? & _ & [= _ <-]). by repeat constructor.
  - injection H as _ <-. by repeat constructor.
  - unfold core_perplexity_score in H.
    apply bind_Ok_inv in H as (m & _ & H). apply bind_Ok_inv in H as (i & _ & [= _ <-]).
    by repeat constructor.
Qed.

Lemma run_blocks_inv columns bs :
  Forall (λ b, names_keys b.1 b.2) bs → NoDup bs.*1 →
  ∀ done s s', block_inv done s → (∀ n, n ∈ bs.*1 → n ∉ done) →
    run_blocks columns bs s = Ok s' →
    block_inv (rev bs.*1 ++ done) s'.
Proof.
  unfold run_blocks.
  induction bs as [|[name core] bs IH]; intros Hn Hnd done s s' Hinv Hfresh Hrun;
    simpl in *.
  - by injection Hrun as <-.
  - apply bind_Ok_inv in Hrun as (s1 & H1 & Hrun).
    apply Forall_cons in Hn as [Hn1 Hn]. apply NoDup_cons in Hnd as [Hnot Hnd].
    rewrite <- (assoc_L (++)). simpl.
    apply (IH Hn Hnd (name :: done) s1 s'); [|..|done].
    + eapply block_inv_step; eauto. apply Hfresh. left.
    + intros n Hin [->|Hd]%elem_of_cons; [done|].
      apply (Hfresh n); [by right|done].
Qed.

Lemma set_sliders_inv F w self s :
  set_sliders F w self = Ok s → block_inv (rev (blocks F w).*1) s.
Proof.
  rewrite set_sliders_nf. intros Hrun.
  rewrite <- (app_nil_r (rev _)).
  eapply run_blocks_inv; [apply names_keys_blocks| |..|exact Hrun].
  - unfold blocks. simpl. apply (bool_decide_unpack _). by vm_compute.
  - by split_and!.
  - intros n _ Hn. by apply elem_of_nil in Hn.
Qed.

Lemma dict_get_dict_set {V} (d : list (string * V)) name v n :
  dict_get (dict_set d name v) n = if decide (n = name) then Ok v else dict_get d n.
Proof.
  induction d as [|[k x] d IH]; simpl.
  - destruct (String.eqb_spec name n) as [->|Hne].
    + by rewrite decide_True.
    + by rewrite decide_False by done.
  - destruct (String.eqb_spec k name) as [->|Hk]; simpl.
    + destruct (String.eqb_spec name n) as [->|Hne].
      * by rewrite decide_True.
      * by rewrite decide_False by done.
    + destruct (String.eqb_spec k n) as [->|Hkn]; [|done].
      by rewrite decide_False by done.
Qed.

Lemma keys_named_all name ks :
  Forall (λ k, key_0 k = name) ks → keys_named name ks = ks.
Proof.
  unfold keys_named. induction 1 as [|k ks Hk _ IH]; [done|].
  rewrite filter_cons, decide_True by done. by rewrite IH.
Qed.

Lemma keys_named_none name ks :
  Forall (λ k, key_0 k ≠ name) ks → keys_named name ks = [].
Proof.
  unfold keys_named. induction 1 as [|k ks Hk _ IH]; [done|].
  by rewrite filter_cons, decide_False by done.
Qed.

Lemma frame_cond_ext (df df' : frame) ks cs :
  (∀ k, k ∈ ks → df' !! key_0 k = df !! key_0 k) →
  Forall2 (λ k row, frame_cond df k = Ok row) ks cs →
  Forall2 (λ k row, frame_cond df' k = Ok row) ks cs.
Proof.
  intros Hext H. induction H as [|k row ks cs Hk _ IH]; constructor.
  - unfold frame_cond, getitem in *. rewrite Hext; [done|left].
  - apply IH. intros k' Hk'. apply Hext. by right.
Qed.

Lemma frame_cond_insert (df : frame) name newcol ks cs :
  Forall (λ k, key_0 k = name) ks →
  Forall2 (λ k row, key_cond newcol k = Ok row) ks cs →
  Forall2 (λ k row, frame_cond (<[name := newcol]> df) k = Ok row) ks cs.
Proof.
  intros Hn H. induction H as [|k row ks cs Hk _ IH]; constructor.
  - apply Forall_cons in Hn as [Hkn _]. unfold frame_cond, getitem.
    rewrite Hkn, lookup_insert_eq. done.
  - apply IH. by apply Forall_cons in Hn as [_ ?].
Qed.

Lemma conds_inv_step columns name core done s s' :
  block_inv done s → conds_inv s → name ∉ done → names_keys name core →
  block_nf columns name core s = Ok s' →
  conds_inv s'.
Proof.
  intros (Hk & _ & _ & _) Hinv Hfresh Hnames
    [[_ ->]|(_ & col & newcol & ks & cs & Hcol & Hcore & Hcs & ->)]%block_nf_inv; [done|].
  pose proof (docs_frame_valid _ _ _ Hcol) as Hv.
  apply Hnames in Hcore.
  intros n cs'. simpl. rewrite docs_frame_setitem by done.
  rewrite dict_get_dict_set. unfold keys_named. rewrite filter_app.
  fold (keys_named n (sl_keys s)). fold (keys_named n ks).
  case_decide as Hn.
  - subst n. intros [= <-].
    rewrite (keys_named_none name (sl_keys s)), (keys_named_all name ks); [|done|].
    + simpl. apply frame_cond_insert; [done|]. by apply traverse_Forall2.
    + eapply Forall_impl; [exact Hk|]. intros k Hd Heq. simpl in Hd.
      by rewrite Heq in Hd.
  - intros Hget. rewrite (keys_named_none n ks), app_nil_r.
    + eapply frame_cond_ext; [|exact (Hinv _ _ Hget)].
      intros k [Hkn _]%list_elem_of_filter. rewrite lookup_insert_ne; [done|congruence].
    + eapply Forall_impl; [exact Hcore|]. intros k Heq ?. congruence.
Qed.

Lemma run_blocks_conds_inv columns bs :
  Forall (λ b, names_keys b.1 b.2) bs → NoDup bs.*1 →
  ∀ done s s', block_inv done s → conds_inv s → (∀ n, n ∈ bs.*1 → n ∉ done) →
    run_blocks columns bs s = Ok s' →
    conds_inv s'.
Proof.
  unfold run_blocks.
  induction bs as [|[name core] bs IH]; intros Hn Hnd done s s' Hinv Hc Hfresh Hrun;
    simpl in *.
  - by injection Hrun as <-.
  - apply bind_Ok_inv in Hrun as (s1 & H1 & Hrun).
    apply Forall_cons in Hn as [Hn1 Hn]. apply NoDup_cons in Hnd as [Hnot Hnd].
    apply (IH Hn Hnd (name :: done) s1 s'); [| |..|done].
    + eapply block_inv_step; eauto. apply Hfresh. left.
    + eapply conds_inv_step; eauto. apply Hfresh. left.
    + intros n Hin [->|Hd]%elem_of_cons; [done|].
      apply (Hfresh n); [by right|done].
Qed.

Lemma set_sliders_conds_inv F w self s :
  set_sliders F w self = Ok s → conds_inv s.
Proof.
  rewrite set_sliders_nf. intros Hrun.
  eapply (run_blocks_conds_inv _ _ (names_keys_blocks F w)); [| | | |exact Hrun].
  - unfold blocks. simpl. apply (bool_decide_unpack _). by vm_compute.
  - instantiate (1 := []). by split_and!.
  - intros n cs. simpl. discriminate.
  - intros n _ Hn. by apply elem_of_nil in Hn.
Qed.


(** ** Rules, one document at a time *)

Lemma passes_iff df i k :
  passes df i k = true ↔
  ∃ v, value_at df (key_0 k) i = Some (Num v) ∧
       if key_2 k then (v <= key_1 k)%Q else (key_1 k <= v)%Q.
Proof.
  unfold passes. destruct (value_at df (key_0 k) i) as [[v| | | |]|]; split;
    try discriminate; try (by intros (? & [=] & _)).
  - intros H. exists v. split; [done|]. destruct (key_2 k); by apply Qle_bool_iff.
  - intros (v' & [= <-] & H). destruct (key_2 k); by apply Qle_bool_iff.
Qed.

Lemma traverse_cell_le cutoff col cond :
  traverse (cell_le cutoff) col = Ok cond →
  cond = (λ c, match c with Num v => Qle_bool v cutoff | _ => false end) <$> col.
Proof.
  revert cond. induction col as [|c col IH]; intros cond; simpl.
  - by intros [= <-].
  - intros H. apply bind_Ok_inv in H as (b & Hb & H).
    apply bind_Ok_inv in H as (bs & Hbs & [= <-]).
    rewrite (IH _ Hbs). f_equal. destruct c; simpl in Hb; congruence.
Qed.

Lemma traverse_cell_ge cutoff col cond :
  traverse (cell_ge cutoff) col = Ok cond →
  cond = (λ c, match c with Num v => Qle_bool cutoff v | _ => false end) <$> col.
Proof.
  revert cond. induction col as [|c col IH]; intros cond; simpl.
  - by intros [= <-].
  - intros H. apply bind_Ok_inv in H as (b & Hb & H).
    apply bind_Ok_inv in H as (bs & Hbs & [= <-]).
    rewrite (IH _ Hbs). f_equal. destruct c; simpl in Hb; congruence.
Qed.

(** The condition computed for a key holds, row by row, what [passes] says. *)
Lemma frame_cond_passes df k cond :
  frame_cond df k = Ok cond →
  ∃ col, df !! key_0 k = Some col ∧
    cond = (λ i, passes df i k) <$> seq 0 (length col).
Proof.
  unfold frame_cond, getitem. destruct (df !! key_0 k) as [col|] eqn:Hcol; [|discriminate].
  rsimpl. intros H. exists col. split; [done|].
  assert (cond = (λ c, match c with
                       | Num v => if key_2 k then Qle_bool v (key_1 k)
                                  else Qle_bool (key_1 k) v
                       | _ => false
                       end) <$> col) as ->.
  { unfold key_cond, rule_cond in H. destruct (key_2 k).
    - by apply traverse_cell_le in H.
    - by apply traverse_cell_ge in H. }
  apply list_eq. intros i. rewrite !list_lookup_fmap.
  destruct (col !! i) as [c|] eqn:Hi; simpl.
  - rewrite lookup_seq_lt by (by eapply lookup_lt_Some). simpl.
    unfold passes, value_at. rewrite Hcol. simpl. by rewrite Hi.
  - by rewrite (proj2 (lookup_ge_None _ _))
      by (rewrite length_seq; by apply lookup_ge_None).
Qed.

(** *** [np.all] along the rules *)

Lemma foldl_zip_andb_lookup rows : ∀ r i,
  foldl (zip_with andb) r rows !! i = foldl (and_at i) (r !! i) rows.
Proof.
  induction rows as [|row rows IH]; intros r i; simpl; [done|].
  rewrite IH. f_equal. rewrite lookup_zip_with. unfold and_at.
  destruct (r !! i); simpl; [|done]. by destruct (row !! i).
Qed.

Lemma foldl_and_at_None i rows : foldl (and_at i) None rows = None.
Proof. induction rows; simpl; auto. Qed.

Lemma foldl_and_at_Some df i ks rows :
  Forall2 (λ k row, frame_cond df k = Ok row) ks rows →
  ∀ a b, foldl (and_at i) (Some a) rows = Some b →
    b = a && forallb (passes df i) ks.
Proof.
  induction 1 as [|k row ks rows Hk _ IH]; intros a b; simpl.
  - intros [= <-]. by rewrite andb_true_r.
  - destruct (frame_cond_passes _ _ _ Hk) as (col & Hcol & ->).
    rewrite list_lookup_fmap.
    destruct (seq 0 (length col) !! i) as [i'|] eqn:Hi; simpl.
    + apply lookup_seq in Hi as [-> _]. simpl.
      intros ->%IH. by rewrite andb_assoc.
    + by rewrite foldl_and_at_None.
Qed.

Lemma foldl_and_at_is_Some df i ks rows :
  Forall2 (λ k row, frame_cond df k = Ok row) ks rows →
  (∀ k, k ∈ ks → is_Some (value_at df (key_0 k) i)) →
  ∀ a, is_Some (foldl (and_at i) (Some a) rows).
Proof.
  induction 1 as [|k row ks rows Hk _ IH]; intros Hval a; simpl; [eauto|].
  destruct (frame_cond_passes _ _ _ Hk) as (col & Hcol & ->).
  rewrite list_lookup_fmap.
  destruct (Hval k) as [c Hc]; [left|].
  unfold value_at in Hc. rewrite Hcol in Hc. simpl in Hc.
  rewrite lookup_seq_lt by (by eapply lookup_lt_Some). simpl.
  apply IH. intros k' Hk'. apply Hval. by right.
Qed.

Lemma admission_spec (df : frame) ks rows :
  Forall2 (λ k row, frame_cond df k = Ok row) ks rows →
  match np_all_axis0 rows with
  | Scalar b => ks = [] ∧ b = true
  | Vector v =>
      ks ≠ [] ∧
      (∀ i b, v !! i = Some b → b = forallb (passes df i) ks) ∧
      (∀ i, (∀ k, k ∈ ks → is_Some (value_at df (key_0 k) i)) → is_Some (v !! i))
  end.
Proof.
  intros H. destruct H as [|k row ks rows Hk Hks]; simpl; [done|].
  split_and!; [done|..].
  - intros i b. rewrite foldl_zip_andb_lookup.
    destruct (frame_cond_passes _ _ _ Hk) as (col & Hcol & ->).
    rewrite list_lookup_fmap.
    destruct (seq 0 (length col) !! i) as [i'|] eqn:Hi; simpl.
    + apply lookup_seq in Hi as [-> _]. simpl.
      by intros ->%(foldl_and_at_Some df i ks rows Hks).
    + by rewrite foldl_and_at_None.
  - intros i Hval. rewrite foldl_zip_andb_lookup.
    destruct (frame_cond_passes _ _ _ Hk) as (col & Hcol & ->).
    rewrite list_lookup_fmap.
    destruct (Hval k) as [c Hc]; [left|].
    unfold value_at in Hc. rewrite Hcol in Hc. simpl in Hc.
    rewrite lookup_seq_lt by (by eapply lookup_lt_Some). simpl.
    apply (foldl_and_at_is_Some df i ks rows Hks). intros k' Hk'. apply Hval. by right.
Qed.

Lemma elem_of_positions v i : i ∈ positions v ↔ v !! i = Some true.
Proof.
  unfold positions. rewrite list_elem_of_fmap. split.
  - intros ([j b] & -> & [Hb Hin]%list_elem_of_filter). simpl in *. subst b.
    apply list_elem_of_lookup in Hin as [n Hn].
    apply lookup_zip_with_Some in Hn as (j' & b & [= <- <-] & Hj & Hb).
    apply lookup_seq in Hj as [-> _]. done.
  - intros Hi. exists (i, true). split; [done|]. apply list_elem_of_filter. split; [done|].
    apply list_elem_of_lookup. exists i.
    apply lookup_zip_with_Some. exists i, true. split_and!; [done| |done].
    apply lookup_seq. split; [done|]. by eapply lookup_lt_Some.
Qed.

Lemma np_sum_count {A} (f : A → bool) l :
  (np_sum (f <$> l) + length (filter (λ x, f x = false) l))%nat = length l.
Proof.
  unfold np_sum. induction l as [|x l IH]; simpl; [done|].
  rewrite !filter_cons.
  destruct (f x) eqn:Hx; simpl; change (list_fmap A bool f l) with (f <$> l); lia.
Qed.

Lemma print_discared_by_cond_passes df k n :
  print_discared_by_cond ((λ i, passes df i k) <$> seq 0 n)
  = caption_of (length (failing df k n)) n.
Proof.
  unfold print_discared_by_cond, caption_of, failing.
  pose proof (np_sum_count (λ i, passes df i k) (seq 0 n)) as H.
  rewrite length_fmap, length_seq in *.
  destruct n; [done|]. do 4 f_equal. lia.
Qed.

Lemma set_sliders_conds F w self s :
  set_sliders F w self = Ok s →
  Forall2 (λ k row, frame_cond (docs_frame (sl_self s)) k = Ok row)
    (sl_keys s) (concat (sl_conds s).*2) ∧
  sl_captions s = print_discared_by_cond <$> concat (sl_conds s).*2.
Proof.
  intros (_ & _ & Ht & Hcap)%set_sliders_inv. split; [|done].
  by apply traverse_Forall2.
Qed.

(** ** The admission engine: the claims *)

(** C2.  A document passes a max-cutoff rule iff its value is at most the
    cutoff and a min-cutoff rule iff it is at least the cutoff; [all_conds]
    holds, for each document, the conjunction of these tests over the keys
    of [set_sliders] (a single [True] when there is no key); and the
    retained documents are those for which it is true, the discarded ones
    those for which it is false. *)
Theorem C2_admission_is_conjunction F w self s :
  set_sliders F w self = Ok s →
  let df := docs_frame (sl_self s) in
  (∀ i k, passes df i k = true ↔
     ∃ v, value_at df (key_0 k) i = Some (Num v) ∧
          if key_2 k then (v <= key_1 k)%Q else (key_1 k <= v)%Q) ∧
  match admission s with
  | Scalar b => sl_keys s = [] ∧ b = true
  | Vector v =>
      sl_keys s ≠ [] ∧
      (∀ i b, v !! i = Some b → b = forallb (passes df i) (sl_keys s)) ∧
      (∀ i, (∀ k, k ∈ sl_keys s → is_Some (value_at df (key_0 k) i)) → is_Some (v !! i))
  end ∧
  ∀ self' page, filtering_of_docs F w self = Ok (self', page) →
    keys self' = sl_keys s ∧ docs_frame self' = df ∧
    ∃ v, all_conds page = Vector v ∧ admission s = Vector v ∧
      ∀ i, (i ∈ (retained page).2 ↔ v !! i = Some true) ∧
           (i ∈ (discarded page).2 ↔ v !! i = Some false).
Proof.
  intros Hs df. destruct (set_sliders_conds _ _ _ _ Hs) as [Hconds _].
  split_and!.
  - intros i k. apply passes_iff.
  - by apply admission_spec.
  - intros self' page. unfold filtering_of_docs. rewrite Hs. rsimpl.
    destruct (admission s) as [b|v] eqn:Hadm; simpl; [discriminate|]. rsimpl.
    intros H. apply bind_Ok_inv in H as (byf & _ & [= <- <-]). simpl.
    split_and!; [done|done|]. exists v. split_and!; [done|done|].
    intros i. rewrite !elem_of_positions, list_lookup_fmap. split; [done|].
    destruct (v !! i) as [[]|]; simpl; split; congruence.
Qed.

Lemma discarded_by_filter_spec F w self s self' page :
  set_sliders F w self = Ok s →
  filtering_of_docs F w self = Ok (self', page) →
  w_display_discarded_documents_by_filter w = true →
  let df := docs_frame (sl_self s) in
  Forall2 (λ f shown,
      shown.1 = f.2 ∧
      let ks := keys_named f.1 (sl_keys s) in
      (∀ i, i ∈ shown.2 → forallb (passes df i) ks = false) ∧
      (∀ i, (∀ k, k ∈ ks → is_Some (value_at df (key_0 k) i)) →
            forallb (passes df i) ks = false → i ∈ shown.2))
    (filter (λ f, f.1 ∈ list_columns df) filters) (discarded_by_filter page).
Proof.
  intros Hs Hf Hbox df. pose proof (set_sliders_conds_inv _ _ _ _ Hs) as Hinv.
  unfold filtering_of_docs in Hf. rewrite Hs, Hbox in Hf. rsimpl_in Hf.
  apply bind_Ok_inv in Hf as (d & _ & Hf).
  apply bind_Ok_inv in Hf as (byf & Hbyf & Hf).
  apply bind_Ok_inv in Hf as (r & _ & [= <- <-]). simpl.
  apply traverse_Forall2 in Hbyf.
  eapply Forall2_impl; [exact Hbyf|]. intros f shown H. simpl in H.
  apply bind_Ok_inv in H as (cs & Hcs & H).
  pose proof (admission_spec df _ _ (Hinv _ _ Hcs)) as Hadm.
  destruct (np_all_axis0 cs) as [b|v]; simpl in H; [discriminate|].
  injection H as <-. simpl. destruct Hadm as (_ & Hval & Hsome).
  split_and!; [done|..].
  - intros i Hi. apply elem_of_positions in Hi. rewrite list_lookup_fmap in Hi.
    destruct (v !! i) as [b|] eqn:Hv; [|discriminate]. simpl in Hi.
    rewrite <- (Hval i b Hv). destruct b; [discriminate|done].
  - intros i Hcover Hfalse. apply elem_of_positions. rewrite list_lookup_fmap.
    destruct (Hsome i Hcover) as [b Hb]. rewrite Hb. simpl.
    by rewrite (Hval i b Hb), Hfalse.
Qed.

(** C6.  There is one caption for each key, and the caption of a key shows
    the share, in percent, of the documents of the whole column that fail
    that key taken alone: the number of such documents, divided by the
    number of documents, times 100.  When the discarded documents are shown
    filter by filter, the documents listed (and counted) for a filter are
    those that fail a key of that filter, whatever the other filters say.
    In the sample, with at least 10 words asked for, the document of 3 words
    is the one that fails the first key, and the first caption is 1 document
    out of 2. *)
Theorem C6_caption_counts_rule_alone :
  (∀ F w self s,
     set_sliders F w self = Ok s →
     let df := docs_frame (sl_self s) in
     length (sl_captions s) = length (sl_keys s) ∧
     (∀ j k, sl_keys s !! j = Some k →
        ∃ col, df !! key_0 k = Some col ∧
          sl_captions s !! j
          = Some (caption_of (length (failing df k (length col))) (length col)) ∧
          ∀ i, i ∈ failing df k (length col) ↔ (i < length col)%nat ∧ passes df i k = false) ∧
     ∀ self' page,
       filtering_of_docs F w self = Ok (self', page) →
       captions page = sl_captions s ∧
       (w_display_discarded_documents_by_filter w = true →
        Forall2 (λ f shown,
            shown.1 = f.2 ∧
            let ks := keys_named f.1 (sl_keys s) in
            (∀ i, i ∈ shown.2 → forallb (passes df i) ks = false) ∧
            (∀ i, (∀ k, k ∈ ks → is_Some (value_at df (key_0 k) i)) →
                  forallb (passes df i) ks = false → i ∈ shown.2))
          (filter (λ f, f.1 ∈ list_columns df) filters) (discarded_by_filter page))) ∧
  (let s := Example.sliders1 in
   let min_words := mkKey "number_words" 10 false None in
   set_sliders Example.F Example.w_min10 Example.self1 = Ok s ∧
   sl_keys s !! 0%nat = Some min_words ∧
   value_at (docs_frame (sl_self s)) "number_words" 0 = Some (Num 3) ∧
   failing (docs_frame (sl_self s)) min_words 2 = [0%nat] ∧
   sl_captions s !! 0%nat = Some (caption_of 1 2) ∧
   ∃ self' page,
     filtering_of_docs Example.F Example.w_min10_shown Example.self1 = Ok (self', page) ∧
     discarded_by_filter page !! 0%nat
     = Some ("Discarded documents for the filter on the number of words", [0%nat])).
Proof.
  split.
  - intros F w self s Hs df. destruct (set_sliders_conds _ _ _ _ Hs) as [Hconds Hcap].
    split_and!.
    + rewrite Hcap, length_fmap. symmetry. by eapply Forall2_length.
    + intros j k Hj.
      destruct (Forall2_lookup_l _ _ _ _ _ Hconds Hj) as (row & Hrow & Hk).
      destruct (frame_cond_passes _ _ _ Hk) as (col & Hcol & ->).
      exists col. split_and!; [done|..].
      * rewrite Hcap, list_lookup_fmap, Hrow. simpl.
        by rewrite print_discared_by_cond_passes.
      * intros i. unfold failing. rewrite list_elem_of_filter, elem_of_seq.
        split; intros [??]; split; try done; lia.
    + intros self' page Hf. split.
      * unfold filtering_of_docs in Hf. rewrite Hs in Hf. rsimpl_in Hf.
        apply bind_Ok_inv in Hf as (d & _ & Hf).
        apply bind_Ok_inv in Hf as (byf & _ & Hf).
        by apply bind_Ok_inv in Hf as (r & _ & [= <- <-]).
      * intros Hbox. by eapply discarded_by_filter_spec.
  - split_and!; try (vm_compute; reflexivity).
    eexists _, _. split; vm_compute; reflexivity.
Qed.

Lemma C6_caption_counts_rule_alone_witness :
  let s := Example.sliders1 in
  let df := docs_frame (sl_self s) in
  length (sl_captions s) = length (sl_keys s) ∧
  (∀ j k, sl_keys s !! j = Some k →
     ∃ col, df !! key_0 k = Some col ∧
       sl_captions s !! j
       = Some (caption_of (length (failing df k (length col))) (length col)) ∧
       ∀ i, i ∈ failing df k (length col) ↔ (i < length col)%nat ∧ passes df i k = false) ∧
  ∀ self' page,
    filtering_of_docs Example.F Example.w_min10 Example.self1 = Ok (self', page) →
    captions page = sl_captions s ∧
    (w_display_discarded_documents_by_filter Example.w_min10 = true →
     Forall2 (λ f shown,
         shown.1 = f.2 ∧
         let ks := keys_named f.1 (sl_keys s) in
         (∀ i, i ∈ shown.2 → forallb (passes df i) ks = false) ∧
         (∀ i, (∀ k, k ∈ ks → is_Some (value_at df (key_0 k) i)) →
               forallb (passes df i) ks = false → i ∈ shown.2))
       (filter (λ f, f.1 ∈ list_columns df) filters) (discarded_by_filter page)).
Proof.
  apply (proj1 C6_caption_counts_rule_alone Example.F Example.w_min10 Example.self1).
  vm_compute. reflexivity.
Defined.

Lemma C2_admission_is_conjunction_witness :
  let s := Example.sliders1 in
  let df := docs_frame (sl_self s) in
  (∀ i k, passes df i k = true ↔
     ∃ v, value_at df (key_0 k) i = Some (Num v) ∧
          if key_2 k then (v <= key_1 k)%Q else (key_1 k <= v)%Q) ∧
  match admission s with
  | Scalar b => sl_keys s = [] ∧ b = true
  | Vector v =>
      sl_keys s ≠ [] ∧
      (∀ i b, v !! i = Some b → b = forallb (passes df i) (sl_keys s)) ∧
      (∀ i, (∀ k, k ∈ sl_keys s → is_Some (value_at df (key_0 k) i)) → is_Some (v !! i))
  end ∧
  ∀ self' page, filtering_of_docs Example.F Example.w_min10 Example.self1 = Ok (self', page) →
    keys self' = sl_keys s ∧ docs_frame self' = df ∧
    ∃ v, all_conds page = Vector v ∧ admission s = Vector v ∧
      ∀ i, (i ∈ (retained page).2 ↔ v !! i = Some true) ∧
           (i ∈ (discarded page).2 ↔ v !! i = Some false).
Proof.
  apply (C2_admission_is_conjunction Example.F Example.w_min10 Example.self1).
  vm_compute. reflexivity.
Defined.


(** ** Replacing a lexicon *)

Lemma run_blocks_app columns bs1 bs2 s :
  run_blocks columns (bs1 ++ bs2) s
  = (t ← run_blocks columns bs1 s; run_blocks columns bs2 t).
Proof.
  unfold run_blocks. revert s. induction bs1 as [|b bs1 IH]; intros s; simpl; [done|].
  destruct (block_nf columns b.1 b.2 s) as [s1|e]; rsimpl; [apply IH|done].
Qed.

(** A run of blocks keeps the references and every column it does not name. *)
Lemma run_blocks_frame columns bs : ∀ s s',
  run_blocks columns bs s = Ok s' →
  docs (sl_self s') = docs (sl_self s) ∧
  docs_checkpoint (sl_self s') = docs_checkpoint (sl_self s) ∧
  ∀ c, c ∉ bs.*1 → docs_frame (sl_self s') !! c = docs_frame (sl_self s) !! c.
Proof.
  unfold run_blocks. induction bs as [|[name core] bs IH]; intros s s' Hrun; simpl in *.
  - by injection Hrun as <-.
  - apply bind_Ok_inv in Hrun as (s1 & H1 & Hrun).
    destruct (IH _ _ Hrun) as (Hd & Hc & Hf).
    apply block_nf_inv in H1
      as [[_ ->]|(_ & col & newcol & ks & cs & Hcol & _ & _ & ->)].
    + split_and!; [done|done|]. intros c Hc'. apply Hf. by apply not_elem_of_cons in Hc' as [_ ?].
    + simpl in *. split_and!; [done|done|].
      intros c [Hne Hc']%not_elem_of_cons. rewrite (Hf c Hc').
      rewrite docs_frame_setitem by (by eapply docs_frame_valid).
      by rewrite lookup_insert_ne.
Qed.

Lemma block_nf_agree columns X name core s s' t :
  agree_off X s s' → name ≠ X → core_local X core →
  block_nf columns name core s = Ok t →
  ∃ t', block_nf columns name core s' = Ok t' ∧ agree_off X t t'.
Proof.
  intros (Ha & Ha' & Hf & Hk & Hc) Hne Hlocal
    [[Hnot ->]|(Hin & col & newcol & ks & cs & Hcol & Hcore & Hcs & ->)]%block_nf_inv.
  - exists s'. unfold block_nf. rewrite bool_decide_eq_false_2 by done. by split.
  - assert (docs_frame (sl_self s') !! name = Some col) as Hcol'
      by (by rewrite <- Hf).
    eexists. unfold block_nf. rewrite bool_decide_eq_true_2 by done.
    rewrite (getitem_Some _ _ _ Hcol'). rsimpl.
    rewrite <- (Hlocal (sl_self s) (sl_self s') col Ha Ha' Hf), Hcore. rsimpl.
    unfold commit. simpl. rewrite Hcs. rsimpl. split; [done|].
    unfold agree_off. simpl. split_and!; try done.
    + intros c Hc'.
      rewrite !docs_frame_setitem by (by eapply docs_frame_valid).
      destruct (decide (name = c)) as [->|Hnc].
      * by rewrite !lookup_insert_eq.
      * rewrite !lookup_insert_ne by done. by apply Hf.
    + by rewrite Hk.
    + intros n Hn. rewrite !dict_get_dict_set. case_decide; [done|by apply Hc].
Qed.

Lemma run_blocks_agree columns X bs : ∀ s s' t,
  agree_off X s s' → Forall (λ b, b.1 ≠ X ∧ core_local X b.2) bs →
  run_blocks columns bs s = Ok t →
  ∃ t', run_blocks columns bs s' = Ok t' ∧ agree_off X t t'.
Proof.
  unfold run_blocks. induction bs as [|[name core] bs IH]; intros s s' t Hag Hbs Hrun;
    simpl in *.
  - injection Hrun as <-. eauto.
  - apply Forall_cons in Hbs as [[Hne Hlocal] Hbs].
    apply bind_Ok_inv in Hrun as (s1 & H1 & Hrun). cbn [fst snd] in *.
    destruct (block_nf_agree _ _ _ _ _ _ _ Hag Hne Hlocal H1) as (s1' & H1' & Hag1).
    rewrite H1'. rsimpl. eauto.
Qed.

Lemma checkpoint_is_docs self :
  docs self = docs_checkpoint self → frame_of self (docs_checkpoint self) = docs_frame self.
Proof. intros H. unfold docs_frame. by rewrite H. Qed.

Lemma text_of_agree self self' i :
  docs_frame self !! "text" = docs_frame self' !! "text" →
  text_of self i = text_of self' i.
Proof.
  intros H. unfold text_of, getitem.
  fold (docs_frame self). fold (docs_frame self'). by rewrite H.
Qed.

Lemma recomputed_agree X compute content name self self' :
  X ≠ name → X ≠ "text" →
  docs self = docs_checkpoint self → docs self' = docs_checkpoint self' →
  (∀ c, c ≠ X → docs_frame self !! c = docs_frame self' !! c) →
  recomputed compute content self name = recomputed compute content self' name.
Proof.
  intros Hn Ht Ha Ha' Hf. unfold recomputed.
  rewrite !checkpoint_is_docs by done. unfold getitem.
  rewrite (Hf name) by done.
  destruct (docs_frame self' !! name) as [col|]; rsimpl; [|done].
  apply traverse_ext. intros i j _. by rewrite (text_of_agree self self') by (by apply Hf).
Qed.

Lemma core_local_blocks F w X :
  X ≠ "text" →
  Forall (λ b, b.1 ≠ X → core_local X b.2) (blocks F w).
Proof.
  intros Ht. unfold blocks. repeat apply Forall_cons_2; [..|apply Forall_nil_2];
    simpl; intros Hne self self' col Ha Ha' Hf; try reflexivity.
  - unfold core_repetitions_ratio. rewrite !checkpoint_is_docs by done.
    unfold getitem. by rewrite (Hf "repetitions_ratio") by done.
  - unfold core_stopwords_ratio. destruct (w_stopwords_file w); [|done].
    by rewrite (recomputed_agree X _ _ _ self self').
  - unfold core_flagged_words_ratio. destruct (w_flagged_words_file w); [|done].
    by rewrite (recomputed_agree X _ _ _ self self').
Qed.

Lemma traverse_seq_take {A B} (g : nat → result B) (h : A → B) (l : list A) : ∀ n j,
  (∀ i, (j ≤ i < j + n)%nat → ∃ x, l !! i = Some x ∧ g i = Ok (h x)) →
  traverse g (seq j n) = Ok (h <$> take n (drop j l)).
Proof.
  induction n as [|n IH]; intros j H; simpl.
  - done.
  - destruct (H j) as (x & Hx & ->); [lia|]. rsimpl.
    rewrite (IH (S j)) by (intros i Hi; apply H; lia). rsimpl.
    rewrite (drop_S _ _ _ Hx). simpl. done.
Qed.

Lemma recomputed_texts compute content name self col texts :
  docs self = docs_checkpoint self →
  docs_frame self !! name = Some col →
  has_texts (docs_frame self) name texts →
  recomputed compute content self name
  = Ok ((λ t, Num (compute t (lexicon_of content))) <$> take (length col) texts).
Proof.
  intros Ha Hcol [Htext Hlen]. unfold recomputed.
  rewrite checkpoint_is_docs by done. rewrite (getitem_Some _ _ _ Hcol). rsimpl.
  rewrite (traverse_seq_take _ (λ t, Num (compute t (lexicon_of content))) texts);
    [by rewrite drop_0|].
  intros i Hi. specialize (Hlen _ Hcol).
  destruct (lookup_lt_is_Some_2 texts i) as [t Ht]; [lia|].
  exists t. split; [done|]. unfold text_of. fold (docs_frame self).
  rewrite (getitem_Some _ _ _ Htext). rsimpl. unfold iloc.
  rewrite list_lookup_fmap, Ht. done.
Qed.

Lemma key_cond_Num (f : string → cell) (texts : list string) k :
  (∀ t, ∃ v, f t = Num v) → ∃ cs, key_cond (f <$> texts) k = Ok cs.
Proof.
  intros Hf. unfold key_cond, rule_cond.
  destruct (key_2 k); induction texts as [|t texts [cs IH]]; simpl; eauto;
    destruct (Hf t) as [v ->]; simpl; rsimpl;
    change (list_fmap string cell f texts) with (f <$> texts);
    rewrite IH; rsimpl; eauto.
Qed.

(** Replacing the core of one block, when the new core succeeds with the
    same keys: the runs agree off the column of that block. *)
Lemma run_blocks_swap columns pre post X core core' (P : list cell → Prop) s0 s :
  docs (sl_self s0) = docs_checkpoint (sl_self s0) →
  Forall (λ b, b.1 ≠ X ∧ core_local X b.2) post →
  (∀ t0 col newcol ks,
     docs (sl_self t0) = docs_checkpoint (sl_self t0) →
     (∀ c, c ∉ pre.*1 → docs_frame (sl_self t0) !! c = docs_frame (sl_self s0) !! c) →
     docs_frame (sl_self t0) !! X = Some col →
     core (sl_self t0) col = Ok (newcol, ks) →
     ∃ newcol' cs', core' (sl_self t0) col = Ok (newcol', ks) ∧
       traverse (key_cond newcol') ks = Ok cs' ∧ P newcol') →
  run_blocks columns (pre ++ (X, core) :: post) s0 = Ok s →
  ∃ s', run_blocks columns (pre ++ (X, core') :: post) s0 = Ok s' ∧
    agree_off X s s' ∧
    (is_Some (docs_frame (sl_self s0) !! X) → X ∈ columns → X ∉ pre.*1 → X ∉ post.*1 →
     ∃ newcol', docs_frame (sl_self s') !! X = Some newcol' ∧ P newcol').
Proof.
  intros Ha Hpost Hcore'. rewrite !run_blocks_app.
  intros H. apply bind_Ok_inv in H as (t0 & Hpre & H). rewrite Hpre. rsimpl.
  change (run_blocks columns ((X, ?c) :: post) t0)
    with (t ← block_nf columns X c t0; run_blocks columns post t) in *.
  apply bind_Ok_inv in H as (t & HX & Hrun).
  destruct (run_blocks_frame _ _ _ _ Hpre) as (Hd0 & Hc0 & Hf0).
  assert (docs (sl_self t0) = docs_checkpoint (sl_self t0)) as Ha0 by congruence.
  assert (∃ t', block_nf columns X core' t0 = Ok t' ∧ agree_off X t t' ∧
            (is_Some (docs_frame (sl_self t0) !! X) → X ∈ columns →
             ∃ newcol', docs_frame (sl_self t') !! X = Some newcol' ∧ P newcol'))
    as (t' & HX' & Hag & HP).
  { apply block_nf_inv in HX
      as [[Hnot ->]|(Hin & col & newcol & ks & cs & Hcol & Hc & Hcs & ->)].
    - exists t0. unfold block_nf. rewrite bool_decide_eq_false_2 by done.
      split_and!; [done| |done]. by split_and!.
    - destruct (Hcore' t0 col newcol ks Ha0 Hf0 Hcol Hc) as (newcol' & cs' & Hc' & Hcs' & HP).
      pose proof (docs_frame_valid _ _ _ Hcol) as Hv.
      eexists. unfold block_nf. rewrite bool_decide_eq_true_2 by done.
      rewrite (getitem_Some _ _ _ Hcol). rsimpl. rewrite Hc'. rsimpl.
      unfold commit. simpl. rewrite Hcs'. rsimpl. split_and!; [done|..].
      + unfold agree_off. simpl. split_and!; try done.
        * intros c Hne. rewrite !docs_frame_setitem by done.
          by rewrite !lookup_insert_ne by done.
        * intros n Hn. rewrite !dict_get_dict_set. by rewrite !decide_False by done.
      + intros _ _. exists newcol'. simpl. rewrite docs_frame_setitem by done.
        by rewrite lookup_insert_eq. }
  rewrite HX'. rsimpl.
  destruct (run_blocks_agree _ _ _ _ _ _ Hag Hpost Hrun) as (s' & Hrun' & Hag').
  exists s'. split_and!; [done|done|].
  intros HsX Hin Hpre' Hpost'.
  destruct (run_blocks_frame _ _ _ _ Hrun') as (_ & _ & Hf').
  rewrite (Hf' X Hpost'). apply HP; [|done]. by rewrite (Hf0 X Hpre').
Qed.

Lemma swapped_intro F w w' X compute content texts self s s' :
  set_sliders F w self = Ok s → set_sliders F w' self = Ok s' →
  agree_off X s s' →
  (is_Some (docs_frame self !! X) →
   ∃ newcol', docs_frame (sl_self s') !! X = Some newcol' ∧
     ∀ col, docs_frame self !! X = Some col →
       newcol' = (λ t, Num (compute t (lexicon_of content))) <$> take (length col) texts) →
  swapped X compute content texts self s s'.
Proof.
  intros Hs Hs' (_ & _ & Hf & Hk & Hc) HX.
  destruct (set_sliders_conds _ _ _ _ Hs) as [Hconds Hcap].
  destruct (set_sliders_conds _ _ _ _ Hs') as [Hconds' Hcap'].
  split_and!.
  - done.
  - intros c Hne. symmetry. by apply Hf.
  - intros i k Hne. unfold passes, value_at. by rewrite (Hf _ Hne).
  - intros n Hne. symmetry. by apply Hc.
  - intros j k Hj Hne. rewrite Hcap, Hcap', !list_lookup_fmap.
    destruct (Forall2_lookup_l _ _ _ _ _ Hconds Hj) as (row & -> & Hrow).
    rewrite Hk in Hj.
    destruct (Forall2_lookup_l _ _ _ _ _ Hconds' Hj) as (row' & -> & Hrow').
    unfold frame_cond, getitem in *. rewrite (Hf _ Hne) in Hrow. congruence.
  - intros col Hcol. destruct HX as (newcol' & -> & Hnew); [eauto|].
    by rewrite (Hnew _ Hcol).
Qed.

Lemma swap_core X compute content texts (self : Self) (pre : list string) t0 col k :
  X ∉ pre → "text" ∉ pre →
  has_texts (docs_frame self) X texts →
  docs t0 = docs_checkpoint t0 →
  (∀ c, c ∉ pre → docs_frame t0 !! c = docs_frame self !! c) →
  docs_frame t0 !! X = Some col →
  ∃ newcol' cs',
    (newcol ← recomputed compute content t0 X; Ok (newcol, [k]))
      = Ok (newcol', [k]) ∧
    traverse (key_cond newcol') [k] = Ok cs' ∧
    ∀ col0, docs_frame self !! X = Some col0 →
      newcol' = (λ t, Num (compute t (lexicon_of content))) <$> take (length col0) texts.
Proof.
  intros HX Ht [Htext Hlen] Ha Hf Hcol.
  rewrite (recomputed_texts _ _ _ _ col texts Ha Hcol).
  2:{ split; [by rewrite Hf|]. intros col'. rewrite Hf by done. apply Hlen. }
  rsimpl.
  destruct (key_cond_Num (λ t, Num (compute t (lexicon_of content)))
              (take (length col) texts) k) as [cs Hcs]; [eauto|].
  eexists _, [cs]. split_and!; [done|..].
  - simpl. rewrite Hcs. done.
  - intros col0. rewrite <- Hf by done. rewrite Hcol. by intros [= <-].
Qed.

(** C9.  With the data frame as [open_data] leaves it (one frame, named by
    both [docs] and [docs_checkpoint]) and a text for every row: when the
    sliders succeed, they also succeed after a stop-word list (or a
    flagged-word list) has been uploaded, with the same keys; the upload
    recomputes the column of that ratio from the texts and the new
    lexicon, and every other column of the frame and the condition of
    every other filter are the same as without the upload. *)
Theorem C9_lexicon_swap_is_local F w self s content texts :
  docs self = docs_checkpoint self →
  set_sliders F w self = Ok s →
  (has_texts (docs_frame self) "stopwords_ratio" texts →
   ∃ s', set_sliders F (upload_stopwords w content) self = Ok s' ∧
     swapped "stopwords_ratio" (compute_stopwords_ratio F) content texts self s s') ∧
  (has_texts (docs_frame self) "flagged_words_ratio" texts →
   ∃ s', set_sliders F (upload_flagged_words w content) self = Ok s' ∧
     swapped "flagged_words_ratio" (compute_flagged_words_ratio F) content texts self s s').
Proof.
  intros Ha Hs. rewrite set_sliders_nf in Hs. split; intros Htexts.
  - set (X := "stopwords_ratio").
    pose proof (core_local_blocks F w X) as Hlocal.
    assert (Forall (λ b, b.1 ≠ X ∧ core_local X b.2) (drop 4 (blocks F w))) as Hpost.
    { apply (Forall_drop _ 4) in Hlocal; [|done]. simpl in *.
      repeat (apply Forall_cons in Hlocal as [H1 Hlocal];
              simpl in H1; apply Forall_cons_2;
                [split; [|apply H1]; apply (bool_decide_unpack _); by vm_compute|];
              clear H1).
      done. }
    destruct (run_blocks_swap (list_columns (docs_frame self))
                (take 3 (blocks F w)) (drop 4 (blocks F w)) X
                (core_stopwords_ratio F w)
                (core_stopwords_ratio F (upload_stopwords w content))
                (λ newcol', ∀ col, docs_frame self !! X = Some col →
                   newcol' = (λ t, Num (compute_stopwords_ratio F t (lexicon_of content)))
                             <$> take (length col) texts)
                (mkSliders self [] [] []) s Ha Hpost) as (s' & Hs' & Hag & HX).
    + intros t0 col newcol ks Ha0 Hf0 Hcol Hcore.
      assert (ks = [mkKey X (slider (w_stopwords_ratio w) 0 1 0) false None]) as ->.
      { unfold core_stopwords_ratio in Hcore.
        by apply bind_Ok_inv in Hcore as (? & _ & [= _ <-]). }
      eapply (swap_core X _ content texts self _ (sl_self t0) col); eauto;
        apply (bool_decide_unpack _); by vm_compute.
    + exact Hs.
    + exists s'.
      assert (set_sliders F (upload_stopwords w content) self = Ok s') as Hs2
        by (rewrite set_sliders_nf; exact Hs').
      split; [done|].
      eapply swapped_intro; [by rewrite set_sliders_nf|exact Hs2|done|].
      intros Hsome. apply HX; [done|..].
      * by apply list_columns_spec.
      * apply (bool_decide_unpack _). by vm_compute.
      * apply (bool_decide_unpack _). by vm_compute.
  - set (X := "flagged_words_ratio").
    pose proof (core_local_blocks F w X) as Hlocal.
    assert (Forall (λ b, b.1 ≠ X ∧ core_local X b.2) (drop 5 (blocks F w))) as Hpost.
    { apply (Forall_drop _ 5) in Hlocal; [|done]. simpl in *.
      repeat (apply Forall_cons in Hlocal as [H1 Hlocal];
              simpl in H1; apply Forall_cons_2;
                [split; [|apply H1]; apply (bool_decide_unpack _); by vm_compute|];
              clear H1).
      done. }
    destruct (run_blocks_swap (list_columns (docs_frame self))
                (take 4 (blocks F w)) (drop 5 (blocks F w)) X
                (core_flagged_words_ratio F w)
                (core_flagged_words_ratio F (upload_flagged_words w content))
                (λ newcol', ∀ col, docs_frame self !! X = Some col →
                   newcol' = (λ t, Num (compute_flagged_words_ratio F t (lexicon_of content)))
                             <$> take (length col) texts)
                (mkSliders self [] [] []) s Ha Hpost) as (s' & Hs' & Hag & HX).
    + intros t0 col newcol ks Ha0 Hf0 Hcol Hcore.
      assert (ks = [mkKey X (slider (w_flagged_words_ratio w) 0 1 1) true None]) as ->.
      { unfold core_flagged_words_ratio in Hcore.
        by apply bind_Ok_inv in Hcore as (? & _ & [= _ <-]). }
      eapply (swap_core X _ content texts self _ (sl_self t0) col); eauto;
        apply (bool_decide_unpack _); by vm_compute.
    + exact Hs.
    + exists s'.
      assert (set_sliders F (upload_flagged_words w content) self = Ok s') as Hs2
        by (rewrite set_sliders_nf; exact Hs').
      split; [done|].
      eapply swapped_intro; [by rewrite set_sliders_nf|exact Hs2|done|].
      intros Hsome. apply HX; [done|..].
      * by apply list_columns_spec.
      * apply (bool_decide_unpack _). by vm_compute.
      * apply (bool_decide_unpack _). by vm_compute.
Qed.

(** ** The sliders return on well-formed data *)

Lemma key_cond_numeric col k : Forall numeric col → ∃ cs, key_cond col k = Ok cs.
Proof.
  unfold key_cond, rule_cond.
  destruct (key_2 k); induction 1 as [|c col Hc _ [cs IH]]; simpl; eauto;
    destruct c; try done; simpl; rsimpl; rewrite IH; rsimpl; eauto.
Qed.

Lemma np_max_numeric col :
  Forall numeric col →
  ∀ acc, numeric acc →
    ∃ r, np_max_from acc col = Ok r ∧ numeric r ∧ (is_Num acc ∨ Exists is_Num col → is_Num r).
Proof.
  unfold np_max_from.
  induction 1 as [|c col Hc _ IH]; intros acc Hacc; simpl.
  - exists acc. split_and!; [done|done|]. intros [?|Hex%Exists_nil]; done.
  - destruct c as [b| | | |]; try done; destruct acc as [a| | | |]; try done; simpl; rsimpl.
    + destruct (IH (Num (if Qle_bool a b then b else a)) I) as (r & -> & ? & Hr).
      exists r. split_and!; [done|done|]. intros _. apply Hr. by left.
    + destruct (IH (Num b) I) as (r & -> & ? & Hr).
      exists r. split_and!; [done|done|]. intros _. apply Hr. by left.
    + destruct (IH (Num a) I) as (r & -> & ? & Hr).
      exists r. split_and!; [done|done|]. intros _. apply Hr. by left.
    + destruct (IH NaN I) as (r & -> & ? & Hr).
      exists r. split_and!; [done|done|].
      intros [[]|[[]|Hex]%Exists_cons]. apply Hr. by right.
Qed.

Lemma max_cutoff_Ok col :
  Forall numeric col → Exists is_Num col →
  ∃ m i, np_max col = Ok m ∧ py_int m = Ok i.
Proof.
  intros Hn He. destruct (np_max_numeric col Hn NaN I) as (r & Hr & _ & HNum).
  exists r. destruct r as [q| | | |]; try (exfalso; by apply HNum; right).
  eauto.
Qed.

Lemma run_blocks_Ok df0 columns bs :
  Forall (λ b, core_succeeds df0 b.1 b.2) bs → NoDup bs.*1 → "text" ∉ bs.*1 →
  ∀ s,
    docs (sl_self s) = docs_checkpoint (sl_self s) →
    docs_frame (sl_self s) !! "text" = df0 !! "text" →
    (∀ c, c ∈ bs.*1 → docs_frame (sl_self s) !! c = df0 !! c) →
    (∀ c, c ∈ columns → is_Some (docs_frame (sl_self s) !! c)) →
    ∃ s', run_blocks columns bs s = Ok s'.
Proof.
  unfold run_blocks.
  induction bs as [|[name core] bs IH]; intros Hcore Hnd Htext s Ha Ht Hcols Hin; simpl in *.
  { eauto. }
  apply Forall_cons in Hcore as [Hc Hcore]. apply NoDup_cons in Hnd as [Hnot Hnd].
  apply not_elem_of_cons in Htext as [Hne Htext].
  assert (∃ s1, block_nf columns name core s = Ok s1) as [s1 H1].
  { unfold block_nf. case_bool_decide as Hname; [|eauto].
    destruct (Hin name Hname) as [col Hcol].
    rewrite (getitem_Some _ _ _ Hcol). rsimpl.
    destruct (Hc (sl_self s) col Ha Ht) as (newcol & ks & cs & Hco & Hcs); [|done|].
    { rewrite <- Hcols; [done|left]. }
    simpl in Hco. rewrite Hco. rsimpl. unfold commit. simpl. rewrite Hcs. rsimpl. eauto. }
  rewrite H1. rsimpl.
  assert (docs (sl_self s1) = docs (sl_self s) ∧
          docs_checkpoint (sl_self s1) = docs_checkpoint (sl_self s) ∧
          ∀ c, c ≠ name → docs_frame (sl_self s1) !! c = docs_frame (sl_self s) !! c)
    as (Hd & Hck & Hf).
  { pose proof H1 as
      [[_ ->]|(_ & col & newcol & ks & cs & Hcol & _ & _ & ->)]%block_nf_inv; [done|].
    simpl. split_and!; [done|done|]. intros c Hc'.
    rewrite docs_frame_setitem by (by eapply docs_frame_valid).
    by rewrite lookup_insert_ne. }
  apply IH; try done.
  - congruence.
  - rewrite Hf; [done|]. congruence.
  - intros c Hc'. rewrite Hf.
    + apply Hcols. by right.
    + intros ->. done.
  - intros c Hc'. eapply block_nf_dom; eauto.
Qed.

Lemma core_succeeds_blocks F w self :
  well_formed w self →
  Forall (λ b, core_succeeds (docs_frame self) b.1 b.2) (blocks F w).
Proof.
  intros (Ha & Hnum & Hmax & Hrep & Hstop & Hflag).
  assert (∀ name : string, name ∈ ["number_words"; "special_characters_ratio";
            "stopwords_ratio"; "flagged_words_ratio"; "lang_id_score"; "perplexity_score"] →
          ∀ col k, docs_frame self !! name = Some col → ∃ cs, traverse (key_cond col) [k] = Ok cs)
    as Hone.
  { intros name Hname col k Hcol. destruct (key_cond_numeric col k) as [cs Hcs]; [by eapply Hnum|].
    exists [cs]. simpl. by rewrite Hcs. }
  unfold blocks. repeat apply Forall_cons_2; [..|apply Forall_nil_2];
    intros t col Hat Htt Hcol0 Hcol; simpl in *.
  - unfold core_number_words.
    destruct (max_cutoff_Ok col) as (m & i & Hm & Hi).
    { eapply Hnum; [|done]. repeat constructor. }
    { eapply Hmax; [|done]. repeat constructor. }
    rewrite Hm. rsimpl. rewrite Hi. rsimpl.
    destruct (key_cond_numeric col
      (mkKey "number_words"
         (slider (w_min_number_words w) 0 (inject_Z (Z.min (i + 1) 500)) 0) false None))
      as [c1 H1]; [eapply Hnum; [|done]; repeat constructor|].
    destruct (key_cond_numeric col
      (mkKey "number_words"
         (slider (w_max_number_words w) 0 (inject_Z (i + 1)) (inject_Z (i + 1))) true None))
      as [c2 H2]; [eapply Hnum; [|done]; repeat constructor|].
    eexists _, _, [c1; c2]. split; [done|]. simpl. by rewrite H1, H2.
  - unfold core_repetitions_ratio.
    destruct (Hrep _ Hcol0) as (d0 & rest & -> & Hall). simpl. rsimpl.
    rewrite checkpoint_is_docs by done. rewrite (getitem_Some _ _ _ Hcol). rsimpl.
    set (n := selected_length w d0.*1) in *.
    assert (∃ vs : list Q,
              traverse (λ i, c ← iloc (Dict d0 :: rest) i; subscript c n)
                (seq 0 (length (Dict d0 :: rest))) = Ok (Num <$> vs)) as [vs Hvs].
    { assert (∃ vs : list Q, Forall2 (λ c v, subscript c n = Ok (Num v)) (Dict d0 :: rest) vs)
        as [vs Hvs].
      { clear -Hall. induction Hall as [|c l (d & v & -> & Hc) _ [vs IH]]; [by exists []|].
        exists (v :: vs). by constructor. }
      exists vs.
      rewrite (traverse_seq_take _ (λ c, match subscript c n with Ok v => v | _ => NaN end)
                 (Dict d0 :: rest)).
      - rewrite drop_0, firstn_all. f_equal. apply list_eq. intros j.
        rewrite !list_lookup_fmap.
        destruct ((Dict d0 :: rest) !! j) as [c|] eqn:Hj.
        + destruct (Forall2_lookup_l _ _ _ _ _ Hvs Hj) as (v & Hv & Hs).
          rewrite Hv. simpl. by rewrite Hs.
        + apply (Forall2_length) in Hvs. apply lookup_ge_None in Hj.
          rewrite (proj2 (lookup_ge_None vs j)) by lia. done.
      - intros j Hj. destruct (lookup_lt_is_Some_2 (Dict d0 :: rest) j) as [c Hc]; [lia|].
        exists c. split; [done|]. unfold iloc. rewrite Hc. rsimpl.
        destruct (Forall2_lookup_l _ _ _ _ _ Hvs Hc) as (v & _ & Hs). by rewrite Hs. }
    rewrite Hvs. rsimpl.
    destruct (key_cond_numeric (Num <$> vs)
      (mkKey "repetitions_ratio" (slider (w_repetitions_ratio w) 0 1 1) true n)) as [cs Hcs].
    { apply Forall_fmap, Forall_true. done. }
    eexists _, _, [cs]. split; [done|]. simpl. by rewrite Hcs.
  - destruct (Hone "special_characters_ratio" ltac:(repeat constructor) col
                (mkKey "special_characters_ratio"
                   (slider (w_special_characters_ratio w) 0 1 1) true None) Hcol0) as [cs Hcs].
    by eexists _, _, cs.
  - unfold core_stopwords_ratio.
    destruct (w_stopwords_file w) as [content|] eqn:Hfile.
    + destruct Hstop as [texts [Htext Hlen]]; [eauto|].
      rewrite (recomputed_texts _ _ _ _ col texts Hat Hcol).
      2:{ split; [by rewrite Htt|]. intros col'. rewrite Hcol. intros [= <-]. by apply Hlen. }
      rsimpl.
      destruct (key_cond_Num (λ t, Num (compute_stopwords_ratio F t (lexicon_of content)))
                  (take (length col) texts)
                  (mkKey "stopwords_ratio" (slider (w_stopwords_ratio w) 0 1 0) false None))
        as [cs Hcs]; [eauto|].
      eexists _, _, [cs]. split; [done|]. simpl. by rewrite Hcs.
    + rsimpl.
      destruct (Hone "stopwords_ratio" ltac:(repeat constructor) col
                  (mkKey "stopwords_ratio" (slider (w_stopwords_ratio w) 0 1 0) false None)
                  Hcol0) as [cs Hcs].
      by eexists _, _, cs.
  - unfold core_flagged_words_ratio.
    destruct (w_flagged_words_file w) as [content|] eqn:Hfile.
    + destruct Hflag as [texts [Htext Hlen]]; [eauto|].
      rewrite (recomputed_texts _ _ _ _ col texts Hat Hcol).
      2:{ split; [by rewrite Htt|]. intros col'. rewrite Hcol. intros [= <-]. by apply Hlen. }
      rsimpl.
      destruct (key_cond_Num (λ t, Num (compute_flagged_words_ratio F t (lexicon_of content)))
                  (take (length col) texts)
                  (mkKey "flagged_words_ratio" (slider (w_flagged_words_ratio w) 0 1 1)
                     true None))
        as [cs Hcs]; [eauto|].
      eexists _, _, [cs]. split; [done|]. simpl. by rewrite Hcs.
    + rsimpl.
      destruct (Hone "flagged_words_ratio" ltac:(repeat constructor) col
                  (mkKey "flagged_words_ratio" (slider (w_flagged_words_ratio w) 0 1 1)
                     true None) Hcol0) as [cs Hcs].
      by eexists _, _, cs.
  - destruct (Hone "lang_id_score" ltac:(repeat constructor) col
                (mkKey "lang_id_score" (slider (w_lang_id_score w) 0 1 0) false None) Hcol0)
      as [cs Hcs].
    by eexists _, _, cs.
  - unfold core_perplexity_score.
    destruct (max_cutoff_Ok col) as (m & i & Hm & Hi).
    { eapply Hnum; [|done]. repeat constructor. }
    { eapply Hmax; [|done]. repeat constructor. }
    rewrite Hm. rsimpl. rewrite Hi. rsimpl.
    destruct (Hone "perplexity_score" ltac:(repeat constructor) col
                (mkKey "perplexity_score"
                   (slider (w_perplexity_score w) 0 (inject_Z (i + 1)) (inject_Z (i + 1)))
                   true None) Hcol0) as [cs Hcs].
    by eexists _, _, cs.
Qed.

(** On well-formed data the sliders return. *)
Lemma set_sliders_Ok F w self :
  well_formed w self → ∃ s, set_sliders F w self = Ok s.
Proof.
  intros Hwf. rewrite set_sliders_nf.
  apply (run_blocks_Ok (docs_frame self)); simpl; try done.
  - by apply core_succeeds_blocks.
  - apply (bool_decide_unpack _). by vm_compute.
  - apply (bool_decide_unpack _). by vm_compute.
  - by destruct Hwf.
  - intros c. apply list_columns_spec.
Qed.

(** ** Examples, and a claim that the code does not meet *)

Lemma example_self1 : open_data Example.data Example.self0 = Ok Example.self1.
Proof. vm_compute. reflexivity. Qed.

Lemma example_sliders1 :
  set_sliders Example.F Example.w_min10 Example.self1 = Ok Example.sliders1.
Proof. vm_compute. reflexivity. Qed.

Lemma example_sliders0 :
  set_sliders Example.F Example.w0 Example.self1 = Ok Example.sliders0.
Proof. vm_compute. reflexivity. Qed.

(** In the branch of [lang_id_score], the decision is taken on the local
    variable [flagged_words_ratio], and on the predicted language. *)
Lemma analyse_key_lang_id_score F self personal_doc l key :
  key_0 key = "lang_id_score" →
  analyse_key F self personal_doc l key
  = (ratio ← read_flagged_words_ratio l;
     Ok (discard_if
           (is_doc_discarded key ratio
            || negb (String.eqb (lang_dataset_id self)
                       (compute_lang_id_pred_score F personal_doc).1)) l)).
Proof.
  intros H. unfold analyse_key. rewrite H. simpl.
  by destruct (compute_lang_id_pred_score F personal_doc).
Qed.

(** C1, the code at a failing input.  The pasted document gets the
    language "en", the language of the data, with the confidence 0.2, under
    the cutoff 0.5 of the rule, so the rule of the claim discards it; its
    flagged-words ratio is 0.6.  The page says that the document is not
    discarded: the test is made on the flagged-words ratio, 0.6 >= 0.5.
    On data without a flagged-words ratio the same probe raises
    [UnboundLocalError]. *)
Theorem C1_lang_id_probe_tests_flagged_words_ratio :
  let lang_key := mkKey "lang_id_score" (1 # 2) false None in
  let score := round3 (compute_lang_id_pred_score Example.F "some text").2 in
  (∃ self page,
     visualization Example.F Example.w_probe Example.data_probe Example.self0
     = Ok (self, page, Some false) ∧
     keys self = [mkKey "flagged_words_ratio" 1 true None; lang_key] ∧
     is_doc_discarded lang_key score = true ∧
     (compute_lang_id_pred_score Example.F "some text").1 = lang_dataset_id self) ∧
  visualization Example.F Example.w_probe Example.data_lang_only Example.self0
  = Raise UnboundLocalError.
Proof.
  split.
  - eexists _, _. split_and!.
    + vm_compute. reflexivity.
    + vm_compute. reflexivity.
    + vm_compute. reflexivity.
    + vm_compute. reflexivity.
  - vm_compute. reflexivity.
Qed.

(** The sliders never call [compute_repetitions_ratio]: the ratios of the
    documents come from the data. *)
Lemma set_sliders_reads_the_cache F F' w self :
  compute_stopwords_ratio F = compute_stopwords_ratio F' →
  compute_flagged_words_ratio F = compute_flagged_words_ratio F' →
  set_sliders F w self = set_sliders F' w self.
Proof. destruct F, F'. simpl. by intros -> ->. Qed.

Lemma subscript_Num c name v : subscript c name = Ok v → ∃ q, v = Num q.
Proof.
  destruct c as [| | |d|]; try discriminate. destruct name as [n|]; [|discriminate].
  simpl. destruct (dict_get d n) as [q|]; [|discriminate]. intros [= <-]. eauto.
Qed.

(** When [docs] and [docs_checkpoint] name one frame, the checkpoint holds
    after the sliders what [docs] holds: numbers in the repetitions column,
    whatever dictionaries it held before. *)
Lemma checkpoint_follows_docs F w self s col :
  docs self = docs_checkpoint self →
  set_sliders F w self = Ok s →
  docs_frame self !! "repetitions_ratio" = Some col →
  frame_of (sl_self s) (docs_checkpoint (sl_self s)) = docs_frame (sl_self s) ∧
  ∃ newcol, docs_frame (sl_self s) !! "repetitions_ratio" = Some newcol ∧
    Forall (λ c, ∃ q, c = Num q) newcol.
Proof.
  intros Ha Hs Hcol. rewrite set_sliders_nf in Hs.
  change (blocks F w) with (take 1 (blocks F w) ++ drop 1 (blocks F w)) in Hs.
  rewrite run_blocks_app in Hs. apply bind_Ok_inv in Hs as (s1 & H1 & Hs).
  change (drop 1 (blocks F w))
    with (("repetitions_ratio", core_repetitions_ratio w) :: drop 2 (blocks F w)) in Hs.
  change (run_blocks ?c (?b :: ?bs) s1)
    with (t ← block_nf c b.1 b.2 s1; run_blocks c bs t) in Hs.
  apply bind_Ok_inv in Hs as (s2 & H2 & Hs).
  destruct (run_blocks_frame _ _ _ _ H1) as (Hd1 & Hc1 & Hf1).
  destruct (run_blocks_frame _ _ _ _ Hs) as (Hd & Hc & Hf).
  simpl in Hd1, Hc1, Hf1.
  assert (docs_frame (sl_self s1) !! "repetitions_ratio" = Some col) as Hcol1.
  { rewrite Hf1; [done|]. apply (bool_decide_unpack _). by vm_compute. }
  apply block_nf_inv in H2
    as [[Hnot _]|(_ & col' & newcol & ks & cs & _ & Hcore & _ & ->)].
  { exfalso. apply Hnot. apply list_columns_spec. eauto. }
  simpl in *. split.
  - unfold docs_frame. congruence.
  - exists newcol. split.
    + rewrite Hf by (apply (bool_decide_unpack _); by vm_compute).
      rewrite docs_frame_setitem by (by eapply docs_frame_valid).
      apply lookup_insert_eq.
    + unfold core_repetitions_ratio in Hcore.
      apply bind_Ok_inv in Hcore as (? & _ & Hcore).
      apply bind_Ok_inv in Hcore as (? & _ & Hcore).
      apply bind_Ok_inv in Hcore as (ck & _ & Hcore).
      apply bind_Ok_inv in Hcore as (nc & Hnc & [= <- _]).
      apply traverse_Forall2 in Hnc.
      apply Forall_forall. intros c Hin.
      apply list_elem_of_lookup in Hin as [j Hj].
      destruct (Forall2_lookup_r _ _ _ _ _ Hnc Hj) as (i & _ & Hi).
      apply bind_Ok_inv in Hi as (c0 & _ & Hsub). by eapply subscript_Num.
Qed.

Lemma example_has_texts name :
  has_texts (docs_frame Example.self1) name
    ["the the cat"; "a much longer text about the cat and the dog"].
Proof.
  split; [vm_compute; reflexivity|]. intros col Hcol.
  assert (∀ c, Example.doc_a !! c = None → Example.doc_b !! c = None →
               docs_frame Example.self1 !! c = None) as Hnone.
  { intros c Ha Hb. change (docs_frame Example.self1)
      with (DataFrame [Example.doc_a; Example.doc_b]).
    unfold DataFrame. apply eq_None_not_Some. intros [x Hx].
    apply lookup_set_to_map in Hx as (c' & Hc' & [= <- <-]); [|by intros ?? _ _ [= ->]].
    apply elem_of_union_list in Hc' as (X & HX & Hc').
    apply list_elem_of_fmap in HX as (d & -> & Hd). apply elem_of_dom in Hc'.
    repeat (apply elem_of_cons in Hd as [->|Hd]; [rewrite ?Ha, ?Hb in Hc'; by destruct Hc'|]).
    by apply elem_of_nil in Hd. }
  assert (length col = 2%nat); [|simpl; lia].
  change (docs_frame Example.self1) with (DataFrame [Example.doc_a; Example.doc_b]) in Hcol.
  unfold DataFrame in Hcol.
  apply lookup_set_to_map in Hcol as (c' & _ & [= <- <-]); [done|by intros ?? _ _ [= ->]].
Qed.

(** The sample, with a lexicon uploaded, is well formed. *)
Lemma example_well_formed :
  well_formed (upload_stopwords Example.w_min10 "the") Example.self1.
Proof.
  split_and!.
  - reflexivity.
  - intros name col Hname Hcol.
    repeat (apply elem_of_cons in Hname as [->|Hname]);
      [..|exfalso; exact (proj1 (elem_of_nil _) Hname)];
      vm_compute in Hcol; first [discriminate Hcol|injection Hcol as <-; by repeat constructor].
  - intros name col Hname Hcol.
    repeat (apply elem_of_cons in Hname as [->|Hname]);
      [..|exfalso; exact (proj1 (elem_of_nil _) Hname)];
      vm_compute in Hcol; first [discriminate Hcol|injection Hcol as <-; by repeat constructor].
  - intros col Hcol. vm_compute in Hcol. injection Hcol as <-.
    eexists _, _. split; [reflexivity|].
    apply Forall_cons_2; [|apply Forall_cons_2; [|apply Forall_nil_2]];
      (eexists _, _; split; [reflexivity|vm_compute; reflexivity]).
  - intros _. eexists. apply example_has_texts.
  - intros [? [=]].
Qed.

Lemma example_sliders_return :
  ∃ s, set_sliders Example.F (upload_stopwords Example.w_min10 "the") Example.self1 = Ok s.
Proof. apply set_sliders_Ok, example_well_formed. Qed.

Lemma C9_lexicon_swap_is_local_witness :
  let texts := ["the the cat"; "a much longer text about the cat and the dog"] in
  (∃ s', set_sliders Example.F (upload_stopwords Example.w0 "the") Example.self1 = Ok s' ∧
     swapped "stopwords_ratio" (compute_stopwords_ratio Example.F) "the" texts
       Example.self1 Example.sliders0 s') ∧
  (∃ s', set_sliders Example.F (upload_flagged_words Example.w0 "the") Example.self1 = Ok s' ∧
     swapped "flagged_words_ratio" (compute_flagged_words_ratio Example.F) "the" texts
       Example.self1 Example.sliders0 s').
Proof.
  pose proof (C9_lexicon_swap_is_local Example.F Example.w0 Example.self1 Example.sliders0
                "the" ["the the cat"; "a much longer text about the cat and the dog"]
                eq_refl example_sliders0) as [H1 H2].
  split; [apply H1|apply H2]; apply example_has_texts.
Defined.

(** The sample of the specification: with the stop-word list {the}, the
    ratio of "the the cat" is recomputed to 2/3. *)
Lemma example_swap_ratio :
  (∃ s', set_sliders Example.F (upload_stopwords Example.w0 "the") Example.self1 = Ok s' ∧
     value_at (docs_frame (sl_self s')) "stopwords_ratio" 0
     = Some (Num (Example.ratio_in "the the cat" {["the"]}))) ∧
  (Example.ratio_in "the the cat" {["the"]} == 2 # 3)%Q.
Proof.
  split; [eexists; split; vm_compute; reflexivity|]. vm_compute. reflexivity.
Qed.
(** ** Opening the data *)

Lemma traverse_Raise {A B} (f : A → result B) l e :
  traverse f l = Raise e → ∃ x, x ∈ l ∧ f x = Raise e.
Proof.
  induction l as [|a l IH]; simpl; [discriminate|].
  destruct (f a) as [y|e'] eqn:Ha; rsimpl.
  - destruct (traverse f l) as [ys|e'']; rsimpl; [discriminate|].
    intros [= ->]. destruct IH as (x & Hx & ?); [done|]. exists x. split; [by right|done].
  - intros [= ->]. exists a. split; [left|done].
Qed.

Lemma traverse_Ok {A B} (f : A → result B) l :
  Forall (λ x, ∃ y, f x = Ok y) l → ∃ r, traverse f l = Ok r.
Proof.
  induction 1 as [|x l [y Hy] _ [r IH]]; simpl; [eauto|].
  rewrite Hy. rsimpl. rewrite IH. rsimpl. eauto.
Qed.

Lemma DataFrame_lookup docs c :
  DataFrame docs !! c =
  if bool_decide (Exists (λ doc : gmap string cell, is_Some (doc !! c)) docs)
  then Some ((λ doc : gmap string cell, default NaN (doc !! c)) <$> docs)
  else None.
Proof.
  unfold DataFrame. case_bool_decide as Hex.
  - apply lookup_set_to_map; [by intros ?? _ _ [= ->]|].
    exists c. split; [|done]. apply elem_of_union_list.
    apply Exists_exists in Hex as (doc & Hdoc & Hc).
    exists (dom doc). split; [|by apply elem_of_dom].
    apply list_elem_of_fmap. eauto.
  - apply eq_None_not_Some. intros [x Hx]. apply Hex.
    apply lookup_set_to_map in Hx as (c' & Hc' & [= <- <-]); [|by intros ?? _ _ [= ->]].
    apply elem_of_union_list in Hc' as (X & HX & Hc').
    apply list_elem_of_fmap in HX as (doc & -> & Hdoc).
    apply Exists_exists. exists doc. split; [done|]. by apply elem_of_dom.
Qed.

Lemma prepare_doc_inv has_words max_len doc doc' :
  prepare_doc has_words max_len doc = Ok doc' →
  (has_words = true → is_Some (doc !! "words")) ∧
  is_Some (doc !! "text") ∧
  doc' !! "words" = (if has_words then None else doc !! "words") ∧
  (∀ c, c ≠ "words" → c ≠ "text" → doc' !! c = doc !! c) ∧
  (∀ text, doc !! "text" = Some (Str text) →
     doc' !! "text"
     = Some (Str (if bool_decide (max_len < String.length text)%nat
                  then substring 0 max_len text +:+ truncation_notice
                  else text))).
Proof.
  unfold prepare_doc. intros H. apply bind_Ok_inv in H as (d1 & H1 & H).
  assert ((has_words = true → is_Some (doc !! "words")) ∧
          d1 !! "words" = (if has_words then None else doc !! "words") ∧
          ∀ c, c ≠ "words" → d1 !! c = doc !! c) as (Hw & Hd1w & Hd1).
  { destruct has_words.
    - destruct (doc !! "words") as [cw|] eqn:Hwords; [|discriminate]. injection H1 as <-.
      split_and!; [eauto|apply lookup_delete_eq|].
      intros c' Hc. by rewrite lookup_delete_ne.
    - injection H1 as <-. done. }
  rewrite <- (Hd1 "text") by done.
  destruct (d1 !! "text") as [c|] eqn:Htext; [|discriminate].
  split_and!; [done|eauto|..].
  - destruct c as [| |text|d|ws]; try discriminate;
      repeat case_bool_decide; try discriminate; injection H as <-; try done.
    by rewrite lookup_insert_ne.
  - intros c' Hc1 Hc2. rewrite <- Hd1 by done.
    destruct c as [| |text|d|ws]; try discriminate;
      repeat case_bool_decide; try discriminate; injection H as <-; try done.
    by rewrite lookup_insert_ne.
  - intros text [= ->]. case_bool_decide; injection H as <-; [|done].
    by rewrite lookup_insert_eq.
Qed.

Lemma open_data_inv data self self' :
  open_data data self = Ok self' →
  ∃ d0 docs',
    head data = Some d0 ∧
    traverse (prepare_doc (bool_decide (is_Some (words self'))) (max_len_text_display self))
      (take (Nat.min (num_docs self) (length data)) data) = Ok docs' ∧
    (if bool_decide (is_Some (d0 !! "words"))
     then ∃ wss, traverse words_of
                   (take (Nat.min (num_docs_for_words self) (length data)) data) = Ok wss ∧
                 words self' = Some (concat wss)
     else words self' = None) ∧
    self' = mkSelf (lang_dataset_id self) (max_len_text_display self) (stopwords self)
              (flagged_words self) (Nat.min (num_docs self) (length data))
              (Nat.min (num_docs_for_words self) (length data))
              (heap self ++ [DataFrame docs']) (length (heap self)) (length (heap self))
              (words self') (keys self) (parameters self).
Proof.
  unfold open_data. intros H. apply bind_Ok_inv in H as (d0 & Hd0 & H).
  apply bind_Ok_inv in H as (ws & Hws & H).
  apply bind_Ok_inv in H as (docs' & Hdocs & [= <-]). simpl.
  exists d0, docs'. split_and!; [|done| |done].
  - destruct data; [discriminate|]. by injection Hd0 as ->.
  - destruct (bool_decide (is_Some (d0 !! "words"))).
    + apply bind_Ok_inv in Hws as (wss & Hwss & [= <-]). eauto.
    + by injection Hws as <-.
Qed.

Lemma open_data_frame data self self' :
  open_data data self = Ok self' →
  ∃ docs',
    traverse (prepare_doc (bool_decide (is_Some (words self'))) (max_len_text_display self))
      (take (num_docs self') data) = Ok docs' ∧
    docs_frame self' = DataFrame docs'.
Proof.
  intros (d0 & docs' & _ & Hdocs & _ & Heq)%open_data_inv.
  exists docs'.
  assert (num_docs self' = Nat.min (num_docs self) (length data)) as ->
    by (by rewrite Heq).
  split; [done|]. unfold docs_frame, frame_of.
  assert (heap self' = heap self ++ [DataFrame docs']) as -> by (by rewrite Heq).
  assert (docs self' = length (heap self)) as -> by (by rewrite Heq).
  by rewrite lookup_app_r, Nat.sub_diag by lia.
Qed.

Lemma length_append (s1 s2 : string) :
  String.length (s1 +:+ s2) = (String.length s1 + String.length s2)%nat.
Proof. induction s1 as [|c s1 IH]; simpl; [done|]. by rewrite IH. Qed.

Lemma length_substring_0 n (s : string) :
  (String.length (substring 0 n s) ≤ n)%nat.
Proof.
  revert s. induction n as [|n IH]; intros [|c s]; simpl; try lia.
  specialize (IH s). lia.
Qed.

(** X6.  After [open_data], [docs] and [docs_checkpoint] name one and the
    same new data frame; [num_docs] is the smaller of the number asked for
    and the number of documents of the file; every column of the frame has
    [num_docs] rows; the frames that existed before, the keys and the
    parameters are as they were. *)
Theorem X6_open_data_shape data self self' :
  open_data data self = Ok self' →
  docs self' = docs_checkpoint self' ∧
  docs self' = length (heap self) ∧
  num_docs self' = Nat.min (num_docs self) (length data) ∧
  num_docs_for_words self' = Nat.min (num_docs_for_words self) (length data) ∧
  (∀ c col, docs_frame self' !! c = Some col → length col = num_docs self') ∧
  (∀ r, (r < length (heap self))%nat → heap self' !! r = heap self !! r) ∧
  keys self' = keys self ∧ parameters self' = parameters self.
Proof.
  intros H. destruct (open_data_frame _ _ _ H) as (docs' & Hdocs & Hframe).
  apply open_data_inv in H as (d0 & docs'' & _ & _ & _ & Heq).
  assert (num_docs self' = Nat.min (num_docs self) (length data)) as Hn
    by (by rewrite Heq).
  split_and!; try (by rewrite Heq).
  - intros c col. rewrite Hframe, DataFrame_lookup.
    destruct (bool_decide (Exists _ docs')); [|by intros [=]]. intros [= <-].
    rewrite length_fmap, (traverse_length _ _ _ Hdocs), length_take. lia.
  - intros r Hr. rewrite Heq. simpl. by rewrite lookup_app_l.
Qed.

Lemma X6_open_data_shape_witness :
  docs Example.self1 = docs_checkpoint Example.self1 ∧
  docs Example.self1 = length (heap Example.self0) ∧
  num_docs Example.self1 = Nat.min (num_docs Example.self0) (length Example.data) ∧
  num_docs_for_words Example.self1
  = Nat.min (num_docs_for_words Example.self0) (length Example.data) ∧
  (∀ c col, docs_frame Example.self1 !! c = Some col → length col = num_docs Example.self1) ∧
  (∀ r, (r < length (heap Example.self0))%nat →
        heap Example.self1 !! r = heap Example.self0 !! r) ∧
  keys Example.self1 = keys Example.self0 ∧
  parameters Example.self1 = parameters Example.self0.
Proof.
  apply (X6_open_data_shape Example.data Example.self0 Example.self1).
  vm_compute. reflexivity.
Defined.

Lemma ascii_text_append (s1 s2 : string) :
  ascii_text (s1 +:+ s2) = ascii_text s1 && ascii_text s2.
Proof.
  induction s1 as [|c s1 IH]; simpl; [done|]. by rewrite IH, andb_assoc.
Qed.

Lemma ascii_text_substring_0 n (s : string) :
  ascii_text s = true → ascii_text (substring 0 n s) = true.
Proof.
  revert s. induction n as [|n IH]; intros [|c s]; simpl; try done.
  intros [Hc Hs]%andb_true_iff. rewrite Hc. simpl. by apply IH.
Qed.

(** X7.  A text of ASCII characters is shown as it is when it has at
    most [max_len_text_display] characters; a longer one is cut to its
    first [max_len_text_display] characters, followed by the notice; so
    such a text, as shown, is never longer than that bound plus the length
    of the notice, and it is a text of ASCII characters again. *)
Theorem X7_open_data_truncates_text data self self' i doc text :
  open_data data self = Ok self' →
  data !! i = Some doc → (i < num_docs self')%nat →
  doc !! "text" = Some (Str text) →
  ascii_text text = true →
  let max_len := max_len_text_display self in
  let shown := if bool_decide (max_len < String.length text)%nat
               then substring 0 max_len text +:+ truncation_notice
               else text in
  value_at (docs_frame self') "text" i = Some (Str shown) ∧
  (String.length shown ≤ max_len + String.length truncation_notice)%nat ∧
  ascii_text shown = true.
Proof.
  intros H Hi Hlt Htext Hascii max_len shown.
  destruct (open_data_frame _ _ _ H) as (docs' & Hdocs & Hframe). split_and!.
  - assert (take (num_docs self') data !! i = Some doc) as Hi'
      by (by rewrite lookup_take_lt).
    destruct (traverse_lookup _ _ _ _ _ Hdocs Hi') as (doc' & Hdoc' & Hi'').
    apply prepare_doc_inv in Hdoc' as (_ & _ & _ & _ & Ht). specialize (Ht _ Htext).
    unfold value_at. rewrite Hframe, DataFrame_lookup.
    rewrite bool_decide_eq_true_2.
    + simpl. rewrite list_lookup_fmap, Hi''. simpl. by rewrite Ht.
    + apply Exists_exists. exists doc'. split; [by eapply list_elem_of_lookup_2|].
      rewrite Ht. eauto.
  - unfold shown. clear Hdocs Hframe. case_bool_decide.
    + rewrite length_append. pose proof (length_substring_0 max_len text). lia.
    + lia.
  - unfold shown. clear Hdocs Hframe. case_bool_decide; [|done].
    rewrite ascii_text_append, ascii_text_substring_0 by done. by vm_compute.
Qed.

Lemma X7_open_data_truncates_text_witness :
  let self := mkSelf "en" 7 ∅ ∅ 100 100 [] 0 0 None [] [] in
  ∃ self', open_data Example.data self = Ok self' ∧
    value_at (docs_frame self') "text" 0
    = Some (Str ("the the" +:+ truncation_notice)) ∧
    (String.length ("the the" +:+ truncation_notice) ≤ 7 + String.length truncation_notice)%nat ∧
    ascii_text ("the the" +:+ truncation_notice) = true.
Proof.
  eexists. split; [vm_compute; reflexivity|].
  apply (X7_open_data_truncates_text Example.data
           (mkSelf "en" 7 ∅ ∅ 100 100 [] 0 0 None [] []) _ 0%nat Example.doc_a "the the cat").
  - vm_compute. reflexivity.
  - reflexivity.
  - vm_compute. lia.
  - vm_compute. reflexivity.
  - vm_compute. reflexivity.
Defined.

(** X8.  Apart from the text and the words, the frame holds what the file
    holds: a column for every key that some shown document has, with the
    value of each document in its row and a missing value where a document
    has no such key; and no column for a key that no shown document has. *)
Theorem X8_open_data_copies_signals data self self' c :
  open_data data self = Ok self' →
  c ≠ "text" → c ≠ "words" →
  let shown := take (num_docs self') data in
  docs_frame self' !! c =
  if bool_decide (Exists (λ doc : gmap string cell, is_Some (doc !! c)) shown)
  then Some ((λ doc : gmap string cell, default NaN (doc !! c)) <$> shown)
  else None.
Proof.
  intros H Hc1 Hc2 shown.
  destruct (open_data_frame _ _ _ H) as (docs' & Hdocs & Hframe). fold shown in Hdocs.
  rewrite Hframe, DataFrame_lookup.
  apply traverse_Forall2 in Hdocs.
  assert (Forall2 (λ doc doc' : gmap string cell, doc' !! c = doc !! c) shown docs') as Hsame.
  { eapply Forall2_impl; [exact Hdocs|]. intros doc doc' Hp. simpl in Hp.
    apply prepare_doc_inv in Hp as (_ & _ & _ & Hp & _). by apply Hp. }
  clear Hdocs Hframe H. clearbody shown.
  assert ((λ doc : gmap string cell, default NaN (doc !! c)) <$> docs'
          = (λ doc : gmap string cell, default NaN (doc !! c)) <$> shown) as ->.
  { induction Hsame as [|doc doc' l l' Hd _ IH]; [done|].
    rewrite !fmap_cons. by rewrite Hd, IH. }
  assert (Exists (λ doc : gmap string cell, is_Some (doc !! c)) docs'
          ↔ Exists (λ doc : gmap string cell, is_Some (doc !! c)) shown) as Hex.
  { induction Hsame as [|doc doc' l l' Hd _ IH]; [split; by intros ?%Exists_nil|].
    by rewrite !Exists_cons, Hd, IH. }
  by rewrite (bool_decide_ext _ _ Hex).
Qed.

Lemma X8_open_data_copies_signals_witness :
  let shown := take (num_docs Example.self1) Example.data in
  docs_frame Example.self1 !! "number_words" =
  if bool_decide (Exists (λ doc : gmap string cell, is_Some (doc !! "number_words")) shown)
  then Some ((λ doc : gmap string cell, default NaN (doc !! "number_words")) <$> shown)
  else None.
Proof.
  apply (X8_open_data_copies_signals Example.data Example.self0 Example.self1 "number_words").
  - vm_compute. reflexivity.
  - intros H. discriminate H.
  - intros H. discriminate H.
Defined.

(** X9.  The table of words is made when the first document of the file
    has words, and then holds the words of the first [num_docs_for_words]
    documents, one after the other, while the frame of the documents has no
    column of words; when the first document has no words there is no
    table. *)
Theorem X9_open_data_words data self self' :
  open_data data self = Ok self' →
  ∃ d0, head data = Some d0 ∧
    match words self' with
    | Some ws =>
        is_Some (d0 !! "words") ∧
        (∃ wss, traverse words_of (take (num_docs_for_words self') data) = Ok wss ∧
                ws = concat wss) ∧
        docs_frame self' !! "words" = None
    | None => d0 !! "words" = None
    end.
Proof.
  intros H. destruct (open_data_frame _ _ _ H) as (docs' & Hdocs & Hframe).
  apply open_data_inv in H as (d0 & docs'' & Hd0 & _ & Hw & Heq).
  exists d0. split; [done|].
  assert (num_docs_for_words self' = Nat.min (num_docs_for_words self) (length data)) as ->
    by (by rewrite Heq).
  destruct (bool_decide_reflect (is_Some (d0 !! "words"))) as [Hs|Hn].
  - destruct Hw as (wss & Hwss & Hws). rewrite Hws in *. split_and!; [done|eauto|].
    rewrite Hframe, DataFrame_lookup. rewrite bool_decide_eq_false_2; [done|].
    intros (doc' & Hdoc' & Hsome)%Exists_exists.
    apply list_elem_of_lookup in Hdoc' as [i Hi].
    apply traverse_Forall2 in Hdocs.
    destruct (Forall2_lookup_r _ _ _ _ _ Hdocs Hi) as (doc & _ & Hp).
    rewrite bool_decide_eq_true_2 in Hp by eauto.
    apply prepare_doc_inv in Hp as (_ & _ & Hnone & _).
    rewrite Hnone in Hsome. by destruct Hsome.
  - rewrite Hw. by apply eq_None_not_Some.
Qed.

Lemma X9_open_data_words_witness :
  ∃ d0, head Example.data_words = Some d0 ∧
    match words Example.self_words with
    | Some ws =>
        is_Some (d0 !! "words") ∧
        (∃ wss, traverse words_of
                  (take (num_docs_for_words Example.self_words) Example.data_words) = Ok wss ∧
                ws = concat wss) ∧
        docs_frame Example.self_words !! "words" = None
    | None => d0 !! "words" = None
    end.
Proof.
  apply (X9_open_data_words Example.data_words Example.self0 Example.self_words).
  vm_compute. reflexivity.
Defined.

Lemma take_min_length {A} n (l : list A) : take (Nat.min n (length l)) l = take n l.
Proof.
  destruct (decide (n ≤ length l)%nat); [by rewrite Nat.min_l|].
  rewrite Nat.min_r by lia. by rewrite !take_ge by lia.
Qed.

Lemma words_of_not_IndexError doc : words_of doc ≠ Raise IndexError.
Proof. unfold words_of. by repeat case_match. Qed.

Lemma prepare_doc_not_IndexError has_words max_len doc :
  prepare_doc has_words max_len doc ≠ Raise IndexError.
Proof.
  unfold prepare_doc.
  destruct has_words; [destruct (doc !! "words"); rsimpl; [|done]|rsimpl];
    repeat case_match; done.
Qed.

(** X10.  [open_data] fails with [IndexError] exactly when the file holds
    no document. *)
Theorem X10_open_data_empty_file data self :
  open_data data self = Raise IndexError ↔ data = [].
Proof.
  split; [|by intros ->].
  destruct data as [|d0 data]; [done|]. unfold open_data. rsimpl. intros H. exfalso.
  destruct (bool_decide (is_Some (d0 !! "words"))); rsimpl_in H.
  - destruct (traverse words_of _) as [wss|e] eqn:Hw; rsimpl_in H.
    + destruct (traverse (prepare_doc _ _) _) as [docs'|e] eqn:Hp; rsimpl_in H; [done|].
      injection H as ->. apply traverse_Raise in Hp as (doc & _ & Hp).
      by apply prepare_doc_not_IndexError in Hp.
    + injection H as ->. apply traverse_Raise in Hw as (doc & _ & Hw).
      by apply words_of_not_IndexError in Hw.
  - destruct (traverse (prepare_doc _ _) _) as [docs'|e] eqn:Hp; rsimpl_in H; [done|].
    injection H as ->. apply traverse_Raise in Hp as (doc & _ & Hp).
    by apply prepare_doc_not_IndexError in Hp.
Qed.

(** X11.  [open_data] returns when the file holds a document, every shown
    document has a text that is a string, and, should the first document
    have words, every document that is shown or whose words are taken has a
    list of words. *)
Theorem X11_open_data_returns data self :
  data ≠ [] →
  Forall (λ doc : gmap string cell, ∃ text, doc !! "text" = Some (Str text))
    (take (num_docs self) data) →
  (∀ d0, head data = Some d0 → is_Some (d0 !! "words") →
     Forall (λ doc : gmap string cell, ∃ ws, doc !! "words" = Some (Words ws))
       (take (Nat.max (num_docs self) (num_docs_for_words self)) data)) →
  ∃ self', open_data data self = Ok self'.
Proof.
  intros Hne Htext Hwords. destruct data as [|d0 data]; [done|].
  unfold open_data. rsimpl. specialize (Hwords d0 eq_refl).
  set (all := d0 :: data) in *.
  assert (∀ has_words,
            (has_words = true → is_Some (d0 !! "words")) →
            ∃ docs', traverse (prepare_doc has_words (max_len_text_display self))
                       (take (Nat.min (num_docs self) (length all)) all) = Ok docs') as Hp.
  { intros has_words Hhas. apply traverse_Ok. rewrite take_min_length.
    apply Forall_forall. intros doc Hdoc.
    destruct (proj1 (Forall_forall _ _) Htext doc Hdoc) as [text Ht].
    unfold prepare_doc. destruct has_words.
    - specialize (Hwords (Hhas eq_refl)).
      assert (doc ∈ take (Nat.max (num_docs self) (num_docs_for_words self)) all) as Hin.
      { apply list_elem_of_lookup in Hdoc as [i Hi].
        apply lookup_take_Some in Hi as [Hi Hlt].
        apply list_elem_of_lookup. exists i. apply lookup_take_Some. split; [done|lia]. }
      destruct (proj1 (Forall_forall _ _) Hwords doc Hin) as [ws Hws].
      rewrite Hws. rsimpl. rewrite lookup_delete_ne by done. rewrite Ht.
      case_bool_decide; eauto.
    - rsimpl. rewrite Ht. case_bool_decide; eauto. }
  destruct (bool_decide_reflect (is_Some (d0 !! "words"))) as [Hs|Hn].
  - assert (∃ wss, traverse words_of
                     (take (Nat.min (num_docs_for_words self) (length all)) all) = Ok wss)
      as [wss ->].
    { apply traverse_Ok. rewrite take_min_length.
      apply Forall_forall. intros doc Hdoc.
      assert (doc ∈ take (Nat.max (num_docs self) (num_docs_for_words self)) all) as Hin.
      { apply list_elem_of_lookup in Hdoc as [i Hi].
        apply lookup_take_Some in Hi as [Hi Hlt].
        apply list_elem_of_lookup. exists i. apply lookup_take_Some. split; [done|lia]. }
      destruct (proj1 (Forall_forall _ _) (Hwords Hs) doc Hin) as [ws Hws].
      unfold words_of. rewrite Hws. eauto. }
    rsimpl. destruct (Hp (bool_decide (is_Some (Some (concat wss))))) as [docs' ->]; [done|].
    rsimpl. eauto.
  - rsimpl. destruct (Hp (bool_decide (is_Some (@None (list Word))))) as [docs' ->].
    { intros Hb%bool_decide_eq_true. by destruct Hb. }
    rsimpl. eauto.
Qed.

Lemma X11_open_data_returns_witness :
  ∃ self', open_data Example.data Example.self0 = Ok self'.
Proof.
  apply (X11_open_data_returns Example.data Example.self0).
  - intros H. discriminate H.
  - repeat constructor; eexists; vm_compute; reflexivity.
  - intros d0 [= <-] [x Hx]. vm_compute in Hx. discriminate Hx.
Defined.

(** ** The sliders, block by block *)

(** The keys and the conditions that a run of blocks adds carry the names
    of its blocks. *)
Lemma run_blocks_added columns bs :
  Forall (λ b, names_keys b.1 b.2) bs →
  ∀ s s', run_blocks columns bs s = Ok s' →
    (∃ ks, sl_keys s' = sl_keys s ++ ks ∧ Forall (λ k, key_0 k ∈ bs.*1) ks) ∧
    (∀ n, n ∉ bs.*1 → dict_get (sl_conds s') n = dict_get (sl_conds s) n).
Proof.
  unfold run_blocks. induction bs as [|[name core] bs IH]; intros Hn s s' Hrun; simpl in *.
  - injection Hrun as <-. split; [|done]. exists []. by rewrite app_nil_r.
  - apply Forall_cons in Hn as [Hn1 Hn]. apply bind_Ok_inv in Hrun as (s1 & H1 & Hrun).
    destruct (IH Hn _ _ Hrun) as ((ks' & Hks' & Hall') & Hc').
    apply block_nf_inv in H1
      as [[_ ->]|(_ & col & newcol & ks & cs & Hcol & Hcore & _ & ->)].
    + split.
      * exists ks'. split; [done|]. eapply Forall_impl; [exact Hall'|]. intros k ?. by right.
      * intros n [_ Hn']%not_elem_of_cons. by apply Hc'.
    + simpl in *. split.
      * exists (ks ++ ks'). split; [by rewrite Hks', (assoc_L (++))|].
        apply Forall_app. split.
        -- apply Hn1 in Hcore. eapply Forall_impl; [exact Hcore|]. intros k ->. left.
        -- eapply Forall_impl; [exact Hall'|]. intros k ?. by right.
      * intros n [Hne Hn']%not_elem_of_cons. rewrite (Hc' n Hn'), dict_get_dict_set.
        by rewrite decide_False.
Qed.

(** What one block of a run does: it reads its column as it was at the
    start, and what it leaves (its column, its keys, its conditions) is
    there at the end. *)
Lemma run_blocks_block columns pre name core post s s' :
  Forall (λ b, names_keys b.1 b.2) (pre ++ (name, core) :: post) →
  NoDup (pre ++ (name, core) :: post).*1 →
  run_blocks columns (pre ++ (name, core) :: post) s = Ok s' →
  Forall (λ k, key_0 k ≠ name) (sl_keys s) →
  name ∈ columns →
  ∃ t col newcol ks cs,
    run_blocks columns pre s = Ok t ∧
    docs_frame (sl_self s) !! name = Some col ∧
    docs_frame (sl_self t) !! name = Some col ∧
    core (sl_self t) col = Ok (newcol, ks) ∧
    traverse (key_cond newcol) ks = Ok cs ∧
    docs_frame (sl_self s') !! name = Some newcol ∧
    keys_named name (sl_keys s') = ks ∧
    dict_get (sl_conds s') name = Ok cs.
Proof.
  intros Hn Hnd Hrun Hfresh Hin.
  rewrite fmap_app, fmap_cons in Hnd. simpl in Hnd.
  apply NoDup_app in Hnd as (_ & Hpre & Hnd). apply NoDup_cons in Hnd as [Hpost _].
  assert (name ∉ pre.*1) as Hpre' by (intros H; apply (Hpre _ H); left).
  apply Forall_app in Hn as [Hnpre Hn]. apply Forall_cons in Hn as [Hncore Hnpost].
  rewrite run_blocks_app in Hrun. apply bind_Ok_inv in Hrun as (t & Ht & Hrun).
  unfold run_blocks in Hrun. simpl in Hrun. apply bind_Ok_inv in Hrun as (s1 & H1 & Hrun).
  fold (run_blocks columns post s1) in Hrun.
  destruct (run_blocks_frame _ _ _ _ Ht) as (_ & _ & Hft).
  destruct (run_blocks_frame _ _ _ _ Hrun) as (_ & _ & Hfs).
  destruct (run_blocks_added _ _ Hnpre _ _ Ht) as ((kpre & Hkpre & Hallpre) & _).
  destruct (run_blocks_added _ _ Hnpost _ _ Hrun) as ((kpost & Hkpost & Hallpost) & Hcpost).
  apply block_nf_inv in H1
    as [[Hnot _]|(_ & col & newcol & ks & cs & Hcol & Hcore & Hcs & ->)]; [done|].
  simpl in *. exists t, col, newcol, ks, cs. split_and!; try done.
  - by rewrite <- Hft.
  - rewrite (Hfs name Hpost).
    rewrite docs_frame_setitem by (by eapply docs_frame_valid). apply lookup_insert_eq.
  - rewrite Hkpost, Hkpre. unfold keys_named. rewrite !filter_app.
    fold (keys_named name (sl_keys s)) (keys_named name kpre) (keys_named name ks)
      (keys_named name kpost).
    rewrite (keys_named_none _ _ Hfresh), (keys_named_all _ ks) by (by eapply Hncore).
    rewrite !keys_named_none; [by rewrite app_nil_r| |].
    + eapply Forall_impl; [exact Hallpost|]. intros k Hk Heq. simpl in Hk. by rewrite Heq in Hk.
    + eapply Forall_impl; [exact Hallpre|]. intros k Hk Heq. simpl in Hk. by rewrite Heq in Hk.
  - rewrite (Hcpost name Hpost), dict_get_dict_set. by rewrite decide_True.
Qed.

Lemma blocks_NoDup F w : NoDup (blocks F w).*1.
Proof. apply (bool_decide_unpack _). by vm_compute. Qed.

(** The same for a block of [set_sliders]. *)
Lemma set_sliders_block F w self s pre name core post :
  blocks F w = pre ++ (name, core) :: post →
  set_sliders F w self = Ok s →
  is_Some (docs_frame self !! name) →
  ∃ t col newcol ks cs,
    run_blocks (list_columns (docs_frame self)) pre (mkSliders self [] [] []) = Ok t ∧
    docs_frame self !! name = Some col ∧
    docs_frame (sl_self t) !! name = Some col ∧
    core (sl_self t) col = Ok (newcol, ks) ∧
    traverse (key_cond newcol) ks = Ok cs ∧
    docs_frame (sl_self s) !! name = Some newcol ∧
    keys_named name (sl_keys s) = ks ∧
    dict_get (sl_conds s) name = Ok cs.
Proof.
  intros Hb Hs Hin. rewrite set_sliders_nf, Hb in Hs.
  apply (run_blocks_block _ _ _ _ _ _ _) in Hs; [done|..].
  - rewrite <- Hb. apply names_keys_blocks.
  - rewrite <- Hb. apply blocks_NoDup.
  - constructor.
  - by apply list_columns_spec.
Qed.

Lemma filter_Forall_id {A} (P : A → Prop) `{∀ x, Decision (P x)} (l : list A) :
  Forall P l → filter P l = l.
Proof.
  induction 1 as [|x l Hx _ IH]; [done|]. by rewrite filter_cons, decide_True, IH.
Qed.

Lemma filter_Forall_nil {A} (P : A → Prop) `{∀ x, Decision (P x)} (l : list A) :
  Forall (λ x, ¬ P x) l → filter P l = [].
Proof.
  induction 1 as [|x l Hx _ IH]; [done|]. by rewrite filter_cons, decide_False.
Qed.

Lemma run_blocks_shapes columns bs shapes :
  Forall2 (λ b sh, Forall (λ p : string * bool, p.1 = b.1) sh ∧
                   ∀ self col newcol ks, b.2 self col = Ok (newcol, ks) → shape_of <$> ks = sh)
    bs shapes →
  ∀ s s', run_blocks columns bs s = Ok s' →
    shape_of <$> sl_keys s'
    = (shape_of <$> sl_keys s) ++ filter (λ p, p.1 ∈ columns) (concat shapes).
Proof.
  unfold run_blocks.
  induction 1 as [|[name core] sh bs shapes [Hsh Hcore] _ IH]; intros s s' Hrun; simpl in *.
  - injection Hrun as <-. by rewrite app_nil_r.
  - apply bind_Ok_inv in Hrun as (s1 & H1 & Hrun). rewrite (IH _ _ Hrun), filter_app.
    apply block_nf_inv in H1
      as [[Hnot ->]|(Hin & col & newcol & ks & cs & _ & Hk & _ & ->)].
    + rewrite (filter_Forall_nil _ sh); [done|].
      eapply Forall_impl; [exact Hsh|]. intros p ->. done.
    + simpl. rewrite fmap_app, (Hcore _ _ _ _ Hk), <- (assoc_L (++)).
      rewrite (filter_Forall_id _ sh); [done|].
      eapply Forall_impl; [exact Hsh|]. by intros p ->.
Qed.

Lemma blocks_shapes F w :
  Forall2 (λ b sh, Forall (λ p : string * bool, p.1 = b.1) sh ∧
                   ∀ self col newcol ks, b.2 self col = Ok (newcol, ks) → shape_of <$> ks = sh)
    (blocks F w)
    [[("number_words", false); ("number_words", true)]; [("repetitions_ratio", true)];
     [("special_characters_ratio", true)]; [("stopwords_ratio", false)];
     [("flagged_words_ratio", true)]; [("lang_id_score", false)];
     [("perplexity_score", true)]].
Proof.
  unfold blocks. repeat apply Forall2_cons_2; [..|apply Forall2_nil_2];
    (split; [by repeat constructor|]); intros self col newcol ks H; simpl in H.
  - unfold core_number_words in H.
    apply bind_Ok_inv in H as (m & _ & H). by apply bind_Ok_inv in H as (i & _ & [= _ <-]).
  - unfold core_repetitions_ratio in H.
    apply bind_Ok_inv in H as (? & _ & H). apply bind_Ok_inv in H as (? & _ & H).
    apply bind_Ok_inv in H as (? & _ & H). by apply bind_Ok_inv in H as (? & _ & [= _ <-]).
  - by injection H as _ <-.
  - unfold core_stopwords_ratio in H. by apply bind_Ok_inv in H as (? & _ & [= _ <-]).
  - unfold core_flagged_words_ratio in H. by apply bind_Ok_inv in H as (? & _ & [= _ <-]).
  - by injection H as _ <-.
  - unfold core_perplexity_score in H.
    apply bind_Ok_inv in H as (m & _ & H). by apply bind_Ok_inv in H as (i & _ & [= _ <-]).
Qed.

(** X12.  The keys that [set_sliders] returns are those of the signals
    that the data has, in the order of the source: a minimum and a maximum
    for the number of words; a maximum for the repetitions ratio, the
    special characters ratio, the flagged words ratio and the perplexity
    score; a minimum for the stop words ratio and the language
    identification score. *)
Theorem X12_set_sliders_keys F w self s :
  set_sliders F w self = Ok s →
  (λ k, (key_0 k, key_2 k)) <$> sl_keys s
  = filter (λ p, p.1 ∈ list_columns (docs_frame self)) rules.
Proof.
  rewrite set_sliders_nf. intros H.
  apply (run_blocks_shapes _ _ _ (blocks_shapes F w)) in H. exact H.
Qed.

Lemma X12_set_sliders_keys_witness :
  (λ k, (key_0 k, key_2 k)) <$> sl_keys Example.sliders1
  = filter (λ p, p.1 ∈ list_columns (docs_frame Example.self1)) rules.
Proof.
  apply (X12_set_sliders_keys Example.F Example.w_min10 Example.self1 Example.sliders1).
  vm_compute. reflexivity.
Defined.

(** A run of blocks writes to the one frame that [docs] names, adds and
    removes no column, and leaves the column of a block that keeps it. *)
Lemma run_blocks_heap columns bs : ∀ s s',
  run_blocks columns bs s = Ok s' →
  length (heap (sl_self s')) = length (heap (sl_self s)) ∧
  (∀ r, r ≠ docs (sl_self s) → heap (sl_self s') !! r = heap (sl_self s) !! r) ∧
  (∀ c, is_Some (docs_frame (sl_self s') !! c) ↔ is_Some (docs_frame (sl_self s) !! c)) ∧
  (∀ c, Forall (λ b, b.1 = c → keeps_column b.2) bs →
        docs_frame (sl_self s') !! c = docs_frame (sl_self s) !! c).
Proof.
  unfold run_blocks. induction bs as [|[name core] bs IH]; intros s s' Hrun; simpl in *.
  - by injection Hrun as <-.
  - apply bind_Ok_inv in Hrun as (s1 & H1 & Hrun).
    destruct (IH _ _ Hrun) as (Hlen & Hother & Hdom & Hkeep).
    apply block_nf_inv in H1
      as [[_ ->]|(_ & col & newcol & ks & cs & Hcol & Hcore & _ & ->)].
    { split_and!; try done. intros c [_ Hc]%Forall_cons. by apply Hkeep. }
    pose proof (docs_frame_valid _ _ _ Hcol) as Hv. simpl in *.
    rewrite length_insert in Hlen. split_and!; [done|..].
    + intros r Hr. rewrite (Hother r Hr). by rewrite list_lookup_insert_ne.
    + intros c. rewrite (Hdom c), docs_frame_setitem, lookup_insert_is_Some' by done.
      split; [|auto]. intros [<-|?]; [eauto|done].
    + intros c [Hc Hcs]%Forall_cons. rewrite (Hkeep c Hcs), docs_frame_setitem by done.
      destruct (decide (name = c)) as [<-|Hne]; [|by rewrite lookup_insert_ne].
      rewrite (Hc eq_refl _ _ _ _ Hcore). by rewrite lookup_insert_eq.
Qed.

(** X13.  [set_sliders] writes to the frame that [docs] names and to no
    other; it adds and removes no column; and the only columns it may
    change are the repetitions ratio and the ratio for which a lexicon has
    been uploaded. *)
Theorem X13_set_sliders_frame F w self s :
  set_sliders F w self = Ok s →
  docs (sl_self s) = docs self ∧
  docs_checkpoint (sl_self s) = docs_checkpoint self ∧
  length (heap (sl_self s)) = length (heap self) ∧
  (∀ r, r ≠ docs self → heap (sl_self s) !! r = heap self !! r) ∧
  (∀ c, is_Some (docs_frame (sl_self s) !! c) ↔ is_Some (docs_frame self !! c)) ∧
  (∀ c, c ≠ "repetitions_ratio" →
        (c = "stopwords_ratio" → w_stopwords_file w = None) →
        (c = "flagged_words_ratio" → w_flagged_words_file w = None) →
        docs_frame (sl_self s) !! c = docs_frame self !! c).
Proof.
  rewrite set_sliders_nf. intros H.
  destruct (run_blocks_frame _ _ _ _ H) as (Hd & Hc & _).
  destruct (run_blocks_heap _ _ _ _ H) as (Hlen & Hother & Hdom & Hkeep).
  split_and!; try done.
  intros c Hrep Hstop Hflag. apply Hkeep. unfold blocks.
  repeat apply Forall_cons_2; [..|apply Forall_nil_2]; simpl;
    intros Hname self0 col newcol ks Hcore.
  - unfold core_number_words in Hcore.
    apply bind_Ok_inv in Hcore as (m & _ & Hcore).
    by apply bind_Ok_inv in Hcore as (i & _ & [= <- _]).
  - by rewrite <- Hname in Hrep.
  - by injection Hcore as <- _.
  - unfold core_stopwords_ratio in Hcore. rewrite (Hstop (eq_sym Hname)) in Hcore.
    by injection Hcore as <- _.
  - unfold core_flagged_words_ratio in Hcore. rewrite (Hflag (eq_sym Hname)) in Hcore.
    by injection Hcore as <- _.
  - by injection Hcore as <- _.
  - unfold core_perplexity_score in Hcore.
    apply bind_Ok_inv in Hcore as (m & _ & Hcore).
    by apply bind_Ok_inv in Hcore as (i & _ & [= <- _]).
Qed.

Lemma X13_set_sliders_frame_witness :
  let s := Example.sliders1 in
  let self := Example.self1 in
  docs (sl_self s) = docs self ∧
  docs_checkpoint (sl_self s) = docs_checkpoint self ∧
  length (heap (sl_self s)) = length (heap self) ∧
  (∀ r, r ≠ docs self → heap (sl_self s) !! r = heap self !! r) ∧
  (∀ c, is_Some (docs_frame (sl_self s) !! c) ↔ is_Some (docs_frame self !! c)) ∧
  (∀ c, c ≠ "repetitions_ratio" →
        (c = "stopwords_ratio" → w_stopwords_file Example.w_min10 = None) →
        (c = "flagged_words_ratio" → w_flagged_words_file Example.w_min10 = None) →
        docs_frame (sl_self s) !! c = docs_frame self !! c).
Proof.
  apply (X13_set_sliders_frame Example.F Example.w_min10 Example.self1 Example.sliders1).
  vm_compute. reflexivity.
Defined.

(** ** The cutoffs that the sliders start with *)

Lemma np_max_from_bound col : ∀ acc m,
  np_max_from acc col = Ok (Num m) →
  (∀ a, acc = Num a → (a <= m)%Q) ∧ ∀ v, Num v ∈ col → (v <= m)%Q.
Proof.
  unfold np_max_from. induction col as [|c col IH]; intros acc m; simpl.
  - intros [= ->]. split.
    + intros a [= ->]. apply Qle_refl.
    + intros v Hv. by apply elem_of_nil in Hv.
  - intros H. apply bind_Ok_inv in H as (acc' & Hacc' & H).
    destruct (IH _ _ H) as [IHa IHc].
    destruct c as [b| | | |]; try discriminate.
    + assert (∃ b', acc' = Num b' ∧ (b <= b')%Q ∧ ∀ a, acc = Num a → (a <= b')%Q)
        as (b' & -> & Hb & Ha).
      { destruct acc as [a| | | |]; injection Hacc' as <-;
          try (eexists; split_and!; [done|apply Qle_refl|by intros ? [=]]).
        destruct (Qle_bool a b) eqn:Hab; eexists; split; try done.
        - apply Qle_bool_iff in Hab. split; [apply Qle_refl|]. by intros ? [= <-].
        - split; [|intros ? [= <-]; apply Qle_refl].
          apply Qlt_le_weak, Qnot_le_lt. intros Hle%Qle_bool_iff. congruence. }
      specialize (IHa _ eq_refl). split.
      * intros a Hacc. eapply Qle_trans; [by apply Ha|done].
      * intros v [[= ->]|Hv]%elem_of_cons; [|by apply IHc].
        eapply Qle_trans; eauto.
    + injection Hacc' as <-. split; [done|].
      intros v [[=]|Hv]%elem_of_cons. by apply IHc.
Qed.

Lemma py_int_bound m i : py_int (Num m) = Ok i → (m < inject_Z (i + 1))%Q.
Proof.
  intros [= <-]. destruct m as [n d]. unfold Qlt. simpl.
  pose proof (Z.quot_rem' n (Z.pos d)) as Hqr.
  assert (Z.rem n (Z.pos d) < Z.pos d) as Hr.
  { destruct (Z.le_gt_cases 0 n) as [Hn|Hn].
    - apply Z.rem_bound_pos; lia.
    - pose proof (Z.rem_nonpos n (Z.pos d)). lia. }
  nia.
Qed.

(** X14.  With the slider of the maximal number of words, or of the
    perplexity score, left alone, the rule discards no document that has a
    value: the cutoff it starts with is above every value of the column. *)
Theorem X14_default_maximum_keeps_all F w self s name k i v :
  set_sliders F w self = Ok s →
  (name = "number_words" ∧ w_max_number_words w = None) ∨
  (name = "perplexity_score" ∧ w_perplexity_score w = None) →
  k ∈ sl_keys s → key_0 k = name → key_2 k = true →
  value_at (docs_frame (sl_self s)) name i = Some (Num v) →
  passes (docs_frame (sl_self s)) i k = true.
Proof.
  intros Hs Hname Hk Hk0 Hk2 Hv.
  assert (is_Some (docs_frame self !! name)) as Hin.
  { rewrite set_sliders_nf in Hs.
    destruct (run_blocks_heap _ _ _ _ Hs) as (_ & _ & Hdom & _). apply Hdom.
    unfold value_at in Hv. destruct (docs_frame (sl_self s) !! name); [eauto|done]. }
  assert (k ∈ keys_named name (sl_keys s)) as Hk'
    by (by apply list_elem_of_filter).
  assert (∃ col m j,
            docs_frame (sl_self s) !! name = Some col ∧ np_max col = Ok (Num m) ∧
            py_int (Num m) = Ok j ∧ key_1 k = inject_Z (j + 1))
    as (col & m & j & Hcol & Hm & Hj & Hcut).
  { destruct Hname as [[-> Hw]|[-> Hw]].
    - destruct (set_sliders_block F w self s [] "number_words" (core_number_words w)
                  (drop 1 (blocks F w)) eq_refl Hs Hin)
        as (t & col & newcol & ks & cs & _ & _ & _ & Hcore & _ & Hcol & Hks & _).
      unfold core_number_words in Hcore.
      apply bind_Ok_inv in Hcore as (m & Hm & Hcore).
      apply bind_Ok_inv in Hcore as (j & Hj & [= <- <-]).
      destruct m as [m| | | |]; try discriminate.
      exists col, m, j. split_and!; try done.
      rewrite Hks in Hk'. apply elem_of_cons in Hk' as [->|Hk']; [done|].
      apply list_elem_of_singleton in Hk' as ->. simpl. by rewrite Hw.
    - destruct (set_sliders_block F w self s (take 6 (blocks F w)) "perplexity_score"
                  (core_perplexity_score w) [] eq_refl Hs Hin)
        as (t & col & newcol & ks & cs & _ & _ & _ & Hcore & _ & Hcol & Hks & _).
      unfold core_perplexity_score in Hcore.
      apply bind_Ok_inv in Hcore as (m & Hm & Hcore).
      apply bind_Ok_inv in Hcore as (j & Hj & [= <- <-]).
      destruct m as [m| | | |]; try discriminate.
      exists col, m, j. split_and!; try done.
      rewrite Hks in Hk'. apply list_elem_of_singleton in Hk' as ->. simpl. by rewrite Hw. }
  unfold passes. rewrite Hk0, Hv, Hk2. apply Qle_bool_iff. rewrite Hcut.
  unfold value_at in Hv. rewrite Hcol in Hv. simpl in Hv.
  apply Qlt_le_weak. eapply Qle_lt_trans; [|by apply py_int_bound].
  apply (np_max_from_bound _ _ _ Hm). by eapply list_elem_of_lookup_2.
Qed.

Lemma X14_default_maximum_keeps_all_witness :
  passes (docs_frame (sl_self Example.sliders1)) 1
    (mkKey "number_words" 51 true None) = true.
Proof.
  apply (X14_default_maximum_keeps_all Example.F Example.w_min10 Example.self1
           Example.sliders1 "number_words" (mkKey "number_words" 51 true None) 1%nat 50).
  - vm_compute. reflexivity.
  - left. split; reflexivity.
  - vm_compute. right. left.
  - reflexivity.
  - reflexivity.
  - vm_compute. reflexivity.
Defined.

(** ** The length of the repetitions *)

Lemma selected_length_eq w (lengths : list string) :
  selected_length w lengths =
  match w_repetitions_length w with
  | Some c => Some c
  | None => if bool_decide ("10" ∈ lengths) then Some "10" else head lengths
  end.
Proof.
  unfold selected_length, selectbox. destruct (w_repetitions_length w); [done|].
  destruct (list_find (λ n, n = "10") lengths) as [[i x]|] eqn:Hfind.
  - apply list_find_Some in Hfind as (Hi & -> & _).
    rewrite bool_decide_eq_true_2 by (by eapply list_elem_of_lookup_2). done.
  - apply list_find_None in Hfind.
    rewrite bool_decide_eq_false_2.
    + by rewrite head_lookup.
    + intros Hin. by apply (proj1 (Forall_forall _ _) Hfind "10" Hin).
Qed.

(** X15.  The repetitions ratio that is shown and tested is the one for
    the selected length: the length chosen in the box, or else "10" when
    the first document has a ratio for it, or else the first length of the
    first document.  The rule carries that length, and the column holds,
    for each document, the ratio that its dictionary has for that length. *)
Theorem X15_repetitions_selection F w self s d0 rest :
  set_sliders F w self = Ok s →
  docs self = docs_checkpoint self →
  docs_frame self !! "repetitions_ratio" = Some (Dict d0 :: rest) →
  let n := match w_repetitions_length w with
           | Some c => Some c
           | None => if bool_decide ("10" ∈ d0.*1) then Some "10" else head d0.*1
           end in
  keys_named "repetitions_ratio" (sl_keys s)
  = [mkKey "repetitions_ratio" (slider (w_repetitions_ratio w) 0 1 1) true n] ∧
  ∃ newcol, docs_frame (sl_self s) !! "repetitions_ratio" = Some newcol ∧
    Forall2 (λ c v, subscript c n = Ok v) (Dict d0 :: rest) newcol.
Proof.
  intros Hs Ha Hcol n.
  destruct (set_sliders_block F w self s (take 1 (blocks F w)) "repetitions_ratio"
              (core_repetitions_ratio w) (drop 2 (blocks F w)) eq_refl Hs)
    as (t & col & newcol & ks & cs & Ht & Hcol0 & Hcolt & Hcore & _ & Hnew & Hks & _);
    [eauto|].
  assert (col = Dict d0 :: rest) as -> by congruence.
  destruct (run_blocks_frame _ _ _ _ Ht) as (Hdt & Hct & _). simpl in Hdt, Hct.
  unfold core_repetitions_ratio in Hcore. simpl in Hcore. rsimpl_in Hcore.
  rewrite checkpoint_is_docs, (getitem_Some _ _ _ Hcolt) in Hcore by congruence.
  rsimpl_in Hcore. rewrite selected_length_eq in Hcore. fold n in Hcore.
  apply bind_Ok_inv in Hcore as (nc & Hnc & [= <- <-]).
  split; [done|]. exists nc. split; [done|].
  apply traverse_Forall2 in Hnc.
  apply Forall2_same_length_lookup. split.
  - apply Forall2_length in Hnc. by rewrite length_seq in Hnc.
  - intros i c v Hc Hv.
    destruct (Forall2_lookup_r _ _ _ _ _ Hnc Hv) as (j & Hj & Hsub).
    apply lookup_seq in Hj as [-> _]. simpl in Hsub. unfold iloc in Hsub.
    rewrite Hc in Hsub. by rsimpl_in Hsub.
Qed.

Lemma X15_repetitions_selection_witness :
  let d0 := [("5", (1 # 10)%Q); ("10", (2 # 10)%Q)] in
  let rest := [Dict [("5", (3 # 10)%Q); ("10", (4 # 10)%Q)]] in
  keys_named "repetitions_ratio" (sl_keys Example.sliders1)
  = [mkKey "repetitions_ratio" 1 true (Some "10")] ∧
  ∃ newcol, docs_frame (sl_self Example.sliders1) !! "repetitions_ratio" = Some newcol ∧
    Forall2 (λ c v, subscript c (Some "10") = Ok v) (Dict d0 :: rest) newcol.
Proof.
  apply (X15_repetitions_selection Example.F Example.w_min10 Example.self1 Example.sliders1
           [("5", (1 # 10)%Q); ("10", (2 # 10)%Q)]
           [Dict [("5", (3 # 10)%Q); ("10", (4 # 10)%Q)]]).
  - vm_compute. reflexivity.
  - reflexivity.
  - vm_compute. reflexivity.
Defined.

(** ** The cache of the repetitions ratios *)

Lemma filtering_of_docs_inv F w self self' page :
  filtering_of_docs F w self = Ok (self', page) →
  ∃ s, set_sliders F w self = Ok s ∧
    self' = set_keys (sl_self s) (sl_keys s) (sl_keys s).
Proof.
  unfold filtering_of_docs. intros H. apply bind_Ok_inv in H as (s & Hs & H).
  exists s. split; [done|]. cbv zeta in H.
  apply bind_Ok_inv in H as (d & _ & H). apply bind_Ok_inv in H as (b & _ & H).
  apply bind_Ok_inv in H as (r & _ & H). by injection H as <- _.
Qed.

Lemma visualization_inv F w data self self1 page verdict :
  visualization F w data self = Ok (self1, page, verdict) →
  ∃ s0 s, open_data data self = Ok s0 ∧ set_sliders F w s0 = Ok s ∧
    self1 = set_keys (sl_self s) (sl_keys s) (sl_keys s).
Proof.
  unfold visualization. intros H. apply bind_Ok_inv in H as (s0 & H0 & H).
  apply bind_Ok_inv in H as ([self' page'] & Hf & H).
  apply bind_Ok_inv in H as (v & _ & H). injection H as <- _ _.
  apply filtering_of_docs_inv in Hf as (s & Hs & ->). eauto.
Qed.

Lemma run_blocks_num_docs columns bs : ∀ s s',
  run_blocks columns bs s = Ok s' → num_docs (sl_self s') = num_docs (sl_self s).
Proof.
  unfold run_blocks. induction bs as [|[name core] bs IH]; intros s s' Hrun; simpl in *.
  - by injection Hrun as <-.
  - apply bind_Ok_inv in Hrun as (s1 & H1 & Hrun). rewrite (IH _ _ Hrun).
    by apply block_nf_inv in H1
      as [[_ ->]|(_ & col & newcol & ks & cs & _ & _ & _ & ->)].
Qed.

(** The column of a signal after [open_data]: the values that the shown
    documents have in the data. *)
Lemma open_data_column data self self' c :
  open_data data self = Ok self' →
  c ≠ "text" → c ≠ "words" →
  docs_frame self' !! c =
  if bool_decide (Exists (λ doc : gmap string cell, is_Some (doc !! c))
                    (take (num_docs self') data))
  then Some ((λ doc : gmap string cell, default NaN (doc !! c)) <$> take (num_docs self') data)
  else None.
Proof.
  intros H Hc1 Hc2. set (shown := take (num_docs self') data).
  destruct (open_data_frame _ _ _ H) as (docs' & Hdocs & Hframe). fold shown in Hdocs.
  rewrite Hframe, DataFrame_lookup.
  apply traverse_Forall2 in Hdocs.
  assert (Forall2 (λ doc doc' : gmap string cell, doc' !! c = doc !! c) shown docs') as Hsame.
  { eapply Forall2_impl; [exact Hdocs|]. intros doc doc' Hp. simpl in Hp.
    apply prepare_doc_inv in Hp as (_ & _ & _ & Hp & _). by apply Hp. }
  clear Hdocs Hframe H. clearbody shown.
  assert ((λ doc : gmap string cell, default NaN (doc !! c)) <$> docs'
          = (λ doc : gmap string cell, default NaN (doc !! c)) <$> shown) as ->.
  { induction Hsame as [|doc doc' l l' Hd _ IH]; [done|].
    rewrite !fmap_cons. by rewrite Hd, IH. }
  assert (Exists (λ doc : gmap string cell, is_Some (doc !! c)) docs'
          ↔ Exists (λ doc : gmap string cell, is_Some (doc !! c)) shown) as Hex.
  { induction Hsame as [|doc doc' l l' Hd _ IH]; [split; by intros ?%Exists_nil|].
    by rewrite !Exists_cons, Hd, IH. }
  by rewrite (bool_decide_ext _ _ Hex).
Qed.

(** The repetitions block reads the lengths from the first row and
    replaces every dictionary of the column by its ratio for the selected
    length. *)
Lemma repetitions_column F w self s col :
  set_sliders F w self = Ok s → docs self = docs_checkpoint self →
  docs_frame self !! "repetitions_ratio" = Some col →
  ∃ d0 newcol, col !! 0%nat = Some (Dict d0) ∧
    docs_frame (sl_self s) !! "repetitions_ratio" = Some newcol ∧
    Forall2 (λ c v, subscript c (selected_length w d0.*1) = Ok v) col newcol.
Proof.
  intros Hs Ha Hcol.
  destruct (set_sliders_block F w self s (take 1 (blocks F w)) "repetitions_ratio"
              (core_repetitions_ratio w) (drop 2 (blocks F w)) eq_refl Hs)
    as (t & col' & newcol & ks & cs & Ht & Hcol0 & Hcolt & Hcore & _ & Hnew & Hks & _);
    [eauto|].
  assert (col' = col) as -> by congruence.
  destruct (run_blocks_frame _ _ _ _ Ht) as (Hdt & Hct & _). simpl in Hdt, Hct.
  unfold core_repetitions_ratio in Hcore.
  apply bind_Ok_inv in Hcore as (first & Hfirst & Hcore).
  apply bind_Ok_inv in Hcore as (lengths & Hlengths & Hcore).
  rewrite checkpoint_is_docs, (getitem_Some _ _ _ Hcolt) in Hcore by congruence.
  rsimpl_in Hcore.
  apply bind_Ok_inv in Hcore as (nc & Hnc & Hcore). injection Hcore as <- _.
  unfold iloc in Hfirst. destruct (col !! 0%nat) as [c0|] eqn:H0; [|discriminate].
  injection Hfirst as <-.
  destruct c0 as [| | |d0|]; try discriminate. injection Hlengths as <-.
  exists d0, nc. split_and!; [done|done|].
  apply traverse_Forall2 in Hnc.
  apply Forall2_same_length_lookup. split.
  - apply Forall2_length in Hnc. by rewrite length_seq in Hnc.
  - intros i c v Hc Hv.
    destruct (Forall2_lookup_r _ _ _ _ _ Hnc Hv) as (j & Hj & Hsub).
    apply lookup_seq in Hj as [-> _]. simpl in Hsub. unfold iloc in Hsub.
    rewrite Hc in Hsub. by rsimpl_in Hsub.
Qed.

(** One run of the page: the repetitions column holds, for every shown
    document, the ratio that the data has for the selected length. *)
Lemma cached_ratios F w data self self1 page verdict :
  visualization F w data self = Ok (self1, page, verdict) →
  num_docs self1 = Nat.min (num_docs self) (length data) ∧
  (is_Some (docs_frame self1 !! "repetitions_ratio") ↔
   Exists (λ doc : gmap string cell, is_Some (doc !! "repetitions_ratio"))
     (take (num_docs self1) data)) ∧
  (is_Some (docs_frame self1 !! "repetitions_ratio") →
   ∃ d0 n,
     (data !! 0%nat ≫= (.!! "repetitions_ratio")) = Some (Dict d0) ∧
     selected_length w d0.*1 = Some n ∧
     ∀ i doc, data !! i = Some doc → (i < num_docs self1)%nat →
       ∃ d v, doc !! "repetitions_ratio" = Some (Dict d) ∧ dict_get d n = Ok v ∧
         value_at (docs_frame self1) "repetitions_ratio" i = Some (Num v)).
Proof.
  intros (s0 & s & H0 & Hs & ->)%visualization_inv.
  pose proof (open_data_column _ _ _ "repetitions_ratio" H0) as Hcol.
  apply open_data_inv in H0 as (d0' & docs'' & _ & _ & _ & Heq).
  assert (num_docs s0 = Nat.min (num_docs self) (length data)) as Hn0
    by (by rewrite Heq).
  assert (docs s0 = docs_checkpoint s0) as Ha by (by rewrite Heq).
  clear Heq. pose proof Hs as Hrun. rewrite set_sliders_nf in Hrun.
  pose proof (run_blocks_num_docs _ _ _ _ Hrun) as Hn. simpl in Hn.
  destruct (run_blocks_heap _ _ _ _ Hrun) as (_ & _ & Hdom & _). simpl in Hdom.
  change (docs_frame (set_keys (sl_self s) (sl_keys s) (sl_keys s)))
    with (docs_frame (sl_self s)).
  change (num_docs (set_keys (sl_self s) (sl_keys s) (sl_keys s)))
    with (num_docs (sl_self s)).
  rewrite Hn. specialize (Hcol ltac:(done) ltac:(done)).
  split_and!; [done|..].
  - rewrite Hdom, Hcol. case_bool_decide as Hex; [by split; eauto|].
    split; [by intros [? [=]]|done].
  - intros Hsome. apply Hdom in Hsome as [col Hcol'].
    rewrite Hcol' in Hcol. case_bool_decide as Hex; [|discriminate].
    injection Hcol as ->.
    destruct (repetitions_column F w s0 s _ Hs Ha Hcol')
      as (d0 & newcol & Hfirst & Hnew & Hall).
    rewrite list_lookup_fmap in Hfirst.
    destruct (take (num_docs s0) data !! 0%nat) as [doc0|] eqn:Hdoc0; [|discriminate].
    apply lookup_take_Some in Hdoc0 as [Hdoc0 Hpos].
    simpl in Hfirst.
    assert (doc0 !! "repetitions_ratio" = Some (Dict d0)) as Hd0.
    { destruct (doc0 !! "repetitions_ratio") as [c|]; simpl in Hfirst; congruence. }
    assert (∃ n, selected_length w d0.*1 = Some n) as [n Hsel].
    { destruct (Forall2_lookup_l _ _ _ 0%nat (Dict d0) Hall) as (v & _ & Hsub).
      - rewrite list_lookup_fmap, lookup_take_lt, Hdoc0 by done. simpl. by rewrite Hd0.
      - simpl in Hsub. destruct (selected_length w d0.*1); [eauto|discriminate]. }
    exists d0, n. split_and!; [by rewrite Hdoc0|done|].
    intros i doc Hi Hlt.
    destruct (Forall2_lookup_l _ _ _ i (default NaN (doc !! "repetitions_ratio")) Hall)
      as (v & Hv & Hsub).
    { rewrite list_lookup_fmap, lookup_take_lt, Hi by done. done. }
    rewrite Hsel in Hsub.
    destruct (doc !! "repetitions_ratio") as [[| | |d|]|]; try discriminate.
    simpl in Hsub. apply bind_Ok_inv in Hsub as (q & Hq & Hsub). injection Hsub as <-.
    exists d, q. split_and!; [done|done|].
    unfold value_at. rewrite Hnew. exact Hv.
Qed.

(** C7.  The repetitions ratios of a document are in the data, one for
    each length, and every run of the page reads them from there.  After a
    run with a length selected, the repetitions column holds for every
    shown document the ratio that the data has for that length: the ratio
    is read from the dictionary of the document, and
    [compute_repetitions_ratio] has no part in what the page shows.  A run
    with another length selected, on the object that the first run has
    left, gives for every shown document the ratio that the data has for
    the other length. *)
Theorem C7_selection_reads_the_cache
    F w w' data self self1 page verdict self2 page' verdict' :
  visualization F w data self = Ok (self1, page, verdict) →
  visualization F w' data self1 = Ok (self2, page', verdict') →
  is_Some (docs_frame self1 !! "repetitions_ratio") →
  ∃ d0 n n',
    (data !! 0%nat ≫= (.!! "repetitions_ratio")) = Some (Dict d0) ∧
    selected_length w d0.*1 = Some n ∧ selected_length w' d0.*1 = Some n' ∧
    (∀ i doc, data !! i = Some doc → (i < num_docs self1)%nat →
       ∃ d v v', doc !! "repetitions_ratio" = Some (Dict d) ∧
         dict_get d n = Ok v ∧ dict_get d n' = Ok v' ∧
         value_at (docs_frame self1) "repetitions_ratio" i = Some (Num v) ∧
         value_at (docs_frame self2) "repetitions_ratio" i = Some (Num v')) ∧
    (∀ F', compute_stopwords_ratio F' = compute_stopwords_ratio F →
           compute_flagged_words_ratio F' = compute_flagged_words_ratio F →
           ∀ t, filtering_of_docs F' w t = filtering_of_docs F w t).
Proof.
  intros H1 H2 Hsome.
  destruct (cached_ratios _ _ _ _ _ _ _ H1) as (Hn1 & Hex1 & Hrun1).
  destruct (cached_ratios _ _ _ _ _ _ _ H2) as (Hn2 & Hex2 & Hrun2).
  assert (num_docs self2 = num_docs self1) as Hn by lia.
  destruct (Hrun1 Hsome) as (d0 & n & Hd0 & Hsel & Hall1).
  destruct Hrun2 as (d0' & n' & Hd0' & Hsel' & Hall2).
  { apply Hex2. rewrite Hn. by apply Hex1. }
  assert (d0' = d0) as -> by congruence.
  exists d0, n, n'. split_and!; [done|done|done|..].
  - intros i doc Hi Hlt.
    destruct (Hall1 i doc Hi Hlt) as (d & v & Hd & Hv & Hval).
    destruct (Hall2 i doc Hi) as (d' & v' & Hd' & Hv' & Hval'); [lia|].
    assert (d' = d) as -> by congruence.
    exists d, v, v'. by split_and!.
  - intros F' Hstop Hflag t. unfold filtering_of_docs.
    by rewrite (set_sliders_reads_the_cache F' F w t Hstop Hflag).
Qed.

Lemma C7_selection_reads_the_cache_witness :
  ∃ self3 page',
    visualization Example.F Example.w_len5 Example.data Example.self2
    = Ok (self3, page', None) ∧
    docs_frame Example.self2 !! "repetitions_ratio" = Some [Num (2 # 10); Num (4 # 10)] ∧
    docs_frame self3 !! "repetitions_ratio" = Some [Num (1 # 10); Num (3 # 10)] ∧
    ∃ d0 n n',
      (Example.data !! 0%nat ≫= (.!! "repetitions_ratio")) = Some (Dict d0) ∧
      selected_length Example.w_len10 d0.*1 = Some n ∧
      selected_length Example.w_len5 d0.*1 = Some n' ∧
      (∀ i doc, Example.data !! i = Some doc → (i < num_docs Example.self2)%nat →
         ∃ d v v', doc !! "repetitions_ratio" = Some (Dict d) ∧
           dict_get d n = Ok v ∧ dict_get d n' = Ok v' ∧
           value_at (docs_frame Example.self2) "repetitions_ratio" i = Some (Num v) ∧
           value_at (docs_frame self3) "repetitions_ratio" i = Some (Num v')) ∧
      (∀ F', compute_stopwords_ratio F' = compute_stopwords_ratio Example.F →
             compute_flagged_words_ratio F' = compute_flagged_words_ratio Example.F →
             ∀ t, filtering_of_docs F' Example.w_len10 t
                  = filtering_of_docs Example.F Example.w_len10 t).
Proof.
  eexists _, _. split; [vm_compute; reflexivity|].
  split; [vm_compute; reflexivity|]. split; [vm_compute; reflexivity|].
  eapply (C7_selection_reads_the_cache Example.F Example.w_len10 Example.w_len5
            Example.data Example.self0 Example.self2 _ None _ _ None).
  - vm_compute. reflexivity.
  - vm_compute. reflexivity.
  - vm_compute. eauto.
Defined.

(** ** When the page of the documents is shown *)

Lemma run_blocks_skip columns bs s :
  Forall (λ b, b.1 ∉ columns) bs → run_blocks columns bs s = Ok s.
Proof.
  unfold run_blocks. induction 1 as [|[name core] bs Hb _ IH]; simpl; [done|].
  unfold block_nf. rewrite bool_decide_eq_false_2 by done. rsimpl. exact IH.
Qed.

(** X16.  On data that has none of the seven signals there is no rule, and
    [filtering_of_docs] fails with [KeyError]: the single truth value that
    [np.all] gives for no condition does not select rows. *)
Theorem X16_no_signal_no_page F w self :
  (∀ n, n ∈ filters.*1 → docs_frame self !! n = None) →
  filtering_of_docs F w self = Raise KeyError.
Proof.
  intros Hnone. unfold filtering_of_docs. rewrite set_sliders_nf, run_blocks_skip; [done|].
  apply Forall_forall. intros [name core] Hb. simpl.
  rewrite list_columns_spec, (Hnone name); [by intros [? [=]]|].
  assert (name ∈ (blocks F w).*1) as Hin by (apply list_elem_of_fmap; by exists (name, core)).
  exact Hin.
Qed.

Lemma X16_no_signal_no_page_witness :
  filtering_of_docs Example.F Example.w0 Example.self_text_only = Raise KeyError.
Proof.
  apply (X16_no_signal_no_page Example.F Example.w0 Example.self_text_only).
  intros n Hn. vm_compute in Hn.
  repeat (apply elem_of_cons in Hn as [->|Hn]; [vm_compute; reflexivity|]).
  exfalso. exact (proj1 (elem_of_nil _) Hn).
Defined.

Lemma blocks_give_keys F w :
  Forall (λ b, ∀ self col newcol ks, b.2 self col = Ok (newcol, ks) → ks ≠ []) (blocks F w).
Proof.
  unfold blocks. repeat apply Forall_cons_2; [..|apply Forall_nil_2];
    intros self col newcol ks H; simpl in H.
  - unfold core_number_words in H.
    apply bind_Ok_inv in H as (m & _ & H). by apply bind_Ok_inv in H as (i & _ & [= _ <-]).
  - unfold core_repetitions_ratio in H.
    apply bind_Ok_inv in H as (? & _ & H). apply bind_Ok_inv in H as (? & _ & H).
    apply bind_Ok_inv in H as (? & _ & H). by apply bind_Ok_inv in H as (? & _ & [= _ <-]).
  - by injection H as _ <-.
  - unfold core_stopwords_ratio in H. by apply bind_Ok_inv in H as (? & _ & [= _ <-]).
  - unfold core_flagged_words_ratio in H. by apply bind_Ok_inv in H as (? & _ & [= _ <-]).
  - by injection H as _ <-.
  - unfold core_perplexity_score in H.
    apply bind_Ok_inv in H as (m & _ & H). by apply bind_Ok_inv in H as (i & _ & [= _ <-]).
Qed.

(** A signal that the data has gets at least one key and one condition. *)
Lemma set_sliders_entry F w self s name :
  set_sliders F w self = Ok s →
  name ∈ (blocks F w).*1 → is_Some (docs_frame self !! name) →
  keys_named name (sl_keys s) ≠ [] ∧ ∃ c cs, dict_get (sl_conds s) name = Ok (c :: cs).
Proof.
  intros Hs Hname Hin.
  apply list_elem_of_fmap in Hname as ([name' core] & -> & Hb). simpl in *.
  pose proof Hb as (pre & post & Heq)%list_elem_of_split.
  destruct (set_sliders_block F w self s pre name' core post Heq Hs Hin)
    as (t & col & newcol & ks & cs & _ & _ & _ & Hcore & Hcs & _ & Hks & Hget).
  assert (ks ≠ []) as Hne
    by (eapply (proj1 (Forall_forall _ _) (blocks_give_keys F w) _ Hb); exact Hcore).
  split; [by rewrite Hks|].
  apply traverse_length in Hcs. destruct cs as [|c cs]; [by destruct ks|]. eauto.
Qed.

Lemma dict_get_elem_of {V} (d : list (string * V)) name v :
  dict_get d name = Ok v → (name, v) ∈ d.
Proof.
  induction d as [|[k x] d IH]; simpl; [discriminate|].
  destruct (String.eqb_spec k name) as [->|Hne].
  - intros [= ->]. left.
  - intros H. right. by apply IH.
Qed.

(** The blocks keep the number of rows of their columns. *)
Lemma blocks_keep_length F w : Forall (λ b, keeps_length b.1 b.2) (blocks F w).
Proof.
  unfold blocks. repeat apply Forall_cons_2; [..|apply Forall_nil_2];
    intros self col newcol ks Ha Hcol H; simpl in *.
  - unfold core_number_words in H.
    apply bind_Ok_inv in H as (m & _ & H). by apply bind_Ok_inv in H as (i & _ & [= <- _]).
  - unfold core_repetitions_ratio in H.
    apply bind_Ok_inv in H as (? & _ & H). apply bind_Ok_inv in H as (? & _ & H).
    rewrite checkpoint_is_docs, (getitem_Some _ _ _ Hcol) in H by done. rsimpl_in H.
    apply bind_Ok_inv in H as (nc & Hnc & H). injection H as <- _.
    apply traverse_length in Hnc. by rewrite length_seq in Hnc.
  - by injection H as <- _.
  - unfold core_stopwords_ratio in H. apply bind_Ok_inv in H as (nc & Hnc & H).
    injection H as <- _. destruct (w_stopwords_file w); [|by injection Hnc as <-].
    unfold recomputed in Hnc.
    rewrite checkpoint_is_docs, (getitem_Some _ _ _ Hcol) in Hnc by done. rsimpl_in Hnc.
    apply traverse_length in Hnc. by rewrite length_seq in Hnc.
  - unfold core_flagged_words_ratio in H. apply bind_Ok_inv in H as (nc & Hnc & H).
    injection H as <- _. destruct (w_flagged_words_file w); [|by injection Hnc as <-].
    unfold recomputed in Hnc.
    rewrite checkpoint_is_docs, (getitem_Some _ _ _ Hcol) in Hnc by done. rsimpl_in Hnc.
    apply traverse_length in Hnc. by rewrite length_seq in Hnc.
  - by injection H as <- _.
  - unfold core_perplexity_score in H.
    apply bind_Ok_inv in H as (m & _ & H). by apply bind_Ok_inv in H as (i & _ & [= <- _]).
Qed.

Lemma run_blocks_lengths columns bs n :
  Forall (λ b, keeps_length b.1 b.2) bs →
  ∀ s s', run_blocks columns bs s = Ok s' →
    docs (sl_self s) = docs_checkpoint (sl_self s) →
    (∀ c col, docs_frame (sl_self s) !! c = Some col → length col = n) →
    ∀ c col, docs_frame (sl_self s') !! c = Some col → length col = n.
Proof.
  unfold run_blocks.
  induction bs as [|[name core] bs IH]; intros Hk s s' Hrun Ha Hlen; simpl in *.
  - by injection Hrun as <-.
  - apply Forall_cons in Hk as [Hk1 Hk]. apply bind_Ok_inv in Hrun as (s1 & H1 & Hrun).
    apply block_nf_inv in H1
      as [[_ ->]|(_ & col & newcol & ks & cs & Hcol & Hcore & _ & ->)];
      [by apply (IH Hk _ _ Hrun)|].
    apply (IH Hk _ _ Hrun); [done|]. simpl.
    intros c col'. rewrite docs_frame_setitem by (by eapply docs_frame_valid).
    destruct (decide (name = c)) as [<-|Hne].
    + rewrite lookup_insert_eq. intros [= <-].
      rewrite (Hk1 _ _ _ _ Ha Hcol Hcore). by eapply Hlen.
    + rewrite lookup_insert_ne by done. apply Hlen.
Qed.

Lemma foldl_zip_andb_length rows : ∀ r n,
  length r = n → Forall (λ row : list bool, length row = n) rows →
  length (foldl (zip_with andb) r rows) = n.
Proof.
  induction rows as [|row rows IH]; intros r n Hr Hrows; simpl; [done|].
  apply Forall_cons in Hrows as [H1 H2]. apply IH; [|done].
  rewrite length_zip_with. lia.
Qed.

(** With a value that is not negative in the column, the slider of the
    number of words, or of the perplexity score, runs from 0 to an integer
    that is at least 1. *)
Lemma slider_range_positive w self name col :
  well_formed w self → slider_ranges self →
  name ∈ ["number_words"; "perplexity_score"] → docs_frame self !! name = Some col →
  ∃ m i, np_max col = Ok (Num m) ∧ py_int (Num m) = Ok i ∧ 0 ≤ i.
Proof.
  intros (_ & Hnum & Hex & _) Hranges Hname Hcol.
  assert (Forall numeric col) as Hn.
  { apply (Hnum name); [|done].
    repeat (apply elem_of_cons in Hname as [->|Hname]); [..|by apply elem_of_nil in Hname];
      repeat constructor. }
  destruct (max_cutoff_Ok col Hn (Hex name col Hname Hcol)) as (m0 & i & Hm & Hi).
  destruct m0 as [m| | | |]; try discriminate.
  exists m, i. split_and!; [done|done|].
  pose proof (Hranges name col Hname Hcol) as Hsome.
  apply Exists_exists in Hsome as (c & Hc & q & -> & Hq).
  pose proof (proj2 (np_max_from_bound _ _ _ Hm) q Hc) as Hqm.
  injection Hi as <-. apply Z.quot_pos; [|done].
  assert (0 <= m)%Q as H0 by (by eapply Qle_trans).
  unfold Qle in H0. simpl in H0. lia.
Qed.

(** X17.  On well-formed data with at least one of the seven signals, the
    same number of rows in every column, and a value that is not negative
    where a slider takes its range from the column, the ranges of these
    sliders go from 0 to at least 1 and [filtering_of_docs] shows its page:
    [all_conds] has one truth value for each row, the object gets at least
    one key, the parameters are a copy of the keys, and when the discarded
    documents are asked for filter by filter there is one table for each
    signal that the data has. *)
Theorem X17_filtering_of_docs_returns F w self n :
  well_formed w self →
  slider_ranges self →
  (∀ c col, docs_frame self !! c = Some col → length col = n) →
  (∃ name, name ∈ filters.*1 ∧ is_Some (docs_frame self !! name)) →
  (∀ name col, name ∈ ["number_words"; "perplexity_score"] →
     docs_frame self !! name = Some col →
     ∃ m i, np_max col = Ok (Num m) ∧ py_int (Num m) = Ok i ∧ 0 ≤ i) ∧
  ∃ self' page v,
    filtering_of_docs F w self = Ok (self', page) ∧
    all_conds page = Vector v ∧ length v = n ∧
    keys self' ≠ [] ∧ parameters self' = keys self' ∧
    length (discarded_by_filter page)
    = if w_display_discarded_documents_by_filter w
      then length (filter (λ f, is_Some (docs_frame self !! f.1)) filters)
      else 0%nat.
Proof.
  intros Hwf Hranges Hrows (name & Hname & Hin).
  split; [intros name' col' Hname' Hcol'; by eapply slider_range_positive|].
  destruct (set_sliders_Ok F w self Hwf) as [s Hs].
  assert (∀ name, name ∈ filters.*1 → is_Some (docs_frame self !! name) →
            ∃ c cs, dict_get (sl_conds s) name = Ok (c :: cs)) as Hentry.
  { intros name' Hname' Hsome. by apply (set_sliders_entry F w self s name' Hs). }
  destruct (set_sliders_entry F w self s name Hs Hname Hin) as (Hkeys & c & cs & Hget).
  assert (∃ r rows, concat (sl_conds s).*2 = r :: rows) as (r & rows & Hconcat).
  { apply dict_get_elem_of, list_elem_of_split in Hget as (d1 & d2 & ->).
    rewrite fmap_app, concat_app, fmap_cons. simpl.
    destruct (concat d1.*2) as [|r rows]; simpl; eauto. }
  assert (∀ c, is_Some (docs_frame (sl_self s) !! c) ↔ is_Some (docs_frame self !! c)) as Hdom.
  { pose proof Hs as Hs'. rewrite set_sliders_nf in Hs'.
    by destruct (run_blocks_heap _ _ _ _ Hs') as (_ & _ & ? & _). }
  assert (length (foldl (zip_with andb) r rows) = n) as Hlenv.
  { assert (Forall (λ row : list bool, length row = n) (r :: rows)) as Hall.
    { destruct (set_sliders_conds _ _ _ _ Hs) as [Hconds _]. rewrite Hconcat in Hconds.
      pose proof Hs as Hs'. rewrite set_sliders_nf in Hs'.
      pose proof (run_blocks_lengths _ _ n (blocks_keep_length F w) _ _ Hs'
                    (proj1 Hwf) Hrows) as Hlen.
      eapply Forall2_Forall_r; [exact Hconds|].
      apply Forall_forall. intros k _ row Hk.
      destruct (frame_cond_passes _ _ _ Hk) as (col & Hcol & ->).
      rewrite length_fmap, length_seq. by eapply Hlen. }
    apply Forall_cons in Hall as [Hr Hall]. by apply foldl_zip_andb_length. }
  unfold filtering_of_docs. rewrite Hs. rsimpl. unfold admission. rewrite Hconcat. simpl.
  rsimpl.
  change (frame_of (set_keys (sl_self s) (sl_keys s) (sl_keys s)) (docs (sl_self s)))
    with (docs_frame (sl_self s)).
  assert (∃ tables,
            traverse (λ f : string * string,
                        cond ← dict_get (sl_conds s) f.1;
                        display_dataset (np_invert (np_all_axis0 cond)) f.2)
              (filter (λ f, f.1 ∈ list_columns (docs_frame (sl_self s))) filters)
            = Ok tables) as [tables Htables].
  { apply traverse_Ok, Forall_forall. intros f [Hf Hfin]%list_elem_of_filter.
    apply list_columns_spec, Hdom in Hf.
    destruct (Hentry f.1) as (c' & cs' & ->); [by apply list_elem_of_fmap_2|done|].
    rsimpl. simpl. eauto. }
  destruct (w_display_discarded_documents_by_filter w).
  - eexists _, _, _. rewrite Htables. rsimpl. split_and!; try done.
    + simpl. intros Hnil. apply Hkeys. by rewrite Hnil.
    + simpl. rewrite (traverse_length _ _ _ Htables). f_equal.
      apply list_filter_iff. intros f. rewrite list_columns_spec. apply Hdom.
  - rsimpl. eexists _, _, _. split_and!; try done.
    simpl. intros Hnil. apply Hkeys. by rewrite Hnil.
Qed.

Lemma example_rows c col :
  docs_frame Example.self1 !! c = Some col → length col = 2%nat.
Proof.
  intros Hcol.
  change (docs_frame Example.self1) with (DataFrame [Example.doc_a; Example.doc_b]) in Hcol.
  unfold DataFrame in Hcol.
  apply lookup_set_to_map in Hcol as (c' & _ & [= <- <-]); [done|by intros ?? _ _ [= ->]].
Qed.

Lemma example_slider_ranges : slider_ranges Example.self1.
Proof.
  intros name col Hname Hcol.
  repeat (apply elem_of_cons in Hname as [->|Hname]);
    [..|exfalso; exact (proj1 (elem_of_nil _) Hname)];
    vm_compute in Hcol; first [discriminate Hcol|injection Hcol as <-].
  apply Exists_cons_hd. eexists. split; [reflexivity|]. by vm_compute.
Qed.

Lemma X17_filtering_of_docs_returns_witness :
  let w := upload_stopwords Example.w_min10 "the" in
  (∀ name col, name ∈ ["number_words"; "perplexity_score"] →
     docs_frame Example.self1 !! name = Some col →
     ∃ m i, np_max col = Ok (Num m) ∧ py_int (Num m) = Ok i ∧ 0 ≤ i) ∧
  ∃ self' page v,
    filtering_of_docs Example.F w Example.self1 = Ok (self', page) ∧
    all_conds page = Vector v ∧ length v = 2%nat ∧
    keys self' ≠ [] ∧ parameters self' = keys self' ∧
    length (discarded_by_filter page)
    = if w_display_discarded_documents_by_filter w
      then length (filter (λ f, is_Some (docs_frame Example.self1 !! f.1)) filters)
      else 0%nat.
Proof.
  apply (X17_filtering_of_docs_returns Example.F
           (upload_stopwords Example.w_min10 "the") Example.self1 2).
  - apply example_well_formed.
  - apply example_slider_ranges.
  - apply example_rows.
  - exists "number_words". split; [left|]. vm_compute. eauto.
Defined.

(** ** Moving a cutoff *)

Lemma traverse_cell_le_Ok cutoff cutoff' col cond :
  traverse (cell_le cutoff) col = Ok cond →
  traverse (cell_le cutoff') col
  = Ok ((λ c, match c with Num v => Qle_bool v cutoff' | _ => false end) <$> col).
Proof.
  revert cond. induction col as [|c col IH]; intros cond; simpl; [done|].
  intros H. apply bind_Ok_inv in H as (b & Hb & H).
  apply bind_Ok_inv in H as (bs & Hbs & _). rewrite (IH _ Hbs).
  by destruct c.
Qed.

Lemma traverse_cell_ge_Ok cutoff cutoff' col cond :
  traverse (cell_ge cutoff) col = Ok cond →
  traverse (cell_ge cutoff') col
  = Ok ((λ c, match c with Num v => Qle_bool cutoff' v | _ => false end) <$> col).
Proof.
  revert cond. induction col as [|c col IH]; intros cond; simpl; [done|].
  intros H. apply bind_Ok_inv in H as (b & Hb & H).
  apply bind_Ok_inv in H as (bs & Hbs & _). rewrite (IH _ Hbs).
  by destruct c.
Qed.

(** X18.  A cutoff that is made less strict (a maximum raised, a minimum
    lowered) lets through every document that passed before. *)
Theorem X18_get_cond_monotone self key cutoff cutoff' max_cutoff cond :
  get_cond self key cutoff max_cutoff = Ok cond →
  (if max_cutoff then (cutoff <= cutoff')%Q else (cutoff' <= cutoff)%Q) →
  ∃ cond', get_cond self key cutoff' max_cutoff = Ok cond' ∧
    length cond' = length cond ∧
    ∀ i, cond !! i = Some true → cond' !! i = Some true.
Proof.
  unfold get_cond. intros H Hle. apply bind_Ok_inv in H as (col & -> & H). rsimpl.
  destruct max_cutoff.
  - rewrite (traverse_cell_le_Ok _ cutoff' _ _ H). apply traverse_cell_le in H as ->.
    eexists. split_and!; [done|by rewrite !length_fmap|].
    intros i. rewrite !list_lookup_fmap. destruct (col !! i) as [[v| | | |]|]; simpl; try done.
    intros [= Hv]. f_equal. apply Qle_bool_iff. apply Qle_bool_iff in Hv.
    by eapply Qle_trans.
  - rewrite (traverse_cell_ge_Ok _ cutoff' _ _ H). apply traverse_cell_ge in H as ->.
    eexists. split_and!; [done|by rewrite !length_fmap|].
    intros i. rewrite !list_lookup_fmap. destruct (col !! i) as [[v| | | |]|]; simpl; try done.
    intros [= Hv]. f_equal. apply Qle_bool_iff. apply Qle_bool_iff in Hv.
    by eapply Qle_trans.
Qed.

Lemma X18_get_cond_monotone_witness :
  ∃ cond', get_cond Example.self1 "number_words" 20 true = Ok cond' ∧
    length cond' = length [true; false] ∧
    ∀ i, [true; false] !! i = Some true → cond' !! i = Some true.
Proof.
  apply (X18_get_cond_monotone Example.self1 "number_words" 10 20 true [true; false]).
  - vm_compute. reflexivity.
  - vm_compute. discriminate.
Defined.

(** ** The pasted document, rule by rule *)

Lemma is_discarded_discard_if b l : is_discarded (discard_if b l) = is_discarded l || b.
Proof. destruct b; simpl; [by rewrite orb_true_r|by rewrite orb_false_r]. Qed.

(** A rule other than the language identification decides on the document
    alone: its branch raises, or discards, whatever the earlier rules did. *)
Lemma analyse_key_alone F self personal_doc k l :
  key_0 k ≠ "lang_id_score" →
  match analyse_key F self personal_doc (mkLocals false None) k with
  | Ok l0 =>
      ∃ l1, analyse_key F self personal_doc l k = Ok l1 ∧
            is_discarded l1 = is_discarded l || is_discarded l0
  | Raise e => analyse_key F self personal_doc l k = Raise e
  end.
Proof.
  intros Hlang. unfold analyse_key.
  repeat match goal with
  | |- context [String.eqb (key_0 k) ?n] =>
      destruct (String.eqb_spec (key_0 k) n); [try done|]
  end;
  try (eexists; split; [done|]; rewrite !is_discarded_discard_if; done).
  - destruct (int_of_string (key_3 k)) as [z|e']; rsimpl; [|done].
    eexists. split; [done|]. by rewrite !is_discarded_discard_if.
  - eexists. split; [done|]. simpl. by rewrite orb_false_r.
Qed.

Lemma for_each_analyse_key F self personal_doc ks :
  Forall (λ k, key_0 k ≠ "lang_id_score") ks →
  ∀ l l', for_each (analyse_key F self personal_doc) ks l = Ok l' →
    (is_discarded l' = true ↔
     is_discarded l = true ∨
     ∃ k l0, k ∈ ks ∧ analyse_key F self personal_doc (mkLocals false None) k = Ok l0 ∧
             is_discarded l0 = true).
Proof.
  induction 1 as [|k ks Hk _ IH]; intros l l' Hrun; simpl in Hrun.
  - injection Hrun as <-. split; [auto|]. intros [?|(k & l0 & Hin & _)]; [done|].
    by apply elem_of_nil in Hin.
  - apply bind_Ok_inv in Hrun as (l1 & H1 & Hrun). rewrite (IH _ _ Hrun).
    pose proof (analyse_key_alone F self personal_doc k l Hk) as Halone.
    destruct (analyse_key F self personal_doc (mkLocals false None) k) as [l0|e] eqn:H0;
      [|congruence].
    destruct Halone as (l1' & Hl1' & Hd). assert (l1' = l1) as -> by congruence.
    rewrite Hd, orb_true_iff. split.
    + intros [[?|?]|(k' & l0' & Hin & ? & ?)]; auto.
      * right. exists k, l0. split_and!; [left|done|done].
      * right. exists k', l0'. split_and!; [by right|done|done].
    + intros [?|(k' & l0' & [->|Hin]%elem_of_cons & Hk' & Hd')]; auto.
      * left. right. congruence.
      * right. eauto.
Qed.

(** X19.  When no rule is on the language identification, the pasted
    document is said to be discarded exactly when one of the rules, taken
    alone, discards it. *)
Theorem X19_probe_rule_by_rule F w self b :
  Forall (λ k, key_0 k ≠ "lang_id_score") (keys self) →
  analyse_personal_doc F w self = Ok (Some b) →
  (b = true ↔
   ∃ k, k ∈ keys self ∧
        analyse_personal_doc F w (set_keys self [k] (parameters self)) = Ok (Some true)).
Proof.
  intros Hkeys. unfold analyse_personal_doc.
  case_bool_decide as Hdoc; [|discriminate]. intros H.
  apply bind_Ok_inv in H as (l' & Hrun & [= <-]).
  rewrite (for_each_analyse_key _ _ _ _ Hkeys _ _ Hrun). simpl. split.
  - intros [[=]|(k & l0 & Hin & Hk & Hd)]. exists k. split; [done|].
    change (analyse_key F (set_keys self [k] (parameters self)))
      with (analyse_key F self).
    rewrite Hk. rsimpl. by rewrite Hd.
  - intros (k & Hin & H). right.
    change (analyse_key F (set_keys self [k] (parameters self)))
      with (analyse_key F self) in H.
    apply bind_Ok_inv in H as (l1 & H1 & [= Hd]).
    apply bind_Ok_inv in H1 as (l0 & H0 & [= <-]). eauto.
Qed.

Lemma X19_probe_rule_by_rule_witness :
  let self := set_keys Example.self1
                [mkKey "number_words" 10 false None; mkKey "stopwords_ratio" 0 false None] [] in
  true = true ↔
  ∃ k, k ∈ keys self ∧
       analyse_personal_doc Example.F Example.w_probe (set_keys self [k] (parameters self))
       = Ok (Some true).
Proof.
  apply (X19_probe_rule_by_rule Example.F Example.w_probe
           (set_keys Example.self1
              [mkKey "number_words" 10 false None; mkKey "stopwords_ratio" 0 false None] [])
           true).
  - repeat constructor; intros H; discriminate H.
  - vm_compute. reflexivity.
Defined.

(** ** The filter on the words *)

Lemma np_max_int_bound col m : np_max_int col = Ok m → ∀ x, x ∈ col → x ≤ m.
Proof.
  destruct col as [|x0 col]; [discriminate|]. simpl. intros [= <-].
  assert (∀ l a, a ≤ foldl Z.max a l ∧ ∀ x, x ∈ l → x ≤ foldl Z.max a l) as Hfold.
  { induction l as [|y l IH]; intros a; simpl.
    - split; [lia|]. intros x Hx. by apply elem_of_nil in Hx.
    - destruct (IH (Z.max a y)) as [Ha Hl]. split; [lia|].
      intros x [->|Hx]%elem_of_cons; [lia|by apply Hl]. }
  destruct (Hfold col x0) as [H0 Hl]. intros x [->|Hx]%elem_of_cons; [done|by apply Hl].
Qed.

Lemma length_positions_from (v : list bool) j :
  (length (filter (λ p : nat * bool, p.2 = true) (zip (seq j (length v)) v))
   + length (filter (λ p : nat * bool, p.2 = true)
               (zip (seq j (length (negb <$> v))) (negb <$> v))))%nat
  = length v.
Proof.
  revert j. induction v as [|b v IH]; intros j; [done|].
  rewrite fmap_cons. cbn [length seq zip zip_with]. rewrite !filter_cons.
  specialize (IH (S j)).
  destruct b; cbn [snd negb]; repeat case_decide; try done; cbn [length]; lia.
Qed.

Lemma length_positions (v : list bool) :
  (length (positions v) + length (positions (negb <$> v)))%nat = length v.
Proof.
  pose proof (length_positions_from v 0) as H. rewrite length_fmap in H.
  unfold positions. by rewrite !length_fmap.
Qed.

Lemma words_getitem_Ok {A} (ws : list Word) (field : Word → A) :
  ws ≠ [] → words_getitem ws field = Ok (field <$> ws).
Proof. by destruct ws. Qed.

Lemma np_max_int_Ok (ws : list Word) : ws ≠ [] → ∃ m, np_max_int (len_word <$> ws) = Ok m.
Proof. destruct ws; [done|]. simpl. eauto. Qed.

Lemma cond_words_strict cutoff (ws : list Word) :
  zip_with andb ((λ l, Qle_bool (inject_Z l) cutoff) <$> (len_word <$> ws))
    (negb <$> (incorrect_substring <$> ws))
  = (λ wd, Qle_bool (inject_Z (len_word wd)) cutoff && negb (incorrect_substring wd)) <$> ws.
Proof. induction ws as [|wd ws IH]; [done|]. rewrite !fmap_cons. simpl. by rewrite IH. Qed.

Lemma cond_words_lax cutoff (ws : list Word) :
  (λ l, Qle_bool (inject_Z l) cutoff) <$> (len_word <$> ws)
  = (λ wd, Qle_bool (inject_Z (len_word wd)) cutoff && true) <$> ws.
Proof.
  rewrite <- list_fmap_compose. apply list_fmap_ext. intros _ wd _. simpl.
  by rewrite andb_true_r.
Qed.

(** What [filtering_of_words] computes when there are words. *)
Lemma filtering_of_words_eq ww self ws :
  words self = Some ws → ws ≠ [] →
  ∃ m, np_max_int (len_word <$> ws) = Ok m ∧
    let cutoff := slider (w_cutoff_word ww) 0 (inject_Z (Z.min (m + 1) 200))
                    (inject_Z (Z.min (m + 1) 200)) in
    let cond := (λ wd, Qle_bool (inject_Z (len_word wd)) cutoff
                       && (if w_incorrect_substrings ww
                           then negb (incorrect_substring wd) else true)) <$> ws in
    filtering_of_words ww self
    = Ok ((Rule <$> parameters self)
            ++ [Rule (mkKey "len_word" cutoff true None);
                Flag "incorrect_substrings" (w_incorrect_substrings ww)],
          Some (mkWordsPage (positions (negb <$> cond)) (positions cond))).
Proof.
  intros Hws Hne. unfold filtering_of_words. rewrite Hws.
  rewrite !words_getitem_Ok by done. rsimpl.
  destruct (np_max_int_Ok ws Hne) as [m Hm]. rewrite Hm. rsimpl.
  exists m. split; [done|]. cbv zeta. rewrite <- (assoc_L (++)).
  destruct (w_incorrect_substrings ww); rsimpl.
  - by rewrite cond_words_strict.
  - by rewrite cond_words_lax.
Qed.

(** X20.  The word filter keeps a word when its length is at most the
    cutoff and, if the box is ticked, it has no incorrect substring; every
    other word of the table is discarded; and the parameters get the rule
    of the word length and the state of the box, after the rules of the
    documents. *)
Theorem X20_words_filter ww self ws ps page :
  words self = Some ws →
  filtering_of_words ww self = Ok (ps, Some page) →
  ∃ m, np_max_int (len_word <$> ws) = Ok m ∧
    let cutoff := slider (w_cutoff_word ww) 0 (inject_Z (Z.min (m + 1) 200))
                    (inject_Z (Z.min (m + 1) 200)) in
    ps = (Rule <$> parameters self)
           ++ [Rule (mkKey "len_word" cutoff true None);
               Flag "incorrect_substrings" (w_incorrect_substrings ww)] ∧
    (∀ i, i ∈ retained_words page ↔ keeps_word ws cutoff (w_incorrect_substrings ww) i) ∧
    (∀ i, i ∈ discarded_words page ↔ (i < length ws)%nat ∧ i ∉ retained_words page).
Proof.
  intros Hws H.
  assert (ws ≠ []) as Hne.
  { intros ->. unfold filtering_of_words in H. rewrite Hws in H. discriminate H. }
  destruct (filtering_of_words_eq ww self ws Hws Hne) as (m & Hm & Heq).
  exists m. split; [done|]. cbv zeta in *. rewrite Heq in H. injection H as <- <-.
  set (cutoff := slider _ _ _ _). split; [done|]. simpl.
  assert (∀ i, i ∈ positions
                 ((λ wd, Qle_bool (inject_Z (len_word wd)) cutoff
                         && (if w_incorrect_substrings ww
                             then negb (incorrect_substring wd) else true)) <$> ws)
               ↔ keeps_word ws cutoff (w_incorrect_substrings ww) i) as Hkeep.
  { intros i. rewrite elem_of_positions, list_lookup_fmap. unfold keeps_word.
    destruct (ws !! i) as [wd|]; simpl; [|split; [done|by intros (? & [=] & _)]].
    split.
    - intros [= [Hle Hs]%andb_true_iff]. exists wd. split_and!; [done|by apply Qle_bool_iff|].
      intros Hstrict. rewrite Hstrict in Hs. by apply negb_true_iff.
    - intros (wd' & [= <-] & Hle & Hs). f_equal. apply andb_true_iff.
      split; [by apply Qle_bool_iff|].
      destruct (w_incorrect_substrings ww); [|done]. apply negb_true_iff. by apply Hs. }
  split; [done|].
  intros i. rewrite !elem_of_positions, !list_lookup_fmap.
  destruct (ws !! i) as [wd|] eqn:Hi; simpl.
  - apply lookup_lt_Some in Hi.
    destruct (Qle_bool _ _ && _); simpl.
    + split; [intros [=]|]. intros [_ Hn]. by destruct Hn.
    + split; [|done]. intros _. split; [done|]. intros [=].
  - apply lookup_ge_None in Hi. split; [done|]. intros [? _]. lia.
Qed.

Lemma X20_words_filter_witness :
  ∃ ps page m,
    filtering_of_words (mkWordWidgets (Some 5%Q) true) Example.self_words
    = Ok (ps, Some page) ∧
    np_max_int (len_word <$> [mkWord "the" 3 false; mkWord "the" 3 false;
                              mkWord "cat" 3 false; mkWord "a" 1 false;
                              mkWord "muuuuuch" 8 true]) = Ok m ∧
    retained_words page = [0; 1; 2; 3]%nat ∧ discarded_words page = [4%nat].
Proof.
  destruct (X20_words_filter (mkWordWidgets (Some 5%Q) true) Example.self_words
              [mkWord "the" 3 false; mkWord "the" 3 false; mkWord "cat" 3 false;
               mkWord "a" 1 false; mkWord "muuuuuch" 8 true]
              [Rule (mkKey "len_word" 5 true None); Flag "incorrect_substrings" true]
              (mkWordsPage [4%nat] [0; 1; 2; 3]%nat))
    as (m & Hm & _).
  - vm_compute. reflexivity.
  - vm_compute. reflexivity.
  - eexists _, _, m. split_and!; [vm_compute; reflexivity|exact Hm|done|done].
Defined.

(** X21.  With the slider of the word length left alone and the box not
    ticked, a word is kept exactly when it has at most 200 characters. *)
Theorem X21_words_default_cutoff self ws ps page i :
  words self = Some ws →
  filtering_of_words (mkWordWidgets None false) self = Ok (ps, Some page) →
  (i ∈ retained_words page ↔ ∃ wd, ws !! i = Some wd ∧ len_word wd ≤ 200) ∧
  (i ∈ discarded_words page ↔ ∃ wd, ws !! i = Some wd ∧ 200 < len_word wd).
Proof.
  intros Hws H.
  assert (ws ≠ []) as Hne.
  { intros ->. unfold filtering_of_words in H. rewrite Hws in H. discriminate H. }
  destruct (filtering_of_words_eq (mkWordWidgets None false) self ws Hws Hne)
    as (m & Hm & Heq).
  cbv zeta in Heq. rewrite Heq in H. injection H as _ <-. simpl.
  rewrite !elem_of_positions, !list_lookup_fmap.
  destruct (ws !! i) as [wd|] eqn:Hi; simpl.
  2:{ split; (split; [done|by intros (? & [=] & _)]). }
  assert (len_word wd ≤ m) as Hle.
  { apply (np_max_int_bound _ _ Hm). apply list_elem_of_fmap. exists wd.
    split; [done|]. by eapply list_elem_of_lookup_2. }
  rewrite andb_true_r. unfold slider. simpl.
  destruct (Qle_bool (inject_Z (len_word wd)) (inject_Z (Z.min (m + 1) 200))) eqn:Hq.
  - apply Qle_bool_iff in Hq. rewrite <- Zle_Qle in Hq. simpl. split.
    + split; [|done]. intros _. exists wd. split; [done|lia].
    + split; [done|]. intros (wd' & [= <-] & ?). lia.
  - assert (¬ len_word wd ≤ Z.min (m + 1) 200) as Hn.
    { intros Hle'. rewrite Zle_Qle in Hle'. apply Qle_bool_iff in Hle'. congruence. }
    simpl. split.
    + split; [done|]. intros (wd' & [= <-] & ?). lia.
    + split; [|done]. intros _. exists wd. split; [done|lia].
Qed.

Lemma X21_words_default_cutoff_witness :
  (4%nat ∈ [0; 1; 2; 3; 4]%nat ↔
   ∃ wd, [mkWord "the" 3 false; mkWord "the" 3 false; mkWord "cat" 3 false;
          mkWord "a" 1 false; mkWord "muuuuuch" 8 true] !! 4%nat = Some wd ∧
         len_word wd ≤ 200) ∧
  (4%nat ∈ @nil nat ↔
   ∃ wd, [mkWord "the" 3 false; mkWord "the" 3 false; mkWord "cat" 3 false;
          mkWord "a" 1 false; mkWord "muuuuuch" 8 true] !! 4%nat = Some wd ∧
         200 < len_word wd).
Proof.
  apply (X21_words_default_cutoff Example.self_words
           [mkWord "the" 3 false; mkWord "the" 3 false; mkWord "cat" 3 false;
            mkWord "a" 1 false; mkWord "muuuuuch" 8 true]
           [Rule (mkKey "len_word" 9 true None); Flag "incorrect_substrings" false]
           (mkWordsPage [] [0; 1; 2; 3; 4]%nat) 4%nat).
  - vm_compute. reflexivity.
  - vm_compute. reflexivity.
Defined.

(** X22.  Without a table of words [filtering_of_words] shows nothing and
    leaves the parameters as they are; with a table that has no word it
    fails with [KeyError]; otherwise it returns, and every word of the
    table is in exactly one of the two lists, so that their lengths add up
    to the number of words. *)
Theorem X22_filtering_of_words_outcome ww self :
  match words self with
  | None => filtering_of_words ww self = Ok (Rule <$> parameters self, None)
  | Some [] => filtering_of_words ww self = Raise KeyError
  | Some ws =>
      ∃ ps page, filtering_of_words ww self = Ok (ps, Some page) ∧
        (length (retained_words page) + length (discarded_words page))%nat = length ws
  end.
Proof.
  destruct (words self) as [[|wd ws]|] eqn:Hws.
  - unfold filtering_of_words. by rewrite Hws.
  - destruct (filtering_of_words_eq ww self (wd :: ws) Hws) as (m & Hm & Heq); [done|].
    cbv zeta in Heq. eexists _, _. split; [exact Heq|].
    cbn [retained_words discarded_words]. by rewrite length_positions, length_fmap.
  - unfold filtering_of_words. by rewrite Hws.
Qed.

(** ** The histogram *)

Lemma insert_sorted_replicate c k : insert_sorted c (replicate k c) = c :: replicate k c.
Proof.
  destruct k as [|k]; simpl; [done|].
  by rewrite (proj2 (Qle_bool_iff c c) (Qle_refl c)).
Qed.

Lemma np_sort_replicate c k : np_sort (replicate k c) = replicate k c.
Proof.
  unfold np_sort. induction k as [|k IH]; simpl; [done|].
  by rewrite IH, insert_sorted_replicate.
Qed.

Lemma mapM_id_replicate (c : Q) k : mapM id (replicate k (Some c)) = Some (replicate k c).
Proof. induction k as [|k IH]; simpl; [done|]. by rewrite IH. Qed.

(** The median of a constant array is, as a number, its value. *)
Lemma np_median_replicate c n :
  ∃ m, np_median (replicate (S n) (Some c)) = Some m ∧ (m == c)%Q.
Proof.
  unfold np_median. rewrite mapM_id_replicate. cbn [mbind option_bind].
  rewrite np_sort_replicate, length_replicate.
  assert (S n / 2 < S n)%nat as Hlt by (apply Nat.div_lt; lia).
  rewrite !lookup_replicate_2 by lia.
  destruct (Nat.even (S n)); cbn [mbind option_bind].
  - eexists. split; [done|]. field.
  - eexists. split; [done|]. reflexivity.
Qed.

Lemma traverse_float_of_replicate c k :
  traverse float_of (replicate k (Num c)) = Ok (replicate k (Some c)).
Proof. induction k as [|k IH]; simpl; [done|]. rsimpl. by rewrite IH. Qed.

Lemma zip_replicate {A B} (a : A) (b : B) k :
  zip (replicate k a) (replicate k b) = replicate k (a, b).
Proof. induction k as [|k IH]; simpl; [done|]. by rewrite <- IH. Qed.

(** X23.  Of a column in which every document has the same value, the
    histogram is given every value when that value is 0, and no value at
    all otherwise: the values are then all at the median, and none of them
    is at a distance from it that is less than 9 times 0. *)
Theorem X23_plot_hist_constant_column df key n c :
  df !! key_0 key = Some (replicate (S n) (Num c)) →
  ∃ fig, plot_hist true df key = Ok (Some fig) ∧
    hist fig = if Qeq_bool c 0 then replicate (S n) (Some c) else [].
Proof.
  intros Hcol. unfold plot_hist. rewrite (getitem_Some _ _ _ Hcol). rsimpl.
  rewrite traverse_float_of_replicate. rsimpl. eexists. split; [reflexivity|]. cbn [hist].
  destruct (np_median_replicate c n) as (m & Hm & Hmc). rewrite Hm.
  unfold float_ne_0.
  assert (Qeq_bool m 0 = Qeq_bool c 0) as ->.
  { destruct (Qeq_bool c 0) eqn:Hc.
    - apply Qeq_bool_iff. apply Qeq_bool_iff in Hc. by rewrite Hmc.
    - apply not_true_iff_false. intros Hm0%Qeq_bool_iff.
      apply not_true_iff_false in Hc. apply Hc, Qeq_bool_iff. by rewrite <- Hmc. }
  destruct (Qeq_bool c 0); [done|]. cbn [negb].
  rewrite fmap_replicate. cbn [mbind option_bind].
  destruct (np_median_replicate (Qabs (c - m)) n) as (m' & Hm' & Hmd). rewrite Hm'.
  cbn [mbind option_bind]. rewrite zip_replicate.
  rewrite filter_Forall_nil; [done|]. apply Forall_replicate. unfold float_lt. cbn [snd].
  assert (Qabs (c - m) == 0)%Q as Hd.
  { assert (c - m == 0)%Q as H0 by (rewrite Hmc; ring). by rewrite H0. }
  rewrite (proj2 (Qle_bool_iff (9 * m') (Qabs (c - m)))); [done|].
  rewrite Hmd, Hd. discriminate.
Qed.

Lemma X23_plot_hist_constant_column_witness :
  let key := mkKey "lang_id_score" 0 false None in
  let df : frame := {["lang_id_score" := [Num (1 # 2); Num (1 # 2); Num (1 # 2)]]} in
  ∃ fig, plot_hist true df key = Ok (Some fig) ∧ hist fig = [].
Proof.
  apply (X23_plot_hist_constant_column
           {["lang_id_score" := [Num (1 # 2); Num (1 # 2); Num (1 # 2)]]}
           (mkKey "lang_id_score" 0 false None) 2 (1 # 2)).
  vm_compute. reflexivity.
Defined.

Lemma concat_split_spaced s : String.concat " " (split_on "_" s) = spaced s.
Proof.
  induction s as [|c s IH]; simpl; [done|].
  destruct (split_on_cons "_" s) as (w & ws & Hs). rewrite Hs in *.
  destruct (Ascii.eqb c "_"); rewrite <- IH.
  - done.
  - destruct ws as [|x xs]; [done|]. reflexivity.
Qed.

Lemma traverse_float_of_elem_of col val q :
  traverse float_of col = Ok val → Some q ∈ val → Num q ∈ col.
Proof.
  intros H%traverse_Forall2 Hin. apply list_elem_of_lookup in Hin as [i Hi].
  destruct (Forall2_lookup_r _ _ _ _ _ H Hi) as (c & Hc & Hf).
  destruct c; simplify_eq/=. by eapply list_elem_of_lookup_2.
Qed.

(** X24.  What [plot_hist] draws: the values it gives to the histogram are
    values of the column of the key, the title is the name of the key with
    a space for each underscore, and the dashed line is at the cutoff. *)
Theorem X24_plot_hist_figure df key fig :
  plot_hist true df key = Ok (Some fig) →
  title fig = spaced (key_0 key) ∧
  axvline fig = key_1 key ∧
  ∃ col, df !! key_0 key = Some col ∧ ∀ q, Some q ∈ hist fig → Num q ∈ col.
Proof.
  unfold plot_hist. intros H. apply bind_Ok_inv in H as (col & Hcol & H).
  apply bind_Ok_inv in H as (val & Hval & [= <-]). simpl.
  split_and!; [apply concat_split_spaced|done|].
  exists col. split.
  - unfold getitem in Hcol. destruct (df !! key_0 key); congruence.
  - intros q Hq. apply (traverse_float_of_elem_of _ _ _ Hval).
    destruct (float_ne_0 (np_median val)); [|done].
    apply list_elem_of_fmap in Hq as ([v d] & -> & [_ Hin]%list_elem_of_filter).
    apply list_elem_of_lookup in Hin as [i Hi].
    apply lookup_zip_with_Some in Hi as (v' & d' & [= <- <-] & Hv & _).
    by eapply list_elem_of_lookup_2.
Qed.

Lemma X24_plot_hist_figure_witness :
  title Example.figure_number_words = spaced "number_words" ∧
  axvline Example.figure_number_words = 10%Q ∧
  ∃ col, docs_frame Example.self1 !! "number_words" = Some col ∧
    ∀ q, Some q ∈ hist Example.figure_number_words → Num q ∈ col.
Proof.
  apply (X24_plot_hist_figure (docs_frame Example.self1)
           (mkKey "number_words" 10 false None) Example.figure_number_words).
  vm_compute. reflexivity.
Defined.

End visualization_properties.
